(** * Job application tracker: status ledger, cascade deletion, overview statistics

    A shallow embedding of the backend's application routes
    (routes/applications.js) and of the Sequelize models they use
    (models/JobApplication.js, models/StatusHistory.js, models/Document.js,
    models/ApplicationKeyword.js, models/Company.js), followed by the
    properties of the status ledger, of the cascade deletion and of the
    overview statistics. The later sections of the definitions embed the
    list route, the auth middleware, the gap score of an application
    keyword, the keyword model, the status mapping of the application form
    and the document routes; their properties come after those of the
    application routes.

    Conventions of the embedding:
    - a UUID is a [string]; a nullable column is an [option];
    - a status is the JavaScript string the code compares, so that
      [includes] and [indexOf] are the array methods of the source;
    - a table with a primary key that the routes look rows up by is a [gmap]
      from the key; a table that is only filtered by a foreign key is a list
      in insertion order, which is the order of the [createdAt] stamps;
    - an [await]ed model call either resolves or rejects; which calls reject
      is an input of every handler (the fault oracle), beside the rejections
      that the model definitions themselves force;
    - a model call that passes the [transaction] option works on the private
      state of the transaction, which COMMIT makes the committed state; a
      call without it is committed as it runs. *)

From Stdlib Require Import ZArith Uint63 PrimFloat FloatOps SpecFloat FloatAxioms.
From stdpp Require Import base option list strings gmap.

Open Scope Z_scope.

(** ** JavaScript values *)

Module JS.

(** [!!s] for a string or null: null and the empty string are falsy. *)
Definition truthy (v : option string) : bool :=
  match v with
  | Some s => negb (String.eqb s "")
  | None => false
  end.

(** [!!n] for a number or undefined: undefined and 0 are falsy. *)
Definition truthyNumber (v : option Z) : bool :=
  match v with
  | Some n => negb (n =? 0)
  | None => false
  end.

(** [a || b] on nullable numbers. *)
Definition orElse (a b : option Z) : option Z :=
  if truthyNumber a then a else b.

(** [Array.prototype.includes] on an array of strings. *)
Definition includes (l : list string) (x : string) : bool :=
  existsb (String.eqb x) l.

(** [Array.prototype.indexOf] on an array of strings: the first position
    of [x], or -1. *)
Fixpoint indexOf (l : list string) (x : string) : Z :=
  match l with
  | [] => -1
  | y :: l' =>
      if String.eqb y x then 0
      else let i := indexOf l' x in if i <? 0 then -1 else i + 1
  end.

End JS.

(** ** The status enumeration *)

(** The values of the ENUM column [status] (JobApplication.js) and of
    [fromStatus] and [toStatus] (StatusHistory.js), in declaration order. *)
Definition statusValues : list string :=
  [ "Interested"; "Applied"; "Application Viewed"; "Phone Screening";
    "Technical Interview"; "On-site Interview"; "Final Interview";
    "Reference Check"; "Offer Extended"; "Offer Accepted";
    "Offer Declined"; "Rejected"; "Withdrawn"; "On Hold" ]%string.

(** ** Models *)

Module Company.
Record t := mk { name : string }.
#[export] Instance eq_dec : EqDecision t.
Proof. solve_decision. Defined.
End Company.

Module JobApplication.
(** The columns the routes below read or compare. The primary key [id] is
    the key of the table. [status] has a default but no [allowNull: false],
    so the column is nullable. *)
Record t := mk {
  userId : string;
  companyId : string;
  status : option string;
  salaryMin : option Z;
  salaryMax : option Z
}.
#[export] Instance eq_dec : EqDecision t.
Proof. solve_decision. Defined.
End JobApplication.

Module StatusHistory.
Record t := mk {
  jobApplicationId : string;
  fromStatus : option string;   (* allowNull: true *)
  toStatus : string;            (* allowNull: false *)
  changedBy : string;
  notes : option string
}.
#[export] Instance eq_dec : EqDecision t.
Proof. solve_decision. Defined.

Definition statusProgression : list string :=
  [ "Interested"; "Applied"; "Application Viewed"; "Phone Screening";
    "Technical Interview"; "On-site Interview"; "Final Interview";
    "Reference Check"; "Offer Extended"; "Offer Accepted" ]%string.

Definition negativeStatuses : list string :=
  [ "Rejected"; "Withdrawn"; "Offer Declined" ]%string.

Definition neutralStatuses : list string := [ "On Hold" ]%string.

(** [StatusHistory.prototype.isPositiveChange]. The index of [fromStatus]
    is only computed once [fromStatus] is known to be truthy. *)
Definition isPositiveChange (this : t) : bool :=
  if JS.includes negativeStatuses (toStatus this) then false
  else if JS.includes neutralStatuses (toStatus this) then false
  else if negb (JS.truthy (fromStatus this)) then true
  else
    let fromIndex :=
      JS.indexOf statusProgression (default ""%string (fromStatus this)) in
    let toIndex := JS.indexOf statusProgression (toStatus this) in
    toIndex >? fromIndex.
End StatusHistory.

Module Document.
Record t := mk {
  userId : string;
  jobApplicationId : option string;   (* allowNull: true, the optional link *)
  name : string;
  isActive : bool
}.
#[export] Instance eq_dec : EqDecision t.
Proof. solve_decision. Defined.
End Document.

Module ApplicationKeyword.
Record t := mk {
  jobApplicationId : string;
  keywordId : string
}.
#[export] Instance eq_dec : EqDecision t.
Proof. solve_decision. Defined.
End ApplicationKeyword.

(** ** The database *)

Record Store := mkStore {
  companies : gmap string Company.t;
  job_applications : gmap string JobApplication.t;
  status_history : list StatusHistory.t;
  application_keywords : list ApplicationKeyword.t;
  documents : list Document.t
}.

(** The statements a request issues, as the connection's log shows them. *)
Inductive Stmt :=
| BEGIN
| COMMIT
| ROLLBACK
| SELECT (table : string)
| INSERT_job_application (id : string)
| UPDATE_job_application (id : string)
| DELETE_job_application (id : string)
| INSERT_status_history (jobApplicationId : string)
| DELETE_status_history (jobApplicationId : string)
| DELETE_application_keywords (jobApplicationId : string)
| DELETE_documents (jobApplicationId : string).

#[export] Instance Stmt_eq_dec : EqDecision Stmt.
Proof. solve_decision. Defined.

(** A connection: the committed state, which is what every reader of the
    database observes; the private state of the open transaction
    ([pending], [None] when no transaction is open or the transaction is
    finished); and the statements issued. *)
Record Conn := mkConn {
  committed : Store;
  pending : option Store;
  issued : list Stmt
}.

Definition connect (s : Store) : Conn :=
  {| committed := s; pending := None; issued := [] |}.

(** The fault oracle: [flt k] tells whether the [k]-th statement of the
    request (from 0) is rejected by the database or by the driver. *)
Definition Faults := nat -> bool.

Definition noFaults : Faults := fun _ => false.

Definition failAt (k : nat) : Faults := fun i => Nat.eqb i k.

(** An [await]ed promise settles: it resolves with a value or rejects. Both
    leave the connection in the state the statements run so far produced. *)
Inductive Settled (A : Type) :=
| Resolved (a : A) (c : Conn)
| Rejected (c : Conn).
Arguments Resolved {A} a c.
Arguments Rejected {A} c.

Definition Async (A : Type) := Faults -> Conn -> Settled A.

Definition ret {A} (a : A) : Async A := fun _ c => Resolved a c.

Definition bind {A B} (m : Async A) (k : A -> Async B) : Async B :=
  fun flt c =>
    match m flt c with
    | Resolved a c' => k a flt c'
    | Rejected c' => Rejected c'
    end.

(** [try { m } catch (error) { h }]. *)
Definition try_catch {A} (m h : Async A) : Async A :=
  fun flt c =>
    match m flt c with
    | Resolved a c' => Resolved a c'
    | Rejected c' => h flt c'
    end.

Notation "'await' x <- m ; k" := (bind m (fun x => k))
  (at level 10, x name, m at level 100, k at level 200,
   format "'[v' 'await'  x  <-  m ; '/' k ']'").
Notation "'await_' m ; k" := (bind m (fun _ => k))
  (at level 10, m at level 100, k at level 200,
   format "'[v' 'await_'  m ; '/' k ']'").

(** The [transaction] option of a model call: a call that passes the
    transaction runs on its private state, a call that does not is
    committed as it runs. *)
Inductive Options :=
| autocommit
| in_transaction.

(** One statement: it is logged; it rejects when the oracle says so, when
    it passes a transaction that is not open, or when [run] finds a
    constraint violated ([None]); otherwise it resolves with the result of
    [run] and leaves the state [run] computes. *)
Definition query {A} (options : Options) (q : Stmt)
    (run : Store -> option (A * Store)) : Async A :=
  fun flt c =>
    let log := issued c ++ [q] in
    let rejected :=
      Rejected {| committed := committed c; pending := pending c; issued := log |} in
    if flt (length (issued c)) then rejected
    else
      match options with
      | autocommit =>
          match run (committed c) with
          | Some (a, s) =>
              Resolved a {| committed := s; pending := pending c; issued := log |}
          | None => rejected
          end
      | in_transaction =>
          match pending c with
          | Some w =>
              match run w with
              | Some (a, w') =>
                  Resolved a {| committed := committed c; pending := Some w';
                                issued := log |}
              | None => rejected
              end
          | None => rejected
          end
      end.

(** [sequelize.transaction()]: the transaction starts from the committed
    state. *)
Definition transaction : Async unit :=
  fun flt c =>
    let log := issued c ++ [BEGIN] in
    if flt (length (issued c)) then
      Rejected {| committed := committed c; pending := pending c; issued := log |}
    else
      Resolved tt {| committed := committed c; pending := Some (committed c);
                     issued := log |}.

(** [transaction.commit()] and [transaction.rollback()]. Both finish the
    transaction, also when the statement is rejected; only a COMMIT that
    succeeds makes its writes the committed state. On a finished
    transaction both throw without issuing a statement. *)
Definition commit : Async unit :=
  fun flt c =>
    match pending c with
    | None => Rejected c
    | Some w =>
        let log := issued c ++ [COMMIT] in
        if flt (length (issued c)) then
          Rejected {| committed := committed c; pending := None; issued := log |}
        else
          Resolved tt {| committed := w; pending := None; issued := log |}
    end.

Definition rollback : Async unit :=
  fun flt c =>
    match pending c with
    | None => Rejected c
    | Some _ =>
        let log := issued c ++ [ROLLBACK] in
        if flt (length (issued c)) then
          Rejected {| committed := committed c; pending := None; issued := log |}
        else
          Resolved tt {| committed := committed c; pending := None; issued := log |}
    end.

(** ** Model calls (Sequelize) *)

(** [Company.findByPk(id)]. *)
Definition Company_findByPk (id : string) : Async (option Company.t) :=
  query autocommit (SELECT "companies") (fun s => Some (companies s !! id, s)).

(** The [where: { id, userId }] clause of the three single-application
    routes. *)
Definition owned_by (userId : string) (a : JobApplication.t) : bool :=
  bool_decide (JobApplication.userId a = userId).

Definition lookup_owned (s : Store) (id userId : string)
  : option JobApplication.t :=
  match job_applications s !! id with
  | Some a => if owned_by userId a then Some a else None
  | None => None
  end.

(** [JobApplication.findOne({ where: { id, userId }, transaction })]. *)
Definition JobApplication_findOne (options : Options) (id userId : string)
  : Async (option JobApplication.t) :=
  query options (SELECT "job_applications")
    (fun s => Some (lookup_owned s id userId, s)).

(** [JobApplication.create(values)]: the INSERT violates the primary key
    when a row with this id exists. *)
Definition JobApplication_create (id : string) (values : JobApplication.t)
  : Async (string * JobApplication.t) :=
  query autocommit (INSERT_job_application id)
    (fun s =>
       match job_applications s !! id with
       | Some _ => None
       | None =>
           Some ((id, values),
                 {| companies := companies s;
                    job_applications := <[id := values]> (job_applications s);
                    status_history := status_history s;
                    application_keywords := application_keywords s;
                    documents := documents s |})
       end).

(** [StatusHistory.create(values)]: [toStatus] is [allowNull: false], so a
    null one is rejected by validation before any INSERT; otherwise the row
    is appended to the ledger. *)
Definition StatusHistory_create (jobApplicationId : string)
    (fromStatus toStatus : option string) (changedBy : string)
    (notes : option string) : Async unit :=
  query autocommit (INSERT_status_history jobApplicationId)
    (fun s =>
       match toStatus with
       | None => None
       | Some to =>
           Some (tt,
                 {| companies := companies s;
                    job_applications := job_applications s;
                    status_history :=
                      status_history s ++
                      [ StatusHistory.mk jobApplicationId fromStatus to
                          changedBy notes ];
                    application_keywords := application_keywords s;
                    documents := documents s |})
       end).

(** [StatusHistory.destroy({ where: { jobApplicationId }, transaction })]. *)
Definition StatusHistory_destroy (options : Options) (jobApplicationId : string)
  : Async unit :=
  query options (DELETE_status_history jobApplicationId)
    (fun s =>
       Some (tt,
             {| companies := companies s;
                job_applications := job_applications s;
                status_history :=
                  filter (fun h => StatusHistory.jobApplicationId h <> jobApplicationId)
                         (status_history s);
                application_keywords := application_keywords s;
                documents := documents s |})).

(** [ApplicationKeyword.destroy({ where: { jobApplicationId }, transaction })]. *)
Definition ApplicationKeyword_destroy (options : Options)
    (jobApplicationId : string) : Async unit :=
  query options (DELETE_application_keywords jobApplicationId)
    (fun s =>
       Some (tt,
             {| companies := companies s;
                job_applications := job_applications s;
                status_history := status_history s;
                application_keywords :=
                  filter (fun k => ApplicationKeyword.jobApplicationId k <> jobApplicationId)
                         (application_keywords s);
                documents := documents s |})).

(** [Document.destroy({ where: { jobApplicationId }, transaction })]: a hard
    delete of the documents linked to the application; a null link matches
    no id. *)
Definition Document_destroy (options : Options) (jobApplicationId : string)
  : Async unit :=
  query options (DELETE_documents jobApplicationId)
    (fun s =>
       Some (tt,
             {| companies := companies s;
                job_applications := job_applications s;
                status_history := status_history s;
                application_keywords := application_keywords s;
                documents :=
                  filter (fun d => Document.jobApplicationId d <> Some jobApplicationId)
                         (documents s) |})).

(** [application.destroy({ transaction })]. *)
Definition JobApplication_destroy (options : Options) (id : string) : Async unit :=
  query options (DELETE_job_application id)
    (fun s =>
       Some (tt,
             {| companies := companies s;
                job_applications := delete id (job_applications s);
                status_history := status_history s;
                application_keywords := application_keywords s;
                documents := documents s |})).

Module Body.
(** The request body, as far as the routes and the models read it.
    [status] can be absent ([None]), JSON null ([Some None]) or a string;
    the salary bounds are JSON numbers when present. *)
Record t := mk {
  id : option string;
  userId : option string;
  companyId : option string;
  status : option (option string);
  statusNotes : option string;
  salaryMin : option Z;
  salaryMax : option Z
}.

(** [body.status] as a nullable value: undefined and null are both falsy
    and differ from every string. *)
Definition statusValue (b : t) : option string :=
  match status b with
  | Some v => v
  | None => None
  end.
End Body.

(** [application.update(values)]: the columns named in [values] are
    assigned (a key that is absent leaves its column; the primary key of a
    saved instance is never reassigned), the others are kept. *)
Definition assign (b : Body.t) (a : JobApplication.t) : JobApplication.t :=
  {| JobApplication.userId := default (JobApplication.userId a) (Body.userId b);
     JobApplication.companyId :=
       default (JobApplication.companyId a) (Body.companyId b);
     JobApplication.status := default (JobApplication.status a) (Body.status b);
     JobApplication.salaryMin :=
       match Body.salaryMin b with
       | Some n => Some n
       | None => JobApplication.salaryMin a
       end;
     JobApplication.salaryMax :=
       match Body.salaryMax b with
       | Some n => Some n
       | None => JobApplication.salaryMax a
       end |}.

Definition JobApplication_update (id : string) (values : Body.t) : Async unit :=
  query autocommit (UPDATE_job_application id)
    (fun s =>
       Some (tt,
             {| companies := companies s;
                job_applications := alter (assign values) id (job_applications s);
                status_history := status_history s;
                application_keywords := application_keywords s;
                documents := documents s |})).

(** ** Requests and responses *)

(** [req.user.userId] (set by the auth middleware), [req.params.id],
    [req.body], and the verdict of the validators on the fields this model
    does not interpret (jobTitle, jobUrl, location, priority, the UUID
    syntax of companyId). *)
Record Request := mkRequest {
  user : string;
  params_id : string;
  body : Body.t;
  otherFieldsValid : bool
}.

(** The associations a query includes. *)
Record Included := mkIncluded {
  inc_documents : list Document.t;
  inc_statusHistory : list StatusHistory.t;
  inc_keywords : list ApplicationKeyword.t
}.

Record ApplicationJson := mkApplicationJson {
  application_id : string;
  application : JobApplication.t;
  company : option Company.t;
  included : option Included
}.

Inductive Data :=
| NoData
| ApplicationData (application : option ApplicationJson)
| OverviewData (totalApplications : Z) (responseRate : float).

(** [res.status(code).json(...)], or no response at all when a rejection
    escapes the handler. *)
Inductive Response :=
| Json (statusCode : nat) (data : Data)
| Unhandled.

Definition statusCode (r : Response) : option nat :=
  match r with
  | Json code _ => Some code
  | Unhandled => None
  end.

Definition returned (r : Response) : option ApplicationJson :=
  match r with
  | Json _ (ApplicationData v) => v
  | _ => None
  end.

(** What every other reader of the database observes. *)
Definition visible (c : Conn) : Store := committed c.

(** A route: the response and the connection as the request leaves it. *)
Definition serve (handler : Async Response) (flt : Faults) (s : Store)
  : Response * Conn :=
  match handler flt (connect s) with
  | Resolved r c => (r, c)
  | Rejected c => (Unhandled, c)
  end.

(** ** Validators (express-validator) *)

(** [optional().isInt({ min: 0 })] on a number. *)
Definition isInt_min0 (v : option Z) : bool :=
  match v with
  | Some n => 0 <=? n
  | None => true
  end.

(** [optional().isIn([...])]: only an absent field is skipped. *)
Definition isIn_status (v : option (option string)) : bool :=
  match v with
  | None => true
  | Some (Some s) => JS.includes statusValues s
  | Some None => false
  end.

Definition post_validators (req : Request) : bool :=
  otherFieldsValid req
  && isInt_min0 (Body.salaryMin (body req))
  && isInt_min0 (Body.salaryMax (body req)).

Definition put_validators (req : Request) : bool :=
  otherFieldsValid req
  && isInt_min0 (Body.salaryMin (body req))
  && isInt_min0 (Body.salaryMax (body req))
  && isIn_status (Body.status (body req)).

(** [min && max && min > max]. *)
Definition salaryRangeInvalid (min max : option Z) : bool :=
  JS.truthyNumber min && JS.truthyNumber max
  && match min, max with
     | Some x, Some y => x >? y
     | _, _ => false
     end.

(** ** Routes (routes/applications.js) *)

(** The [include] of GET /:id: active documents, the ledger rows and the
    keyword links of the application. *)
Definition include_all (s : Store) (id : string) : Included :=
  {| inc_documents :=
       filter (fun d => Document.jobApplicationId d = Some id
                        /\ Document.isActive d = true) (documents s);
     inc_statusHistory :=
       filter (fun h => StatusHistory.jobApplicationId h = id) (status_history s);
     inc_keywords :=
       filter (fun k => ApplicationKeyword.jobApplicationId k = id)
              (application_keywords s) |}.

(** [JobApplication.findOne({ where: { id, userId }, include: [...] })]. *)
Definition JobApplication_findOne_included (id userId : string)
  : Async (option ApplicationJson) :=
  query autocommit (SELECT "job_applications")
    (fun s =>
       Some (match lookup_owned s id userId with
             | Some a =>
                 Some {| application_id := id;
                         application := a;
                         company := companies s !! JobApplication.companyId a;
                         included := Some (include_all s id) |}
             | None => None
             end, s)).

(** [JobApplication.findByPk(id, { include: [company] })]. *)
Definition JobApplication_findByPk (id : string) : Async (option ApplicationJson) :=
  query autocommit (SELECT "job_applications")
    (fun s =>
       Some (match job_applications s !! id with
             | Some a =>
                 Some {| application_id := id;
                         application := a;
                         company := companies s !! JobApplication.companyId a;
                         included := None |}
             | None => None
             end, s)).

(** GET /api/applications/:id *)
Definition getApplication (req : Request) : Async Response :=
  try_catch
    (await application <- JobApplication_findOne_included (params_id req) (user req);
     match application with
     | None => ret (Json 404 NoData)
     | Some v => ret (Json 200 (ApplicationData (Some v)))
     end)
    (ret (Json 500 NoData)).

(** The values POST passes to [JobApplication.create]:
    [{ ...req.body, userId: req.user.userId }], with the column default of
    [status] where the body has none. *)
Definition applicationData (req : Request) (companyId : string)
  : JobApplication.t :=
  {| JobApplication.userId := user req;
     JobApplication.companyId := companyId;
     JobApplication.status :=
       default (Some "Interested"%string) (Body.status (body req));
     JobApplication.salaryMin := Body.salaryMin (body req);
     JobApplication.salaryMax := Body.salaryMax (body req) |}.

(** POST /api/applications. [uuid] is the UUIDV4 the model draws for the
    primary key when the body brings none. *)
Definition createApplication (uuid : string) (req : Request) : Async Response :=
  try_catch
    (if negb (post_validators req) then ret (Json 400 NoData)
     else
       match Body.companyId (body req) with
       | Some companyId =>
           if JS.truthy (Some companyId) then
             await company <- Company_findByPk companyId;
             match company with
             | None => ret (Json 404 NoData)
             | Some _ =>
                 if salaryRangeInvalid (Body.salaryMin (body req))
                                       (Body.salaryMax (body req))
                 then ret (Json 400 NoData)
                 else
                   await application <-
                     JobApplication_create (default uuid (Body.id (body req)))
                                           (applicationData req companyId);
                   await_ StatusHistory_create application.1 None
                            (JobApplication.status application.2) "User" None;
                   await createdApplication <- JobApplication_findByPk application.1;
                   ret (Json 201 (ApplicationData createdApplication))
             end
           else ret (Json 400 NoData)
       | None => ret (Json 400 NoData)
       end)
    (ret (Json 500 NoData)).

(** PUT /api/applications/:id *)
Definition updateApplication (req : Request) : Async Response :=
  try_catch
    (if negb (put_validators req) then ret (Json 400 NoData)
     else
       await application <-
         JobApplication_findOne autocommit (params_id req) (user req);
       match application with
       | None => ret (Json 404 NoData)
       | Some a =>
           let salaryMin :=
             JS.orElse (Body.salaryMin (body req)) (JobApplication.salaryMin a) in
           let salaryMax :=
             JS.orElse (Body.salaryMax (body req)) (JobApplication.salaryMax a) in
           if salaryRangeInvalid salaryMin salaryMax then ret (Json 400 NoData)
           else
             let oldStatus := JobApplication.status a in
             let newStatus := Body.statusValue (body req) in
             await_ JobApplication_update (params_id req) (body req);
             await_ (if JS.truthy newStatus
                        && negb (bool_decide (newStatus = oldStatus))
                     then StatusHistory_create (params_id req) oldStatus newStatus
                            "User"
                            (if JS.truthy (Body.statusNotes (body req))
                             then Body.statusNotes (body req) else None)
                     else ret tt);
             await updatedApplication <- JobApplication_findByPk (params_id req);
             ret (Json 200 (ApplicationData updatedApplication))
       end)
    (ret (Json 500 NoData)).

(** DELETE /api/applications/:id. The transaction is opened before the
    [try]; every statement of the handler runs inside it. *)
Definition deleteApplication (req : Request) : Async Response :=
  await_ transaction;
  try_catch
    (await application <-
       JobApplication_findOne in_transaction (params_id req) (user req);
     match application with
     | None =>
         await_ rollback;
         ret (Json 404 NoData)
     | Some _ =>
         await_ StatusHistory_destroy in_transaction (params_id req);
         await_ ApplicationKeyword_destroy in_transaction (params_id req);
         await_ Document_destroy in_transaction (params_id req);
         await_ JobApplication_destroy in_transaction (params_id req);
         await_ commit;
         ret (Json 200 NoData)
     end)
    (await_ rollback;
     ret (Json 500 NoData)).

(** ** Overview statistics *)

(** JavaScript numbers are IEEE 754 doubles: Rocq's primitive floats. A row
    count is a small integer, which a double holds exactly. *)
Definition Number (n : Z) : float := PrimFloat.of_uint63 (Uint63.of_Z n).

(** The string [Number.prototype.toFixed(1)] returns: a sign and the digits
    of an integer number of tenths, or the name of a non-finite value. *)
Inductive NumberString :=
| Digits (negative : bool) (tenths : Z)
| InfinityString (negative : bool)
| NaNString.

(** The integer [n] for which [n / 10 - m * 2^e] is as close to zero as
    possible, the larger one of two (ECMAScript, Number.prototype.toFixed):
    floor (10 * m * 2^e + 1/2). *)
Definition nearestTenths (m : positive) (e : Z) : Z :=
  if 0 <=? e then 10 * Z.pos m * 2 ^ e
  else (20 * Z.pos m + 2 ^ (- e)) / (2 * 2 ^ (- e)).

Definition toFixed1 (x : float) : NumberString :=
  match Prim2SF x with
  | S754_zero _ => Digits false 0
  | S754_finite s m e => Digits s (nearestTenths m e)
  | S754_infinity s => InfinityString s
  | S754_nan => NaNString
  end.

(** [parseFloat] on the strings above: the double nearest to the decimal. *)
Definition parseFloat (str : NumberString) : float :=
  match str with
  | Digits s n =>
      let v := PrimFloat.div (Number n) (Number 10) in
      if s then PrimFloat.opp v else v
  | InfinityString s => if s then neg_infinity else infinity
  | NaNString => nan
  end.

(** [appliedCount > 0 ? (responseCount / appliedCount * 100).toFixed(1) : 0],
    then [parseFloat]. *)
Definition responseRate (responseCount appliedCount : Z) : float :=
  if appliedCount >? 0 then
    parseFloat
      (toFixed1
         (PrimFloat.mul (PrimFloat.div (Number responseCount) (Number appliedCount))
                        (Number 100)))
  else Number 0.

(** [JobApplication.count({ where })]. *)
Definition JobApplication_count (where_ : JobApplication.t -> bool) : Async Z :=
  query autocommit (SELECT "job_applications")
    (fun s =>
       Some (Z.of_nat
               (size (filter (fun kv : string * JobApplication.t =>
                                where_ kv.2 = true) (job_applications s))), s)).

(** A query whose rows the model does not interpret (they depend on the
    clock or only feed the response): it can still reject. *)
Definition JobApplication_select_uninterpreted : Async unit :=
  query autocommit (SELECT "job_applications") (fun s => Some (tt, s)).

(** [{ userId, status: { [Op.ne]: 'Interested' } }]; as in SQL, a null
    status satisfies no comparison. *)
Definition where_applied (userId : string) (a : JobApplication.t) : bool :=
  owned_by userId a
  && match JobApplication.status a with
     | Some st => negb (String.eqb st "Interested")
     | None => false
     end.

Definition responseStatuses : list string :=
  [ "Application Viewed"; "Phone Screening"; "Technical Interview";
    "On-site Interview"; "Final Interview"; "Reference Check";
    "Offer Extended"; "Offer Accepted"; "Offer Declined" ]%string.

(** [{ userId, status: { [Op.in]: [...] } }]. *)
Definition where_responded (userId : string) (a : JobApplication.t) : bool :=
  owned_by userId a
  && match JobApplication.status a with
     | Some st => JS.includes responseStatuses st
     | None => false
     end.

(** GET /api/applications/stats/overview. The status distribution and the
    counts of recent applications and of upcoming follow-ups are queries of
    their own, issued in the order of the source. *)
Definition getOverviewStats (req : Request) : Async Response :=
  try_catch
    (let userId := user req in
     await_ JobApplication_select_uninterpreted;   (* statusStats *)
     await totalApplications <- JobApplication_count (owned_by userId);
     await_ JobApplication_select_uninterpreted;   (* recentApplications *)
     await_ JobApplication_select_uninterpreted;   (* upcomingFollowUps *)
     await appliedCount <- JobApplication_count (where_applied userId);
     await responseCount <- JobApplication_count (where_responded userId);
     ret (Json 200 (OverviewData totalApplications
                                 (responseRate responseCount appliedCount))))
    (ret (Json 500 NoData)).

(** ** Notions named in the statements *)

(** The statuses of the enumeration that the progression list leaves out. *)
Definition offProgression : list string :=
  [ "Rejected"; "Withdrawn"; "Offer Declined"; "On Hold" ]%string.

(** The most recent ledger row of an application: the last one in
    insertion order among those that reference it. *)
Definition latest (id : string) (s : Store) : option StatusHistory.t :=
  last (filter (fun h => StatusHistory.jobApplicationId h = id) (status_history s)).

(** The aggregate and the ledger agree: every application has a most recent
    ledger row, and its [toStatus] is the live status. *)
Definition ledger_consistent (s : Store) : Prop :=
  forall id a,
    job_applications s !! id = Some a ->
    exists h, latest id s = Some h
              /\ JobApplication.status a = Some (StatusHistory.toStatus h).

(** The salary range of a row: both bounds are non-negative, and the
    minimum does not exceed a maximum other than 0. *)
Definition salary_ordered_unless_zero (a : JobApplication.t) : Prop :=
  (forall x, JobApplication.salaryMin a = Some x -> 0 <= x)
  /\ (forall y, JobApplication.salaryMax a = Some y -> 0 <= y)
  /\ (forall x y,
        JobApplication.salaryMin a = Some x ->
        JobApplication.salaryMax a = Some y ->
        y <> 0 -> x <= y).

(** The applications that do not belong to [userId], and their ledger
    rows, are in [s'] exactly as they are in [s]. *)
Definition others_untouched (userId : string) (s s' : Store) : Prop :=
  forall id a,
    job_applications s !! id = Some a ->
    JobApplication.userId a <> userId ->
    job_applications s' !! id = Some a
    /\ filter (fun h => StatusHistory.jobApplicationId h = id) (status_history s')
       = filter (fun h => StatusHistory.jobApplicationId h = id) (status_history s).

(** A response carries no application, or the one application [id], which
    belonged to [userId] when the request arrived, with ledger rows of that
    application only. *)
Definition returns_only_own (userId id : string) (s : Store) (r : Response) : Prop :=
  forall v,
    returned r = Some v ->
    application_id v = id
    /\ (exists a, job_applications s !! id = Some a
                  /\ JobApplication.userId a = userId)
    /\ (forall inc h,
          included v = Some inc ->
          h ∈ inc_statusHistory inc ->
          StatusHistory.jobApplicationId h = id).

(** The number of the user's applications whose status is a value other
    than "Interested", and the number of those whose status is one of the
    nine statuses that show a response. *)
Definition appliedCount (userId : string) (s : Store) : Z :=
  Z.of_nat
    (length
       (filter (fun kv : string * JobApplication.t =>
                  JobApplication.userId kv.2 = userId
                  /\ JobApplication.status kv.2 <> None
                  /\ JobApplication.status kv.2 <> Some "Interested"%string)
               (map_to_list (job_applications s)))).

Definition responseCount (userId : string) (s : Store) : Z :=
  Z.of_nat
    (length
       (filter (fun kv : string * JobApplication.t =>
                  JobApplication.userId kv.2 = userId
                  /\ JobApplication.status kv.2 ∈ (Some <$> responseStatuses))
               (map_to_list (job_applications s)))).

(** [n] tenths is a decimal nearest to the double [m * 2^e]:
    |10 * m * 2^e - n| <= 1/2, with the powers of two cleared. *)
Definition is_nearest_tenth (m : positive) (e : Z) (n : Z) : Prop :=
  Z.abs (20 * Z.pos m * 2 ^ Z.max e 0 - 2 * n * 2 ^ Z.max (- e) 0)
  <= 2 ^ Z.max (- e) 0.

(** Two databases look the same to [userId]: the same companies, the same
    applications of [userId], and for each of these the same associated
    rows (active documents, ledger rows, keyword links). The applications
    of the other users and their rows are free to differ. *)
Definition same_view (userId : string) (s1 s2 : Store) : Prop :=
  companies s1 = companies s2
  /\ forall id,
       lookup_owned s1 id userId = lookup_owned s2 id userId
       /\ (is_Some (lookup_owned s1 id userId) ->
           include_all s1 id = include_all s2 id).

(** The digits [toFixed(1)] prints for [r / a * 100] are a nearest tenth
    of the exact percentage [100 r / a]: |1000 r / a - n| <= 1/2. *)
Definition prints_nearest_tenth (r a : Z) : bool :=
  match toFixed1 (PrimFloat.mul (PrimFloat.div (Number r) (Number a)) (Number 100)) with
  | Digits false n => Z.abs (2000 * r - 2 * n * a) <=? a
  | _ => false
  end.

(** The three mutating operations, and a sequence of them run one after
    the other, each against what the previous ones committed. *)
Inductive Operation :=
| CreateApplication (uuid : string) (req : Request)
| UpdateApplication (req : Request)
| DeleteApplication (req : Request).

Definition handler (op : Operation) : Async Response :=
  match op with
  | CreateApplication uuid req => createApplication uuid req
  | UpdateApplication req => updateApplication req
  | DeleteApplication req => deleteApplication req
  end.

Definition perform (op : Operation) (flt : Faults) (s : Store) : Response * Store :=
  let rc := serve (handler op) flt s in (rc.1, visible rc.2).

Fixpoint replay (ops : list (Operation * Faults)) (s : Store) : Store :=
  match ops with
  | [] => s
  | (op, flt) :: rest => replay rest (perform op flt s).2
  end.

(** ** Sample data *)

Module Sample.

Definition alice : string := "u-alice".
Definition bob : string := "u-bob".
Definition acme : string := "c-acme".

Definition emptyBody : Body.t :=
  Body.mk None None None None None None None.

(** A database with one company and no application. *)
Definition fresh : Store :=
  {| companies := {[ acme := Company.mk "Acme" ]};
     job_applications := ∅;
     status_history := [];
     application_keywords := [];
     documents := [] |}.

(** Alice tracks application a1 (Interested, with its initial ledger row, a
    keyword link, a linked document and an unlinked one); Bob tracks a2. *)
Definition tracked : Store :=
  {| companies := {[ acme := Company.mk "Acme" ]};
     job_applications :=
       {[ "a1"%string :=
            JobApplication.mk alice acme (Some "Interested"%string)
              (Some 50000) (Some 80000);
          "a2"%string :=
            JobApplication.mk bob acme (Some "Applied"%string) None None ]};
     status_history :=
       [ StatusHistory.mk "a1" None "Interested" "User" None;
         StatusHistory.mk "a2" None "Interested" "User" None;
         StatusHistory.mk "a2" (Some "Interested"%string) "Applied" "User" None ];
     application_keywords :=
       [ ApplicationKeyword.mk "a1" "k-rocq"; ApplicationKeyword.mk "a2" "k-sql" ];
     documents :=
       [ Document.mk alice (Some "a1"%string) "cover letter" true;
         Document.mk alice None "resume" true;
         Document.mk bob (Some "a2"%string) "portfolio" true ] |}.

(** The same database after Bob moved a2 on to a rejection. *)
Definition bobRejected : Store :=
  {| companies := {[ acme := Company.mk "Acme" ]};
     job_applications :=
       {[ "a1"%string :=
            JobApplication.mk alice acme (Some "Interested"%string)
              (Some 50000) (Some 80000);
          "a2"%string :=
            JobApplication.mk bob acme (Some "Rejected"%string) None None ]};
     status_history :=
       [ StatusHistory.mk "a1" None "Interested" "User" None;
         StatusHistory.mk "a2" None "Interested" "User" None;
         StatusHistory.mk "a2" (Some "Interested"%string) "Applied" "User" None;
         StatusHistory.mk "a2" (Some "Applied"%string) "Rejected" "User" None ];
     application_keywords :=
       [ ApplicationKeyword.mk "a1" "k-rocq"; ApplicationKeyword.mk "a2" "k-sql" ];
     documents :=
       [ Document.mk alice (Some "a1"%string) "cover letter" true;
         Document.mk alice None "resume" true;
         Document.mk bob (Some "a2"%string) "portfolio" true ] |}.

(** The request of [userId] on the application [id] with body [b]. *)
Definition request (userId id : string) (b : Body.t) : Request :=
  {| user := userId; params_id := id; body := b; otherFieldsValid := true |}.

(** [{ companyId: "c-acme" }], with the status given (absent, null or a
    string) and a salary range. *)
Definition newApplication (st : option (option string)) (min max : option Z)
  : Body.t :=
  Body.mk None None (Some acme) st None min max.

(** [{ status: st }]. *)
Definition statusBody (st : string) : Body.t :=
  Body.mk None None None (Some (Some st)) None None None.

End Sample.

(** ** The states a request can leave, and further notions of the statements *)

(** The application row [a] stored under [id]. *)
Definition inserted (id : string) (a : JobApplication.t) (s : Store) : Store :=
  {| companies := companies s;
     job_applications := <[id := a]> (job_applications s);
     status_history := status_history s;
     application_keywords := application_keywords s;
     documents := documents s |}.

(** The ledger row [h] appended. *)
Definition recorded (h : StatusHistory.t) (s : Store) : Store :=
  {| companies := companies s;
     job_applications := job_applications s;
     status_history := status_history s ++ [h];
     application_keywords := application_keywords s;
     documents := documents s |}.

(** The ledger row PUT writes for a transition of [a] to [new]. *)
Definition transition_row (req : Request) (a : JobApplication.t) (new : string)
  : StatusHistory.t :=
  StatusHistory.mk (params_id req) (JobApplication.status a) new "User"
    (if JS.truthy (Body.statusNotes (body req))
     then Body.statusNotes (body req) else None).

(** The columns of the body [b] assigned to the application [id]. *)
Definition assigned (id : string) (b : Body.t) (s : Store) : Store :=
  {| companies := companies s;
     job_applications := alter (assign b) id (job_applications s);
     status_history := status_history s;
     application_keywords := application_keywords s;
     documents := documents s |}.

(** The application [id] removed with the rows that reference it. *)
Definition cascaded (id : string) (s : Store) : Store :=
  {| companies := companies s;
     job_applications := delete id (job_applications s);
     status_history :=
       filter (fun h => StatusHistory.jobApplicationId h <> id) (status_history s);
     application_keywords :=
       filter (fun k => ApplicationKeyword.jobApplicationId k <> id)
              (application_keywords s);
     documents :=
       filter (fun d => Document.jobApplicationId d <> Some id) (documents s) |}.

(** Every ledger row, every keyword link and every linked document
    references an application that exists. *)
Definition referential_integrity (s : Store) : Prop :=
  (forall h, h ∈ status_history s ->
             is_Some (job_applications s !! StatusHistory.jobApplicationId h))
  /\ (forall k, k ∈ application_keywords s ->
                is_Some (job_applications s !! ApplicationKeyword.jobApplicationId k))
  /\ (forall d id, d ∈ documents s ->
                   Document.jobApplicationId d = Some id ->
                   is_Some (job_applications s !! id)).

(** The rows of one application read as a chain: the first one starts
    from [previous], and each next one starts from the status the row
    before it led to. *)
Fixpoint chained (previous : option string) (l : list StatusHistory.t) : Prop :=
  match l with
  | [] => True
  | h :: l' =>
      StatusHistory.fromStatus h = previous
      /\ chained (Some (StatusHistory.toStatus h)) l'
  end.

(** The ledger of every application is a chain that starts from null. *)
Definition ledger_chained (s : Store) : Prop :=
  forall id,
    chained None
      (filter (fun h => StatusHistory.jobApplicationId h = id) (status_history s)).

(** The ledger is well formed: the aggregate and the ledger agree, no row
    lacks its application, and every application's rows are a chain from
    null. *)
Definition ledger_wellformed (s : Store) : Prop :=
  ledger_consistent s /\ referential_integrity s /\ ledger_chained s.

(** No request of the sequence answered 500. *)
Fixpoint never_500 (ops : list (Operation * Faults)) (s : Store) : Prop :=
  match ops with
  | [] => True
  | (op, flt) :: rest =>
      statusCode (perform op flt s).1 <> Some 500%nat
      /\ never_500 rest (perform op flt s).2
  end.

(** What [JobApplication.count({ where })] answers on a table. *)
Definition tally (where_ : JobApplication.t -> bool)
    (m : gmap string JobApplication.t) : Z :=
  Z.of_nat (size (filter (fun kv : string * JobApplication.t =>
                            where_ kv.2 = true) m)).

(** The number of the user's applications. *)
Definition totalCount (userId : string) (s : Store) : Z :=
  Z.of_nat
    (length
       (filter (fun kv : string * JobApplication.t =>
                  JobApplication.userId kv.2 = userId)
               (map_to_list (job_applications s)))).

(** [JobApplication.prototype.getSalaryRange]. [toLocaleString] is
    [Number.prototype.toLocaleString] and [salaryCurrency] the column of
    this name as the template prints it; the result is [None] when the
    method falls off its end and returns undefined. *)
Definition getSalaryRange (toLocaleString : Z -> string) (salaryCurrency : string)
    (this : JobApplication.t) : option string :=
  let salaryMin := JobApplication.salaryMin this in
  let salaryMax := JobApplication.salaryMax this in
  let printed (v : option Z) := toLocaleString (default 0 v) in
  if negb (JS.truthyNumber salaryMin) && negb (JS.truthyNumber salaryMax)
  then Some "Not specified"%string
  else if JS.truthyNumber salaryMin && JS.truthyNumber salaryMax
  then Some (String.append salaryCurrency
               (String.append " "
                  (String.append (printed salaryMin)
                     (String.append " - " (printed salaryMax)))))
  else if JS.truthyNumber salaryMin
  then Some (String.append salaryCurrency
               (String.append " " (String.append (printed salaryMin) "+")))
  else if JS.truthyNumber salaryMax
  then Some (String.append "Up to "
               (String.append salaryCurrency
                  (String.append " " (printed salaryMax))))
  else None.

(** ** The list route (routes/applications.js, GET /) *)

(** [Math.ceil] on a double: the least integer not below [x], with the
    sign of [x] kept on a zero result. *)
Definition Math_ceil (x : float) : float :=
  match Prim2SF x with
  | S754_finite sg m e =>
      if 0 <=? e then x
      else
        let d := 2 ^ (- e) in
        if sg then PrimFloat.opp (Number (Z.pos m / d))
        else Number ((Z.pos m + d - 1) / d)
  | _ => x
  end.

Module Query.
(** [req.query], as far as the model interprets it. A parameter that is
    present is a non-null string; [page] and [limit] are held as the
    integers their digits denote, which the validators make them. The
    model takes them in the range where the arithmetic of the source on
    doubles is exact. *)
Record t := mk {
  status : option string;
  page : option Z;
  limit : option Z
}.
End Query.

(** A request of the list route: [req.user.userId]; the query; the verdict
    of the validators on [priority], [sortBy] and [order]; the conjunction
    of the conditions that [priority], [isStarred], [isArchived] and
    [search] add to the where clause, on columns this model does not
    carry; and the [ORDER BY sortBy order] of the database. *)
Record ListRequest := mkListRequest {
  list_user : string;
  req_query : Query.t;
  otherQueryValid : bool;
  otherConditions : string -> JobApplication.t -> bool;
  orderBy : list (string * JobApplication.t) -> list (string * JobApplication.t)
}.

Record Pagination := mkPagination {
  currentPage : Z;
  totalPages : float;
  totalItems : Z;
  itemsPerPage : Z;
  hasNextPage : bool;
  hasPrevPage : bool
}.

Inductive ListResponse :=
| ListJson (code : nat) (data : option (list ApplicationJson * Pagination)).

(** A route with a response of another shape: the response, if any, and
    the connection as the request leaves it. *)
Definition respond {A} (handler : Async A) (flt : Faults) (s : Store)
  : option A * Conn :=
  match handler flt (connect s) with
  | Resolved r c => (Some r, c)
  | Rejected c => (None, c)
  end.

(** [optional().isInt({ min })] and [optional().isInt({ min, max })]. *)
Definition isInt_min (min : Z) (v : option Z) : bool :=
  match v with
  | Some n => min <=? n
  | None => true
  end.

Definition isInt_min_max (min max : Z) (v : option Z) : bool :=
  match v with
  | Some n => (min <=? n) && (n <=? max)
  | None => true
  end.

Definition list_validators (req : ListRequest) : bool :=
  isIn_status (Some <$> Query.status (req_query req))
  && otherQueryValid req
  && isInt_min 1 (Query.page (req_query req))
  && isInt_min_max 1 100 (Query.limit (req_query req)).

(** [whereConditions]: the requester's rows, of the status asked for when
    one is, that satisfy the other conditions. *)
Definition whereConditions (req : ListRequest) (id : string)
    (a : JobApplication.t) : bool :=
  owned_by (list_user req) a
  && (if JS.truthy (Query.status (req_query req))
      then bool_decide (JobApplication.status a = Query.status (req_query req))
      else true)
  && otherConditions req id a.

(** The rows of the table [where_] holds of. *)
Definition matching (where_ : string -> JobApplication.t -> bool) (s : Store)
  : list (string * JobApplication.t) :=
  filter (fun kv => where_ kv.1 kv.2 = true) (map_to_list (job_applications s)).

Definition with_company (s : Store) (kv : string * JobApplication.t)
  : ApplicationJson :=
  {| application_id := kv.1;
     application := kv.2;
     company := companies s !! JobApplication.companyId kv.2;
     included := None |}.

(** [JobApplication.findAndCountAll({ where, include: [company], order,
    limit, offset })]: the number of rows that match, and the rows of the
    page. *)
Definition JobApplication_findAndCountAll
    (where_ : string -> JobApplication.t -> bool)
    (order : list (string * JobApplication.t) -> list (string * JobApplication.t))
    (limit offset : Z) : Async (Z * list ApplicationJson) :=
  query autocommit (SELECT "job_applications")
    (fun s =>
       Some ((Z.of_nat (length (matching where_ s)),
              with_company s
                <$> take (Z.to_nat limit)
                         (drop (Z.to_nat offset) (order (matching where_ s)))),
             s)).

(** GET /api/applications *)
Definition listApplications (req : ListRequest) : Async ListResponse :=
  try_catch
    (if negb (list_validators req) then ret (ListJson 400 None)
     else
       let page := default 1 (Query.page (req_query req)) in
       let limit := default 20 (Query.limit (req_query req)) in
       let offset := (page - 1) * limit in
       await found <-
         JobApplication_findAndCountAll (whereConditions req) (orderBy req)
                                        limit offset;
       let totalPages :=
         Math_ceil (PrimFloat.div (Number found.1) (Number limit)) in
       ret (ListJson 200
              (Some (found.2,
                     {| currentPage := page;
                        totalPages := totalPages;
                        totalItems := found.1;
                        itemsPerPage := limit;
                        hasNextPage := PrimFloat.ltb (Number page) totalPages;
                        hasPrevPage := page >? 1 |}))))
    (ret (ListJson 500 None)).

(** The rows a response carries. *)
Definition listed (r : option ListResponse) : list ApplicationJson :=
  match r with
  | Some (ListJson _ (Some (rows, _))) => rows
  | _ => []
  end.

(** The same request for another page. *)
Definition at_page (req : ListRequest) (p : Z) : ListRequest :=
  {| list_user := list_user req;
     req_query :=
       Query.mk (Query.status (req_query req)) (Some p)
                (Query.limit (req_query req));
     otherQueryValid := otherQueryValid req;
     otherConditions := otherConditions req;
     orderBy := orderBy req |}.

(** Equality of two doubles as the values they denote. *)
Definition same_double (x y : float) : bool :=
  match Prim2SF x, Prim2SF y with
  | S754_zero s, S754_zero s' => Bool.eqb s s'
  | S754_infinity s, S754_infinity s' => Bool.eqb s s'
  | S754_nan, S754_nan => true
  | S754_finite s m e, S754_finite s' m' e' =>
      Bool.eqb s s' && (m =? m')%positive && (e =? e')
  | _, _ => false
  end.

(** [Math.ceil(count / limit)] is the number of pages
    [(count + limit - 1) / limit], as a double. *)
Definition totalPages_exact (limit count : Z) : bool :=
  same_double (Math_ceil (PrimFloat.div (Number count) (Number limit)))
              (Number ((count + limit - 1) / limit)).

(** [<] on the doubles of two integers is [<] on the integers. *)
Definition less_exact (a b : Z) : bool :=
  Bool.eqb (PrimFloat.ltb (Number a) (Number b)) (a <? b).

Module SampleQuery.

(** The list request of [userId] with no further condition, the rows in
    the order of the table. *)
Definition request (userId : string) (st : option string) (page limit : option Z)
  : ListRequest :=
  {| list_user := userId;
     req_query := Query.mk st page limit;
     otherQueryValid := true;
     otherConditions := fun _ _ => true;
     orderBy := fun l => l |}.

End SampleQuery.

(** ** The auth middleware (middleware/auth.js) *)

Module User.
(** The columns of a user that the middleware reads; the primary key [id]
    is the key of the table. *)
Record t := mk {
  email : string;
  firstName : string;
  lastName : string;
  isActive : bool
}.
End User.

Module ReqUser.
(** [req.user], as the middleware sets it. *)
Record t := mk {
  userId : string;
  email : string;
  firstName : string;
  lastName : string
}.
End ReqUser.

(** What [jwt.verify(token, secret)] does with a token: it returns the
    payload, whose [userId] can be missing, or throws an error that has a
    name. *)
Inductive Verified :=
| Payload (userId : option string)
| Throws (name : string).

(** The middleware calls [next()], or answers itself. *)
Inductive AuthOutcome :=
| Next (user : ReqUser.t)
| Denied (code : nat) (message : string).

(** [s.startsWith(prefix)] and [s.substring(n)]. *)
Definition startsWith (s prefix : string) : bool := String.prefix prefix s.

Definition substring_from (n : nat) (s : string) : string :=
  String.substring n (String.length s - n)%nat s.

(** The [catch] of the middleware, on an error with the name [name]. *)
Definition auth_catch (name : string) : AuthOutcome :=
  if String.eqb name "JsonWebTokenError"
  then Denied 401 "Invalid token, authorization denied"
  else if String.eqb name "TokenExpiredError"
  then Denied 401 "Token expired, authorization denied"
  else Denied 500 "Server error in authentication".

(** The middleware, on the [Authorization] header of the request.
    [verify] is [jwt.verify] with the secret of the server, [users] the
    table of users, and [rejects] tells whether [User.findByPk] rejects,
    which it does with an error of Sequelize. A payload without [userId]
    finds no user. *)
Definition auth (verify : string -> Verified) (users : gmap string User.t)
    (rejects : bool) (authHeader : option string) : AuthOutcome :=
  match authHeader with
  | Some header =>
      if negb (JS.truthy (Some header)) || negb (startsWith header "Bearer ")
      then Denied 401 "No token provided, authorization denied"
      else
        let token := substring_from 7 header in
        match verify token with
        | Throws name => auth_catch name
        | Payload decoded_userId =>
            if rejects then auth_catch "SequelizeDatabaseError"
            else
              match decoded_userId ≫= (fun id => (fun u => (id, u)) <$> users !! id) with
              | None => Denied 401 "User not found, authorization denied"
              | Some (id, user) =>
                  if negb (User.isActive user)
                  then Denied 401 "Account deactivated, authorization denied"
                  else Next {| ReqUser.userId := id;
                               ReqUser.email := User.email user;
                               ReqUser.firstName := User.firstName user;
                               ReqUser.lastName := User.lastName user |}
              end
        end
  | None => Denied 401 "No token provided, authorization denied"
  end.

Module SampleAuth.

(** One active and one deactivated user, and a [verify] that knows the
    token of each. *)
Definition users : gmap string User.t :=
  {[ Sample.alice := User.mk "alice@example.org" "Alice" "A" true;
     Sample.bob := User.mk "bob@example.org" "Bob" "B" false ]}.

Definition verify (token : string) : Verified :=
  if String.eqb token "t-alice" then Payload (Some Sample.alice)
  else if String.eqb token "t-bob" then Payload (Some Sample.bob)
  else if String.eqb token "t-old" then Throws "TokenExpiredError"
  else Throws "JsonWebTokenError".

End SampleAuth.

(** ** The document routes (routes/documents.js, models/Document.js) *)

Module DocumentRoutes.

(** A row of the table [documents]: the primary key, the columns of
    [Document.t] and the column [filePath]. *)
Record Stored := mkStored {
  id : string;
  document : Document.t;
  filePath : string
}.

(** The table in insertion order, which is the order of [createdAt], and
    the files of the upload directory. *)
Record State := mkState {
  table : list Stored;
  files : gset string
}.

(** [req.file], as multer leaves it: the file is stored under [path]
    before the handler runs. *)
Record File := mkFile {
  originalname : string;
  mimetype : string;
  path : string
}.

Module Values.
(** The values of the columns that are [allowNull: false] and have no
    default, as a call of [Document.create] gives them; a key that the
    call does not name is undefined. *)
Record t := mk {
  userId : option string;
  name : option string;
  type : option string;
  filePath : option string;
  fileName : option string;
  fileSize : option Z;
  mimeType : option string
}.
End Values.

Definition typeValues : list string :=
  [ "Resume"; "Cover Letter"; "Portfolio"; "Transcript"; "Certificate";
    "Reference Letter"; "Writing Sample"; "Code Sample"; "Other" ]%string.

Record UploadRequest := mkUploadRequest {
  upload_user : string;
  file : option File;
  body_name : option string;
  body_type : option string
}.

Record DeleteRequest := mkDeleteRequest {
  delete_user : string;
  delete_id : string
}.

Inductive Response :=
| Json (code : nat) (documents : list Stored).

(** [fs.existsSync] on a path or undefined, and [fs.unlinkSync]. *)
Definition existsSync (st : State) (p : option string) : bool :=
  match p with
  | Some p => bool_decide (p ∈ files st)
  | None => false
  end.

Definition unlinkSync (st : State) (p : string) : State :=
  {| table := table st; files := files st ∖ {[ p ]} |}.

Section Routes.

(** The validators [notEmpty] and [len: [1, 100]] of the column [name]. *)
Variable validName : string -> bool.

(** [Document.create(values)]: the table with the new row, or [None] when
    the call rejects: on a column that must not be null and is undefined,
    on a validator, on a primary key that exists, or when the database
    rejects the INSERT. *)
Definition Document_create (rejects : bool) (uuid : string) (values : Values.t)
    (st : State) : option (Stored * State) :=
  match Values.userId values, Values.name values, Values.type values,
        Values.filePath values, Values.fileName values, Values.fileSize values,
        Values.mimeType values with
  | Some userId, Some name, Some type, Some filePath, Some _, Some fileSize,
    Some _ =>
      if validName name && JS.includes typeValues type && (0 <=? fileSize)
         && negb (bool_decide (uuid ∈ id <$> table st)) && negb rejects
      then
        let stored :=
          {| id := uuid;
             document := Document.mk userId None name true;
             filePath := filePath |} in
        Some (stored, {| table := table st ++ [stored]; files := files st |})
      else None
  | _, _, _, _, _, _, _ => None
  end.

(** POST /api/documents/upload. The handler names the keys [filename],
    [originalName], [size] and [path], which are no columns of the model;
    the columns [filePath], [fileName] and [fileSize] get no value.
    [unlinkThrows] tells whether [fs.unlinkSync] throws; thrown from the
    [catch], the error leaves the request without a response. *)
Definition upload (uuid : string) (rejects unlinkThrows : bool)
    (req : UploadRequest) (st : State) : option Response * State :=
  match file req with
  | None => (Some (Json 400 []), st)
  | Some f =>
      let values :=
        {| Values.userId := Some (upload_user req);
           Values.name :=
             Some (if JS.truthy (body_name req)
                   then default (originalname f) (body_name req)
                   else originalname f);
           Values.type := Some (default "Other"%string (body_type req));
           Values.filePath := None;
           Values.fileName := None;
           Values.fileSize := None;
           Values.mimeType := Some (mimetype f) |} in
      match Document_create rejects uuid values st with
      | Some (stored, st') => (Some (Json 201 [stored]), st')
      | None =>
          if existsSync st (Some (path f)) then
            if unlinkThrows then (None, st)
            else (Some (Json 500 []), unlinkSync st (path f))
          else (Some (Json 500 []), st)
      end
  end.

End Routes.

(** [Document.findOne({ where: { id, userId } })] *)
Definition Document_findOne (id_ userId : string) (st : State) : option Stored :=
  head (filter (fun d => id d = id_ /\ Document.userId (document d) = userId)
               (table st)).

Definition deactivate (d : Stored) : Stored :=
  {| id := id d;
     document :=
       Document.mk (Document.userId (document d))
                   (Document.jobApplicationId (document d))
                   (Document.name (document d)) false;
     filePath := filePath d |}.

(** [document.update({ isActive: false })] on the row with this primary
    key. *)
Definition Document_deactivate (id_ : string) (st : State) : State :=
  {| table := (fun d => if bool_decide (id d = id_) then deactivate d else d)
                <$> table st;
     files := files st |}.

(** GET /api/documents: the requester's active documents, the newest
    first. *)
Definition listDocuments (flt : Faults) (userId : string) (st : State)
  : Response :=
  if flt 0%nat then Json 500 []
  else
    Json 200
      (reverse
         (filter (fun d => Document.userId (document d) = userId
                           /\ Document.isActive (document d) = true)
                 (table st))).

(** DELETE /api/documents/:id. The handler reads [document.path], which
    is no column of the model and so is undefined. *)
Definition deleteDocument (flt : Faults) (unlinkThrows : bool)
    (req : DeleteRequest) (st : State) : Response * State :=
  if flt 0%nat then (Json 500 [], st)
  else
    match Document_findOne (delete_id req) (delete_user req) st with
    | None => (Json 404 [], st)
    | Some found =>
        if flt 1%nat then (Json 500 [], st)
        else
          let st' := Document_deactivate (id found) st in
          let document_path : option string := None in
          match document_path with
          | Some p =>
              if existsSync st' (Some p) then
                if unlinkThrows then (Json 500 [], st')
                else (Json 200 [], unlinkSync st' p)
              else (Json 200 [], st')
          | None => (Json 200 [], st')   (* existsSync(undefined) is false *)
          end
    end.

Definition code (r : Response) : nat :=
  match r with
  | Json c _ => c
  end.

Definition listed (r : Response) : list Stored :=
  match r with
  | Json _ l => l
  end.

(** The primary key is unique. *)
Definition keyed (st : State) : Prop := NoDup (id <$> table st).

End DocumentRoutes.

Module SampleDocuments.
Import DocumentRoutes.

Definition state : State :=
  {| table :=
       [ mkStored "d1" (Document.mk Sample.alice None "resume" true) "uploads/f1";
         mkStored "d2" (Document.mk Sample.bob None "portfolio" true) "uploads/f2" ];
     files := {[ "uploads/f1"%string; "uploads/f2"%string ]} |}.

End SampleDocuments.

(** ** Skill gaps (models/ApplicationKeyword.js) *)

(** The double of an integer of either sign. The INTEGER columns are 32
    bits wide, so the conversion is exact. *)
Definition toNumber (n : Z) : float :=
  if n <? 0 then PrimFloat.opp (Number (- n)) else Number n.

(** [Math.min] on two doubles: NaN if either is, and -0 below +0. *)
Definition Math_min (x y : float) : float :=
  if PrimFloat.is_nan x || PrimFloat.is_nan y then nan
  else if PrimFloat.ltb x y then x
  else if PrimFloat.ltb y x then y
  else if PrimFloat.is_zero x && PrimFloat.get_sign x then x
  else y.

(** [Math.round]: the integer nearest to [x], the larger one of two, with
    the sign of [x] kept on a zero result: floor (x + 1/2). *)
Definition Math_round (x : float) : float :=
  match Prim2SF x with
  | S754_finite sg m e =>
      if 0 <=? e then x
      else
        let d := 2 ^ (- e) in
        let k := ((if sg then - (2 * Z.pos m) else 2 * Z.pos m) + d) / (2 * d) in
        if k =? 0 then (if sg then PrimFloat.opp 0 else 0)%float
        else toNumber k
  | _ => x
  end.

Module KeywordMatch.

(** The columns of an application keyword that the gap score reads.
    Every one of them is nullable, except the two flags, which the
    methods only test for truth. *)
Record t := mk {
  isRequired : bool;
  isPreferred : bool;
  skillLevel : option string;
  yearsRequired : option Z;
  userSkillLevel : option string;
  userYearsExperience : option Z;
  gapScore : float
}.

(** The values of the ENUM columns [skillLevel] and [userSkillLevel]. *)
Definition skillLevelValues : list string :=
  [ "Beginner"; "Intermediate"; "Advanced"; "Expert"; "Not Specified" ]%string.

Definition userSkillLevelValues : list string :=
  [ "Beginner"; "Intermediate"; "Advanced"; "Expert"; "None" ]%string.

Definition skillLevels : list string :=
  [ "None"; "Beginner"; "Intermediate"; "Advanced"; "Expert" ]%string.

(** [skillLevels.indexOf(v)] for a string or null. *)
Definition indexOf_level (v : option string) : Z :=
  match v with
  | Some s => JS.indexOf skillLevels s
  | None => -1
  end.

(** The first chain of conditions: the gap that the levels and the years
    of experience show, before the levels are compared. A null number of
    years counts as 0 in the comparisons and in the difference. *)
Definition experienceGap (this : t) : float :=
  let years := default 0 (yearsRequired this) in
  let userYears := default 0 (userYearsExperience this) in
  if isRequired this && bool_decide (userSkillLevel this = Some "None"%string)
  then 5%float
  else if JS.truthyNumber (yearsRequired this) && (userYears <? years)
  then Math_min (PrimFloat.mul (toNumber (years - userYears)) 0.5%float) 3%float
  else if JS.truthyNumber (yearsRequired this) && (userYears >? years)
  then (-0.5)%float
  else 0%float.

(** The adjustment by the comparison of the two levels; 0.2 is the double
    nearest to it. *)
Definition levelAdjusted (this : t) (gapScore : float) : float :=
  let requiredIndex := indexOf_level (skillLevel this) in
  let userIndex := indexOf_level (userSkillLevel this) in
  if requiredIndex >? userIndex
  then PrimFloat.add gapScore
         (PrimFloat.mul (toNumber (requiredIndex - userIndex)) 0.5%float)
  else if userIndex >? requiredIndex
  then PrimFloat.sub gapScore
         (PrimFloat.mul (toNumber (userIndex - requiredIndex))
                        0x1.999999999999ap-3%float)
  else gapScore.

Definition with_gapScore (this : t) (g : float) : t :=
  {| isRequired := isRequired this;
     isPreferred := isPreferred this;
     skillLevel := skillLevel this;
     yearsRequired := yearsRequired this;
     userSkillLevel := userSkillLevel this;
     userYearsExperience := userYearsExperience this;
     gapScore := g |}.

(** [ApplicationKeyword.prototype.calculateGapScore] *)
Definition calculateGapScore (this : t) : t :=
  if negb (isRequired this) && negb (isPreferred this)
  then with_gapScore this 0%float
  else
    let gapScore := levelAdjusted this (experienceGap this) in
    with_gapScore this
      (PrimFloat.div (Math_round (PrimFloat.mul gapScore 100%float)) 100%float).

(** [isSkillGap] and [isStrength] *)
Definition isSkillGap (this : t) : bool := PrimFloat.ltb 0%float (gapScore this).

Definition isStrength (this : t) : bool := PrimFloat.ltb (gapScore this) 0%float.

(** The user has the years asked for, and the level asked for or a
    higher one. *)
Definition meetsYears (this : t) : bool :=
  negb (JS.truthyNumber (yearsRequired this))
  || (default 0 (yearsRequired this) <=? default 0 (userYearsExperience this)).

Definition meetsRequirement (this : t) : bool :=
  (indexOf_level (skillLevel this) <=? indexOf_level (userSkillLevel this))
  && meetsYears this.

(** A required skill that the user has not at all. *)
Definition requiredAndMissing (this : t) : bool :=
  isRequired this && bool_decide (userSkillLevel this = Some "None"%string).

(** The values the columns can hold: a level of the enumeration or null,
    and a number of years up to 50 or null. *)
Definition skillLevelColumn : list (option string) :=
  None :: (Some <$> skillLevelValues).

Definition userSkillLevelColumn : list (option string) :=
  None :: (Some <$> userSkillLevelValues).

Definition yearsColumn : list (option Z) := None :: (Some <$> seqZ 0 51).

(** The score fits the column DECIMAL(3, 2) with room to spare. *)
Definition in_range (g : float) : bool :=
  PrimFloat.leb (-1.5)%float g && PrimFloat.leb g 7%float.

(** The gaps the first chain of conditions produces: 5 for a required
    skill that is missing, nothing above 0 when the years are there, and
    half a point per missing year up to 3 otherwise. *)
Definition experienceGap_expected (this : t) : bool :=
  let g := experienceGap this in
  if requiredAndMissing this then same_double g 5%float
  else if meetsYears this then existsb (same_double g) [ (-0.5)%float; 0%float ]
  else existsb (same_double g) [ 0.5; 1; 1.5; 2; 2.5; 3 ]%float.

(** The rounded score for the levels of [this], from the gap [g]. *)
Definition rounded (this : t) (g : float) : float :=
  PrimFloat.div (Math_round (PrimFloat.mul (levelAdjusted this g) 100%float))
                100%float.

(** For two levels: every gap of the first chain (5 only for the level
    "None") gives a score in range, and with the level asked for, a gap of 0
    or below gives no score above 0. *)
Definition levels_expected (skillLevel userSkillLevel : option string) : bool :=
  let this := mk false false skillLevel None userSkillLevel None 0%float in
  forallb (fun g => in_range (rounded this g))
          [ 0.5; 1; 1.5; 2; 2.5; 3; -0.5; 0 ]%float
  && (if bool_decide (userSkillLevel = Some "None"%string)
      then in_range (rounded this 5%float) else true)
  && (if indexOf_level skillLevel <=? indexOf_level userSkillLevel
      then forallb (fun g => negb (PrimFloat.ltb 0%float (rounded this g)))
                   [ (-0.5)%float; 0%float ]
      else true).

End KeywordMatch.

(** ** Keywords (models/Keyword.js) *)

Module Keyword.

(** The columns the methods below read or write. The column [word] is
    unique, and is the key of the table. *)
Record t := mk {
  category : string;
  frequency : Z;
  synonyms : list string
}.

Definition categoryValues : list string :=
  [ "Technical Skill"; "Soft Skill"; "Programming Language"; "Framework";
    "Tool"; "Certification"; "Industry"; "Role"; "Other" ]%string.

Abbreviation Table := (gmap string t).

(** An entry of the array that [bulkCreateKeywords] is given. *)
Record Data := mkData {
  word : string;
  data_category : option string
}.

(** How a call settles: resolved with the words of the rows it returns,
    or rejected; both with the table as the calls so far left it. *)
Inductive Bulk :=
| Done (results : list string) (table : Table)
| Failed (table : Table).

Section Methods.

(** [String.prototype.toLowerCase], and the validators [notEmpty] and
    [len: [1, 100]] of the column [word]. *)
Variable toLowerCase : string -> string.
Variable validWord : string -> bool.

Definition with_synonyms (this : t) (l : list string) : t :=
  {| category := category this; frequency := frequency this; synonyms := l |}.

(** [Keyword.prototype.addSynonym]: [None] when the update rejects. A
    synonym that is there already resolves without an update. *)
Definition addSynonym (rejects : bool) (this : t) (synonym : string) : option t :=
  let synonyms := synonyms this in
  if negb (JS.includes synonyms (toLowerCase synonym)) then
    if rejects then None
    else Some (with_synonyms this (synonyms ++ [toLowerCase synonym]))
  else Some this.

(** [Keyword.prototype.removeSynonym] *)
Definition removeSynonym (rejects : bool) (this : t) (synonym : string) : option t :=
  let synonyms :=
    filter (fun s => s <> toLowerCase synonym) (synonyms this) in
  if rejects then None else Some (with_synonyms this synonyms).

(** [Keyword.createOrUpdate(word, category)]: the table and the number of
    statements issued when it resolves, [None] when it rejects, which
    leaves the table as it was. [findOrCreate] validates the row it
    inserts; the increment is a statement of its own. *)
Definition createOrUpdate (flt : Faults) (issued : nat) (table : Table)
    (word category : string) : option (Table * nat) :=
  let key := toLowerCase word in
  if flt issued then None
  else
    match table !! key with
    | None =>
        if validWord key && JS.includes categoryValues category
        then Some (<[key := mk category 1 []]> table, S issued)
        else None
    | Some keyword =>
        if flt (S issued) then None
        else
          Some (<[key := mk (Keyword.category keyword)
                            (frequency keyword + 1)
                            (synonyms keyword)]> table,
                S (S issued))
    end.

(** [Keyword.bulkCreateKeywords(keywords)]: one [createOrUpdate] after the
    other; the first rejection ends the loop. *)
Fixpoint bulkCreateKeywords_from (flt : Faults) (issued : nat) (table : Table)
    (results : list string) (keywords : list Data) : Bulk :=
  match keywords with
  | [] => Done results table
  | keywordData :: rest =>
      match createOrUpdate flt issued table (word keywordData)
              (if JS.truthy (data_category keywordData)
               then default "Other"%string (data_category keywordData)
               else "Other"%string) with
      | Some (table', issued') =>
          bulkCreateKeywords_from flt issued' table'
            (results ++ [toLowerCase (word keywordData)]) rest
      | None => Failed table
      end
  end.

Definition bulkCreateKeywords (flt : Faults) (table : Table)
    (keywords : list Data) : Bulk :=
  bulkCreateKeywords_from flt 0 table [] keywords.

(** How often the word [w] is named by the entries, whatever the case of
    the letters. *)
Definition occurrences (w : string) (keywords : list Data) : Z :=
  Z.of_nat (length (filter (fun d => toLowerCase (word d) = w) keywords)).

(** The frequency of a word, 0 when the table has no row for it. *)
Definition frequency_of (table : Table) (w : string) : Z :=
  match table !! w with
  | Some k => frequency k
  | None => 0
  end.

(** The law of the frequencies between two tables, for the entries
    [keywords]: every frequency has grown by the number of entries that
    name the word, and the rows that were there keep their category and
    their synonyms. *)
Definition counted (table table' : Table) (keywords : list Data) : Prop :=
  (forall w, frequency_of table' w
             = frequency_of table w + occurrences w keywords)
  /\ (forall x row, table !! x = Some row ->
        exists row', table' !! x = Some row'
                     /\ Keyword.category row' = Keyword.category row
                     /\ synonyms row' = synonyms row).

End Methods.

End Keyword.

Module SampleKeyword.

(** Lower case on the letters A to Z, which leaves every other character
    as it is. *)
Definition lower_ascii (c : Ascii.ascii) : Ascii.ascii :=
  let n := Ascii.N_of_ascii c in
  if ((65 <=? n) && (n <=? 90))%N then Ascii.ascii_of_N (n + 32) else c.

Fixpoint toLowerCase (s : string) : string :=
  match s with
  | EmptyString => EmptyString
  | String c s' => String (lower_ascii c) (toLowerCase s')
  end.

Definition validWord (s : string) : bool :=
  negb (String.eqb s "") && (String.length s <=? 100)%nat.

Definition table : Keyword.Table :=
  {[ "react"%string := Keyword.mk "Framework" 4 [ "reactjs"%string ] ]}.

End SampleKeyword.

(** ** The status of the application form (pages/ApplicationFormPage) *)

Module StatusForm.

(** The values of the form's [status] field (the zod enumeration). *)
Definition formStatuses : list string :=
  [ "interested"; "applied"; "phone_screening"; "technical_interview";
    "final_interview"; "offer_extended"; "offer_accepted"; "rejected";
    "withdrawn" ]%string.

(** The two object literals, as their own properties in source order.
    The keys looked up are values of the status column or of the form
    field, none of which names a property that an object inherits. *)
Definition backendToFrontendStatus : list (string * string) :=
  [ ("Interested", "interested"); ("Applied", "applied");
    ("Phone Screening", "phone_screening");
    ("Technical Interview", "technical_interview");
    ("Final Interview", "final_interview");
    ("Offer Extended", "offer_extended");
    ("Offer Accepted", "offer_accepted");
    ("Rejected", "rejected"); ("Withdrawn", "withdrawn") ]%string.

Definition statusMap : list (string * string) :=
  [ ("interested", "Interested"); ("applied", "Applied");
    ("phone_screening", "Phone Screening");
    ("technical_interview", "Technical Interview");
    ("final_interview", "Final Interview");
    ("offer_extended", "Offer Extended");
    ("offer_accepted", "Offer Accepted");
    ("rejected", "Rejected"); ("withdrawn", "Withdrawn") ]%string.

(** [object[key]]: the value of the property, or undefined. *)
Fixpoint property (object : list (string * string)) (key : string)
  : option string :=
  match object with
  | [] => None
  | (k, v) :: rest => if String.eqb k key then Some v else property rest key
  end.

(** [v || fallback] on a string or undefined. *)
Definition or_string (v : option string) (fallback : string) : string :=
  if JS.truthy v then default fallback v else fallback.

(** The status the form shows for an application:
    [backendToFrontendStatus[app.status] || 'applied']; a null status is
    looked up as the key "null". *)
Definition shownStatus (app_status : option string) : string :=
  or_string (property backendToFrontendStatus (default "null"%string app_status))
            "applied".

(** The status the form submits: [statusMap[data.status] || 'Applied']. *)
Definition submittedStatus (data_status : string) : string :=
  or_string (property statusMap data_status) "Applied".

(** The statuses of the enumeration that the form has no value for. *)
Definition unknownToForm : list string :=
  [ "Application Viewed"; "On-site Interview"; "Reference Check";
    "Offer Declined"; "On Hold" ]%string.

End StatusForm.

(** ** Tactics *)

(** Unfolds a handler down to the oracle's answers and the lookups. *)
Ltac run_handler :=
  unfold serve, getApplication, createApplication, updateApplication,
    deleteApplication, getOverviewStats, try_catch, bind, ret, transaction, commit,
    rollback, Company_findByPk, JobApplication_findOne,
    JobApplication_findOne_included, JobApplication_findByPk,
    JobApplication_create, JobApplication_update, JobApplication_destroy,
    StatusHistory_create, StatusHistory_destroy, ApplicationKeyword_destroy,
    Document_destroy, JobApplication_count, JobApplication_select_uninterpreted,
    query, connect;
  cbn [committed pending issued length app visible default fst snd].

(** Evaluates the run [H] as far as the answers known so far allow. *)
Ltac norm H :=
  cbn [negb andb committed pending issued length app visible default fst snd] in H.

(** The same for the runs of the goal. *)
Ltac sim :=
  cbn [negb andb committed pending issued length app visible default fst snd].

(** The committed state of the goal, field by field. *)
Ltac settle :=
  cbn [visible committed pending companies job_applications status_history
       application_keywords documents].

(** The next answer of the oracle in the run [H]. *)
Ltac step H :=
  let F := fresh "F" in
  cbn [committed pending issued length app visible default fst snd] in H;
  match type of H with
  | context [if ?f ?n then _ else _] => destruct (f n) eqn:F
  end;
  cbn [committed pending issued length app visible default fst snd] in H.

(** A rejected statement contradicts the hypothesis that none is. *)
Ltac oracle_contra :=
  match goal with
  | F : ?f ?n = true |- _ =>
      match goal with
      | Hall : _ |- _ => rewrite Hall in F by lia; discriminate
      end
  end.

(** Closes the cases of DELETE in which the request did not answer 200 and
    the committed state is the old one. *)
Ltac no200 :=
  split_and!;
  [ intros ?; split_and!; try done; intros; congruence
  | intros ?; right; split; done
  | intros ? ?; oracle_contra ].

(** Case analysis on a variable known to be in a literal list. *)
Ltac each_member H :=
  repeat (apply elem_of_cons in H as [H|H]; [subst|]);
  [..|by apply elem_of_nil in H].

(** Membership of a literal in a literal list, by evaluation. *)
Ltac by_lookup :=
  first [ apply (bool_decide_eq_true_1 _); vm_compute; reflexivity
        | apply (bool_decide_eq_false_1 _); vm_compute; reflexivity ].

(** Unfolds the list route down to the oracle's answer. *)
Ltac run_list :=
  unfold respond, listApplications, JobApplication_findAndCountAll, try_catch,
    bind, ret, query, connect;
  cbn [committed pending issued length app visible default fst snd].

(** * Properties *)

(** ** Array methods *)

Section ArrayMethods.

Lemma includes_elem_of (l : list string) (x : string) :
  JS.includes l x = true <-> x ∈ l.
Proof.
  unfold JS.includes. rewrite existsb_exists. split.
  - intros (y & Hy & Heq). apply String.eqb_eq in Heq. subst y.
    by apply list_elem_of_In.
  - intros Hx. exists x. split; [by apply list_elem_of_In | apply String.eqb_refl].
Qed.

Lemma includes_false (l : list string) (x : string) :
  JS.includes l x = false <-> x ∉ l.
Proof.
  rewrite <- includes_elem_of. destruct (JS.includes l x); split; congruence.
Qed.

Lemma indexOf_range (l : list string) (x : string) :
  JS.indexOf l x = -1 \/ 0 <= JS.indexOf l x.
Proof.
  induction l as [|y l IH]; simpl; [by left|].
  destruct (String.eqb y x); [right; lia|].
  destruct (Z.ltb_spec (JS.indexOf l x) 0); [by left | right; lia].
Qed.

Lemma indexOf_found (l : list string) (x : string) :
  0 <= JS.indexOf l x <-> x ∈ l.
Proof.
  induction l as [|y l IH]; simpl.
  - split; [lia | by intros ?%elem_of_nil].
  - destruct (String.eqb_spec y x) as [->|Hne].
    + split; [intros _; apply elem_of_cons; by left | lia].
    + rewrite elem_of_cons.
      destruct (Z.ltb_spec (JS.indexOf l x) 0) as [Hlt|Hge].
      * split; [lia|]. intros [->|Hin]; [done|]. apply IH in Hin. lia.
      * split; [intros _; right; apply IH; lia | lia].
Qed.

Lemma indexOf_absent (l : list string) (x : string) :
  x ∉ l -> JS.indexOf l x = -1.
Proof.
  intros Hx. destruct (indexOf_range l x) as [H|H]; [done|].
  by apply indexOf_found in H.
Qed.

End ArrayMethods.

(** ** Classification of a transition *)

Module Classification.
Import StatusHistory.

Lemma off_progression_absent (f : string) :
  f ∈ offProgression -> (f ∉ statusProgression) /\ JS.truthy (Some f) = true.
Proof.
  intros H. unfold offProgression in H.
  each_member H; (split; [by_lookup | reflexivity]).
Qed.

Lemma negative_or_neutral_absent (to : string) :
  to ∈ (negativeStatuses ++ neutralStatuses) -> to ∉ statusProgression.
Proof.
  intros H. unfold negativeStatuses, neutralStatuses in H. simpl in H.
  each_member H; by_lookup.
Qed.

(** C6, refuted as stated: the row of an initial creation into "Rejected"
    has a null [fromStatus] and is not positive, because the test of
    [toStatus] against the negative statuses comes first. *)
Lemma initial_rejected_not_positive :
  ~ (forall h : StatusHistory.t,
       fromStatus h = None -> toStatus h ∈ statusValues ->
       isPositiveChange h = true).
Proof.
  intros H.
  specialize (H (StatusHistory.mk "a1" None "Rejected" "User" None) eq_refl).
  simpl in H. discriminate H. by_lookup.
Qed.

(** C6, amended: a row whose [fromStatus] is null is positive for each of
    the ten statuses of the progression list, and not positive for
    Rejected, Withdrawn, Offer Declined and On Hold. *)
Theorem initial_positive_unless_negative_or_neutral (h : StatusHistory.t) :
  fromStatus h = None ->
  (toStatus h ∈ statusProgression -> isPositiveChange h = true)
  /\ (toStatus h ∈ (negativeStatuses ++ neutralStatuses) ->
      isPositiveChange h = false).
Proof.
  intros Hfrom. unfold isPositiveChange. rewrite Hfrom. simpl JS.truthy.
  destruct h as [app from to who note]; simpl in *.
  split; intros Hto.
  - unfold statusProgression in Hto. each_member Hto; reflexivity.
  - unfold negativeStatuses, neutralStatuses in Hto. simpl in Hto.
    each_member Hto; reflexivity.
Qed.

Lemma initial_positive_unless_negative_or_neutral_witness :
  isPositiveChange (StatusHistory.mk "a1" None "Applied" "User" None) = true.
Proof.
  refine (proj1 (initial_positive_unless_negative_or_neutral
                   (StatusHistory.mk "a1" None "Applied" "User" None) eq_refl) _).
  by_lookup.
Defined.

(** C7, refuted as stated: from "Rejected" to "Applied" [indexOf] gives -1
    for [fromStatus] and 1 for [toStatus], so the row is positive. *)
Lemma reopened_application_is_positive :
  ~ (forall (h : StatusHistory.t) (f : string),
       fromStatus h = Some f -> f ∈ offProgression ->
       isPositiveChange h = false).
Proof.
  intros H.
  specialize (H (StatusHistory.mk "a1" (Some "Rejected"%string) "Applied" "User" None)
                "Rejected"%string eq_refl).
  simpl in H. discriminate H. by_lookup.
Qed.

(** C7, amended: when [fromStatus] is Rejected, Withdrawn, Offer Declined or
    On Hold, the row is positive exactly when [toStatus] is in the
    progression list (whatever string [toStatus] is). *)
Theorem off_progression_positive_iff (h : StatusHistory.t) (f : string) :
  fromStatus h = Some f -> f ∈ offProgression ->
  (isPositiveChange h = true <-> toStatus h ∈ statusProgression).
Proof.
  intros Hfrom Hf.
  destruct (off_progression_absent f Hf) as [Habs Htruthy].
  unfold isPositiveChange. rewrite Hfrom, Htruthy. simpl negb. simpl default.
  rewrite (indexOf_absent _ _ Habs).
  destruct (JS.includes negativeStatuses (toStatus h)) eqn:Hneg.
  { apply includes_elem_of in Hneg. split; [done|]. intros Hin.
    exfalso. eapply negative_or_neutral_absent; [|exact Hin].
    apply elem_of_app. by left. }
  destruct (JS.includes neutralStatuses (toStatus h)) eqn:Hneu.
  { apply includes_elem_of in Hneu. split; [done|]. intros Hin.
    exfalso. eapply negative_or_neutral_absent; [|exact Hin].
    apply elem_of_app. by right. }
  rewrite <- indexOf_found. rewrite Z.gtb_ltb, Z.ltb_lt. lia.
Qed.

Lemma off_progression_positive_iff_witness :
  isPositiveChange
    (StatusHistory.mk "a1" (Some "On Hold"%string) "Phone Screening" "User" None)
  = true.
Proof.
  refine (proj2 (off_progression_positive_iff
                   (StatusHistory.mk "a1" (Some "On Hold"%string)
                      "Phone Screening" "User" None)
                   "On Hold"%string eq_refl _) _).
  - by_lookup.
  - by_lookup.
Defined.

End Classification.

(** ** Cascade deletion *)

Section CascadeDeletion.

Variables (req : Request) (flt : Faults) (s : Store).

Let id := params_id req.

(** C4. DELETE /:id answers 404 and changes nothing when no application
    with this id belongs to the requester. Otherwise it either answers 200,
    and then the committed state is the old one without the ledger rows,
    the keyword links and the documents that reference the id, and without
    the application row, the statements having been issued children first
    inside one transaction; or it answers something else and the committed
    state is the old one. Companies and the documents not linked to the id
    are the same in every case. With no rejected statement the answer is
    200. *)
Theorem deleteApplication_all_or_nothing (r : Response) (c : Conn) :
  serve (deleteApplication req) flt s = (r, c) ->
  (lookup_owned s id (user req) = None ->
     visible c = s /\ statusCode r <> Some 200%nat
     /\ (flt 0%nat = false -> flt 1%nat = false -> flt 2%nat = false ->
         r = Json 404 NoData))
  /\ (is_Some (lookup_owned s id (user req)) ->
      (r = Json 200 NoData
       /\ visible c =
            {| companies := companies s;
               job_applications := delete id (job_applications s);
               status_history :=
                 filter (fun h => StatusHistory.jobApplicationId h <> id)
                        (status_history s);
               application_keywords :=
                 filter (fun k => ApplicationKeyword.jobApplicationId k <> id)
                        (application_keywords s);
               documents :=
                 filter (fun d => Document.jobApplicationId d <> Some id)
                        (documents s) |}
       /\ issued c =
            [ BEGIN; SELECT "job_applications"; DELETE_status_history id;
              DELETE_application_keywords id; DELETE_documents id;
              DELETE_job_application id; COMMIT ])
      \/ (statusCode r <> Some 200%nat /\ visible c = s))
  /\ (is_Some (lookup_owned s id (user req)) ->
      (forall k, (k < 7)%nat -> flt k = false) ->
      r = Json 200 NoData).
Proof.
  subst id. run_handler. intros Hrun.
  step Hrun.
  { simplify_eq. settle. no200. }
  step Hrun.
  { try step Hrun; simplify_eq; settle; no200. }
  destruct (lookup_owned s (params_id req) (user req)) eqn:Hl.
  - do 5 (step Hrun; [try step Hrun; simplify_eq; settle; no200|]).
    simplify_eq. settle. cbn [issued].
    split_and!; [done | intros _; left; done | done].
  - step Hrun. { try step Hrun; simplify_eq; settle; no200. }
    simplify_eq. settle.
    split_and!; [intros _; split_and!; done | by intros [? ?] | by intros [? ?]].
Qed.

End CascadeDeletion.

Lemma deleteApplication_all_or_nothing_witness :
  let run := serve (deleteApplication (Sample.request Sample.alice "a1" Sample.emptyBody))
                   noFaults Sample.tracked in
  run.1 = Json 200 NoData
  /\ map_to_list (job_applications (visible run.2))
     = [ ("a2"%string,
          JobApplication.mk Sample.bob Sample.acme (Some "Applied"%string) None None) ]
  /\ length (status_history (visible run.2)) = 2%nat
  /\ length (documents (visible run.2)) = 2%nat.
Proof.
  pose proof (deleteApplication_all_or_nothing
                (Sample.request Sample.alice "a1" Sample.emptyBody) noFaults
                Sample.tracked _ _ (surjective_pairing _)) as (_ & _ & H200).
  intros run. subst run. rewrite H200; [| by vm_compute; eauto | done].
  vm_compute. done.
Defined.


(** ** Status transitions on update *)

Lemma status_value_truthy (st : string) :
  JS.includes statusValues st = true -> JS.truthy (Some st) = true.
Proof.
  intros H. apply includes_elem_of in H. unfold statusValues in H.
  each_member H; reflexivity.
Qed.

Section UpdateLedger.

Variables (req : Request) (flt : Faults) (s : Store).

Let id := params_id req.

(** The ledger row PUT writes for a transition of [a] to [new]. *)
Let transition (a : JobApplication.t) (new : string) : StatusHistory.t :=
  StatusHistory.mk id (JobApplication.status a) new "User"
    (if JS.truthy (Body.statusNotes (body req))
     then Body.statusNotes (body req) else None).

(** C5. PUT /:id leaves the ledger as it was, or appends exactly one row;
    it appends one only when the body has a status that differs from the
    current one, and the row then goes from the current status to the new
    one. Every update that answers 200 with such a status has appended the
    row. A body whose status equals the current one (Applied to Applied)
    appends nothing. *)
Theorem updateApplication_history_iff (r : Response) (c : Conn) :
  serve (updateApplication req) flt s = (r, c) ->
  (status_history (visible c) = status_history s
   \/ exists a new,
        lookup_owned s id (user req) = Some a
        /\ Body.status (body req) = Some (Some new)
        /\ JobApplication.status a <> Some new
        /\ status_history (visible c) = status_history s ++ [transition a new])
  /\ (forall a new,
        statusCode r = Some 200%nat ->
        lookup_owned s id (user req) = Some a ->
        Body.status (body req) = Some (Some new) ->
        JobApplication.status a <> Some new ->
        status_history (visible c) = status_history s ++ [transition a new])
  /\ (forall a,
        lookup_owned s id (user req) = Some a ->
        Body.statusValue (body req) = JobApplication.status a ->
        status_history (visible c) = status_history s).
Proof.
  subst id transition. run_handler. intros Hrun.
  destruct (put_validators req) eqn:Hval; cbn [negb] in Hrun.
  2:{ simplify_eq. cbn [visible committed pending statusCode].
      split_and!; [by left | intros; congruence | done]. }
  step Hrun.
  { simplify_eq. cbn [visible committed pending statusCode].
    split_and!; [by left | intros; congruence | done]. }
  destruct (lookup_owned s (params_id req) (user req)) as [a|] eqn:Hl.
  2:{ simplify_eq. cbn [visible committed pending statusCode].
      split_and!; [by left | intros; congruence | done]. }
  destruct (salaryRangeInvalid _ _) eqn:Hrange.
  { simplify_eq. cbn [visible committed pending statusCode].
    split_and!; [by left | intros; congruence | done]. }
  step Hrun.
  { simplify_eq. cbn [visible committed pending statusCode status_history].
    split_and!; [by left | intros; congruence | done]. }
  destruct (JS.truthy (Body.statusValue (body req))
            && negb (bool_decide (Body.statusValue (body req)
                                  = JobApplication.status a))) eqn:Hc.
  - apply andb_true_iff in Hc as [Htruthy Hne].
    apply negb_true_iff, bool_decide_eq_false in Hne.
    destruct (Body.statusValue (body req)) as [to|] eqn:Hto; [|done].
    assert (Body.status (body req) = Some (Some to)) as Hst.
    { unfold Body.statusValue in Hto. destruct (Body.status (body req)); by subst. }
    step Hrun.
    { simplify_eq. cbn [visible committed pending statusCode status_history].
      split_and!; [by left | intros; congruence | intros; simplify_eq]. }
    step Hrun; simplify_eq;
      cbn [visible committed pending statusCode status_history];
      (split_and!;
       [ right; exists a, to; split_and!; [done | done | congruence | done]
       | intros a' new' _ ? ? ?; by simplify_eq
       | intros a' ? ?; simplify_eq ]).
  - assert (forall new, Body.status (body req) = Some (Some new) ->
                        JobApplication.status a = Some new) as Hsame.
    { intros new Hst. apply andb_false_iff in Hc.
      assert (Body.statusValue (body req) = Some new) as Hto
        by (unfold Body.statusValue; by rewrite Hst).
      rewrite Hto in Hc. destruct Hc as [Hc|Hc].
      - unfold put_validators in Hval. rewrite Hst in Hval.
        apply andb_true_iff in Hval as [_ Hin].
        apply status_value_truthy in Hin. congruence.
      - apply negb_false_iff, bool_decide_eq_true in Hc. done. }
    step Hrun; simplify_eq;
      cbn [visible committed pending statusCode status_history];
      (split_and!;
       [ by left
       | intros a' new' _ ? Hst Hne; simplify_eq; by apply Hsame in Hst
       | done ]).
Qed.

End UpdateLedger.

Lemma updateApplication_history_iff_witness :
  let run := serve (updateApplication
                      (Sample.request Sample.alice "a1" (Sample.statusBody "Applied")))
                   noFaults Sample.tracked in
  status_history (visible run.2)
  = status_history Sample.tracked
    ++ [ StatusHistory.mk "a1" (Some "Interested"%string) "Applied" "User" None ].
Proof.
  intros run.
  refine (proj1 (proj2 (updateApplication_history_iff
            (Sample.request Sample.alice "a1" (Sample.statusBody "Applied"))
            noFaults Sample.tracked run.1 run.2 (surjective_pairing _)))
          (JobApplication.mk Sample.alice Sample.acme (Some "Interested"%string)
             (Some 50000) (Some 80000))
          "Applied"%string _ _ _ _).
  - vm_compute. reflexivity.
  - vm_compute. reflexivity.
  - reflexivity.
  - discriminate.
Defined.

(** ** The two writes of a creation and of a status change *)

Section NotAtomic.

Variables (flt : Faults) (s : Store).

(** C2, on the code: PUT /:id runs [application.update] and
    [StatusHistory.create] as two statements outside any transaction. When
    the second one rejects, the answer is 500 and the first one stays
    committed: the application has the new status and the ledger has no row
    for the transition. *)
Theorem updateApplication_status_committed_without_history
    (req : Request) (a : JobApplication.t) (new : string) (r : Response) (c : Conn) :
  serve (updateApplication req) flt s = (r, c) ->
  put_validators req = true ->
  lookup_owned s (params_id req) (user req) = Some a ->
  salaryRangeInvalid
    (JS.orElse (Body.salaryMin (body req)) (JobApplication.salaryMin a))
    (JS.orElse (Body.salaryMax (body req)) (JobApplication.salaryMax a)) = false ->
  Body.status (body req) = Some (Some new) ->
  JobApplication.status a <> Some new ->
  flt 0%nat = false -> flt 1%nat = false -> flt 2%nat = true ->
  r = Json 500 NoData
  /\ job_applications (visible c) !! params_id req = Some (assign (body req) a)
  /\ JobApplication.status (assign (body req) a) = Some new
  /\ status_history (visible c) = status_history s.
Proof.
  run_handler. intros Hrun Hval Hl Hrange Hst Hne F0 F1 F2.
  assert (JS.truthy (Some new) = true) as Htruthy.
  { unfold put_validators in Hval. rewrite Hst in Hval.
    apply andb_true_iff in Hval as [_ Hin]. by apply status_value_truthy. }
  assert (Body.statusValue (body req) = Some new) as Hto
    by (unfold Body.statusValue; by rewrite Hst).
  rewrite Hval in Hrun. norm Hrun. rewrite F0 in Hrun. norm Hrun.
  rewrite Hl, Hrange in Hrun. norm Hrun. rewrite F1 in Hrun. norm Hrun.
  rewrite Hto, Htruthy in Hrun.
  rewrite bool_decide_eq_false_2 in Hrun by congruence.
  norm Hrun. rewrite F2 in Hrun. simplify_eq.
  cbn [visible committed pending job_applications status_history].
  split_and!; try done.
  - rewrite lookup_alter_eq. unfold lookup_owned in Hl.
    destruct (job_applications s !! params_id req) as [a'|]; [|done].
    destruct (owned_by (user req) a'); by simplify_eq.
  - unfold assign. cbn. by rewrite Hst.
Qed.

(** C3, on the code: POST runs [JobApplication.create] and
    [StatusHistory.create] as two statements outside any transaction. When
    the second one rejects (the database refuses it, or the body gave
    [status: null], which the application column accepts and the ledger
    column does not), the answer is 500 and the application row stays
    committed with no ledger row. *)
Theorem createApplication_row_committed_without_history
    (uuid : string) (req : Request) (cid : string) (r : Response) (c : Conn) :
  serve (createApplication uuid req) flt s = (r, c) ->
  post_validators req = true ->
  Body.companyId (body req) = Some cid ->
  JS.truthy (Some cid) = true ->
  is_Some (companies s !! cid) ->
  salaryRangeInvalid (Body.salaryMin (body req)) (Body.salaryMax (body req)) = false ->
  job_applications s !! default uuid (Body.id (body req)) = None ->
  flt 0%nat = false -> flt 1%nat = false ->
  flt 2%nat = true \/ Body.status (body req) = Some None ->
  r = Json 500 NoData
  /\ job_applications (visible c)
     = <[default uuid (Body.id (body req)) := applicationData req cid]>
         (job_applications s)
  /\ status_history (visible c) = status_history s.
Proof.
  run_handler. intros Hrun Hval Hcid Htruthy [co Hco] Hrange Hfresh F0 F1 Hreject.
  rewrite Hval, Hcid, Htruthy in Hrun. norm Hrun. rewrite F0 in Hrun. norm Hrun.
  rewrite Hco, Hrange in Hrun. norm Hrun. rewrite F1, Hfresh in Hrun. norm Hrun.
  destruct (flt 2%nat) eqn:F2.
  - simplify_eq. cbn [visible committed pending job_applications status_history].
    by split_and!.
  - destruct Hreject as [|Hnull]; [done|].
    unfold applicationData in Hrun.
    cbn [JobApplication.status] in Hrun. rewrite Hnull in Hrun.
    cbn [default] in Hrun. unfold Datatypes.id in Hrun. norm Hrun. simplify_eq.
    cbn [visible committed pending job_applications status_history].
    unfold applicationData. rewrite Hnull. by split_and!.
Qed.

End NotAtomic.

Lemma updateApplication_status_committed_without_history_witness :
  let run := serve (updateApplication
                      (Sample.request Sample.alice "a1" (Sample.statusBody "Applied")))
                   (failAt 2) Sample.tracked in
  run.1 = Json 500 NoData
  /\ JobApplication.status
       <$> job_applications (visible run.2) !! "a1"%string
     = Some (Some "Applied"%string)
  /\ status_history (visible run.2) = status_history Sample.tracked.
Proof.
  intros run.
  destruct (updateApplication_status_committed_without_history
              (failAt 2) Sample.tracked
              (Sample.request Sample.alice "a1" (Sample.statusBody "Applied"))
              (JobApplication.mk Sample.alice Sample.acme (Some "Interested"%string)
                 (Some 50000) (Some 80000))
              "Applied"%string run.1 run.2 (surjective_pairing _))
    as (Hr & Ha & Hs & Hh);
    [ vm_compute; reflexivity | vm_compute; reflexivity | vm_compute; reflexivity
    | reflexivity | discriminate | reflexivity | reflexivity | reflexivity | ].
  split_and!; [exact Hr | | exact Hh].
  cbn [params_id Sample.request] in Ha. rewrite Ha. reflexivity.
Defined.

Lemma createApplication_row_committed_without_history_witness :
  let run := serve (createApplication "a1"
                      (Sample.request Sample.alice ""
                         (Sample.newApplication (Some None) None None)))
                   noFaults Sample.fresh in
  run.1 = Json 500 NoData
  /\ job_applications (visible run.2)
     = {[ "a1"%string := JobApplication.mk Sample.alice Sample.acme None None None ]}
  /\ status_history (visible run.2) = [].
Proof.
  intros run.
  destruct (createApplication_row_committed_without_history
              noFaults Sample.fresh "a1"
              (Sample.request Sample.alice ""
                 (Sample.newApplication (Some None) None None))
              Sample.acme run.1 run.2 (surjective_pairing _))
    as (Hr & Ha & Hh);
    [ reflexivity | reflexivity | reflexivity | vm_compute; eauto | reflexivity
    | reflexivity | reflexivity | reflexivity | by right | ].
  split_and!; [exact Hr | | exact Hh].
  rewrite Ha. reflexivity.
Defined.

(** ** The ledger and the live status *)

Section Latest.

Variables (id : string) (l : list StatusHistory.t).

Lemma referencing_snoc_same (h : StatusHistory.t) :
  StatusHistory.jobApplicationId h = id ->
  last (filter (fun h => StatusHistory.jobApplicationId h = id) (l ++ [h])) = Some h.
Proof.
  intros Hid. rewrite filter_app, filter_cons_True by done.
  rewrite filter_nil. apply last_snoc.
Qed.

Lemma referencing_snoc_other (h : StatusHistory.t) :
  StatusHistory.jobApplicationId h <> id ->
  filter (fun h => StatusHistory.jobApplicationId h = id) (l ++ [h])
  = filter (fun h => StatusHistory.jobApplicationId h = id) l.
Proof.
  intros Hid. rewrite filter_app, filter_cons_False by done.
  rewrite filter_nil. apply app_nil_r.
Qed.

Lemma referencing_after_destroy (id0 : string) :
  id <> id0 ->
  filter (fun h => StatusHistory.jobApplicationId h = id)
         (filter (fun h => StatusHistory.jobApplicationId h <> id0) l)
  = filter (fun h => StatusHistory.jobApplicationId h = id) l.
Proof.
  intros Hne. induction l as [|h l' IH]; [done|].
  destruct (decide (StatusHistory.jobApplicationId h = id0)) as [Heq|Hneq].
  - rewrite (filter_cons_False (fun h => StatusHistory.jobApplicationId h <> id0))
      by (intros ?; done).
    rewrite (filter_cons_False (fun h => StatusHistory.jobApplicationId h = id))
      by congruence.
    exact IH.
  - rewrite (filter_cons_True (fun h => StatusHistory.jobApplicationId h <> id0))
      by done.
    rewrite !filter_cons. rewrite IH. done.
Qed.

End Latest.

(** C1, on the code: Alice creates application a1 (Interested), then updates
    it to Applied while the ledger insert of the update rejects. Before the
    two requests the aggregate and the ledger agree; after them a1 is
    Applied and its most recent ledger row still says Interested. Likewise,
    a creation with [status: null] leaves an application with no ledger row
    at all. *)
Theorem ledger_diverges_when_history_insert_rejects :
  let posted :=
    CreateApplication "a1"
      (Sample.request Sample.alice "" (Sample.newApplication None None None)) in
  let put :=
    UpdateApplication (Sample.request Sample.alice "a1" (Sample.statusBody "Applied")) in
  let s := replay [ (posted, noFaults); (put, failAt 2) ] Sample.fresh in
  let postedNull :=
    CreateApplication "a1"
      (Sample.request Sample.alice "" (Sample.newApplication (Some None) None None)) in
  let s' := replay [ (postedNull, noFaults) ] Sample.fresh in
  ledger_consistent Sample.fresh
  /\ (perform posted noFaults Sample.fresh).1
     = Json 201 (ApplicationData
                   (Some (mkApplicationJson "a1"
                            (JobApplication.mk Sample.alice Sample.acme
                               (Some "Interested"%string) None None)
                            (Some (Company.mk "Acme")) None)))
  /\ JobApplication.status <$> job_applications s !! "a1"%string
     = Some (Some "Applied"%string)
  /\ StatusHistory.toStatus <$> latest "a1" s = Some "Interested"%string
  /\ ~ ledger_consistent s
  /\ is_Some (job_applications s' !! "a1"%string)
  /\ latest "a1" s' = None
  /\ ~ ledger_consistent s'.
Proof.
  intros posted put s postedNull s'. split_and!.
  - intros id a Hin. cbn [Sample.fresh job_applications] in Hin.
    by rewrite lookup_empty in Hin.
  - vm_compute. reflexivity.
  - vm_compute. reflexivity.
  - vm_compute. reflexivity.
  - intros Hcons.
    destruct (Hcons "a1"%string
                (JobApplication.mk Sample.alice Sample.acme
                   (Some "Applied"%string) None None))
      as (h & Hlatest & Hstatus).
    + vm_compute. reflexivity.
    + vm_compute in Hlatest. by simplify_eq.
  - vm_compute. eauto.
  - vm_compute. reflexivity.
  - intros Hcons.
    destruct (Hcons "a1"%string
                (JobApplication.mk Sample.alice Sample.acme None None None))
      as (h & Hlatest & Hstatus).
    + vm_compute. reflexivity.
    + vm_compute in Hlatest. discriminate Hlatest.
Qed.

(** The three committed changes keep the aggregate and the ledger in
    agreement. *)
Section ConsistentChanges.

Variable s : Store.
Hypothesis Hcons : ledger_consistent s.

Lemma consistent_after_create (id : string) (a : JobApplication.t)
    (to who : string) (note : option string) :
  JobApplication.status a = Some to ->
  ledger_consistent
    {| companies := companies s;
       job_applications := <[id := a]> (job_applications s);
       status_history :=
         status_history s ++ [ StatusHistory.mk id None to who note ];
       application_keywords := application_keywords s;
       documents := documents s |}.
Proof.
  intros Hst id' a' Hin. unfold latest. cbn [job_applications status_history] in *.
  destruct (decide (id = id')) as [<-|Hne].
  - rewrite lookup_insert_eq in Hin. simplify_eq.
    eexists. split; [by apply referencing_snoc_same|]. done.
  - rewrite lookup_insert_ne in Hin by done.
    rewrite referencing_snoc_other by (cbn; congruence).
    by apply Hcons.
Qed.

Lemma consistent_after_transition (id : string) (b : Body.t)
    (from : option string) (to who : string) (note : option string) :
  (forall a, job_applications s !! id = Some a ->
             JobApplication.status (assign b a) = Some to) ->
  ledger_consistent
    {| companies := companies s;
       job_applications := alter (assign b) id (job_applications s);
       status_history :=
         status_history s ++ [ StatusHistory.mk id from to who note ];
       application_keywords := application_keywords s;
       documents := documents s |}.
Proof.
  intros Hst id' a' Hin. unfold latest. cbn [job_applications status_history] in *.
  destruct (decide (id = id')) as [<-|Hne].
  - rewrite lookup_alter_eq in Hin.
    destruct (job_applications s !! id) as [a|] eqn:Ha; simplify_eq/=.
    eexists. split; [by apply referencing_snoc_same|]. by apply Hst.
  - rewrite lookup_alter_ne in Hin by done.
    rewrite referencing_snoc_other by (cbn; congruence).
    by apply Hcons.
Qed.

Lemma consistent_after_plain_update (id : string) (b : Body.t) :
  (forall a, job_applications s !! id = Some a ->
             JobApplication.status (assign b a) = JobApplication.status a) ->
  ledger_consistent
    {| companies := companies s;
       job_applications := alter (assign b) id (job_applications s);
       status_history := status_history s;
       application_keywords := application_keywords s;
       documents := documents s |}.
Proof.
  intros Hst id' a' Hin. unfold latest. cbn [job_applications status_history] in *.
  destruct (decide (id = id')) as [<-|Hne].
  - rewrite lookup_alter_eq in Hin.
    destruct (job_applications s !! id) as [a|] eqn:Ha; simplify_eq/=.
    destruct (Hcons id a Ha) as (h & Hh & Hs).
    exists h. split; [done|]. rewrite Hst by done. done.
  - rewrite lookup_alter_ne in Hin by done. by apply Hcons.
Qed.

Lemma consistent_after_cascade (id : string) :
  ledger_consistent
    {| companies := companies s;
       job_applications := delete id (job_applications s);
       status_history :=
         filter (fun h => StatusHistory.jobApplicationId h <> id) (status_history s);
       application_keywords :=
         filter (fun k => ApplicationKeyword.jobApplicationId k <> id)
                (application_keywords s);
       documents :=
         filter (fun d => Document.jobApplicationId d <> Some id) (documents s) |}.
Proof.
  intros id' a' Hin. unfold latest. cbn [job_applications status_history] in *.
  apply lookup_delete_Some in Hin as [Hne Hin].
  rewrite referencing_after_destroy by done. by apply Hcons.
Qed.

End ConsistentChanges.

Section Preservation.

Variables (flt : Faults) (s : Store).
Hypothesis Hcons : ledger_consistent s.

Lemma createApplication_keeps_ledger (uuid : string) (req : Request)
    (r : Response) (c : Conn) :
  serve (createApplication uuid req) flt s = (r, c) ->
  statusCode r <> Some 500%nat ->
  ledger_consistent (visible c).
Proof.
  run_handler. intros Hrun H500.
  destruct (post_validators req); norm Hrun; [|by simplify_eq].
  destruct (Body.companyId (body req)) as [cid|]; [|by simplify_eq].
  destruct (JS.truthy (Some cid)); [|by simplify_eq].
  step Hrun; [by simplify_eq|].
  destruct (companies s !! cid); [|by simplify_eq].
  destruct (salaryRangeInvalid _ _); [by simplify_eq|].
  step Hrun; [by simplify_eq|].
  destruct (job_applications s !! default uuid (Body.id (body req)));
    norm Hrun; [by simplify_eq|].
  step Hrun; [by simplify_eq|].
  destruct (JobApplication.status (applicationData req cid)) as [to|] eqn:Hto;
    norm Hrun; [|by simplify_eq].
  step Hrun; [by simplify_eq|].
  simplify_eq. settle.
  by apply consistent_after_create.
Qed.

Lemma updateApplication_keeps_ledger (req : Request) (r : Response) (c : Conn) :
  serve (updateApplication req) flt s = (r, c) ->
  statusCode r <> Some 500%nat ->
  ledger_consistent (visible c).
Proof.
  run_handler. intros Hrun H500.
  destruct (put_validators req) eqn:Hval; norm Hrun; [|by simplify_eq].
  step Hrun; [by simplify_eq|].
  destruct (lookup_owned s (params_id req) (user req)) as [a|] eqn:Hl;
    [|by simplify_eq].
  destruct (salaryRangeInvalid _ _); [by simplify_eq|].
  step Hrun; [by simplify_eq|].
  assert (job_applications s !! params_id req = Some a) as Ha.
  { unfold lookup_owned in Hl.
    destruct (job_applications s !! params_id req) as [a'|]; [|done].
    destruct (owned_by (user req) a'); by simplify_eq. }
  destruct (JS.truthy (Body.statusValue (body req))
            && negb (bool_decide (Body.statusValue (body req)
                                  = JobApplication.status a))) eqn:Hc.
  - apply andb_true_iff in Hc as [Htruthy _].
    destruct (Body.statusValue (body req)) as [to|] eqn:Hto; [|done].
    assert (Body.status (body req) = Some (Some to)) as Hst.
    { unfold Body.statusValue in Hto. destruct (Body.status (body req)); by subst. }
    step Hrun; [by simplify_eq|].
    step Hrun; [by simplify_eq|].
    simplify_eq. settle.
    apply consistent_after_transition; [done|].
    intros a' _. unfold assign. cbn. by rewrite Hst.
  - step Hrun; [by simplify_eq|].
    simplify_eq. settle.
    apply consistent_after_plain_update; [done|].
    intros a' Ha'. simplify_eq. unfold assign. cbn.
    unfold put_validators in Hval. apply andb_true_iff in Hval as [_ Hin].
    unfold Body.statusValue in Hc.
    destruct (Body.status (body req)) as [[new|]|]; [|done..].
    cbn in Hin. apply status_value_truthy in Hin. rewrite Hin in Hc.
    cbn in Hc. apply negb_false_iff, bool_decide_eq_true in Hc. done.
Qed.

Lemma deleteApplication_keeps_ledger (req : Request) (r : Response) (c : Conn) :
  serve (deleteApplication req) flt s = (r, c) ->
  ledger_consistent (visible c).
Proof.
  run_handler. intros Hrun.
  step Hrun; [by simplify_eq|].
  step Hrun; [by try step Hrun; simplify_eq|].
  destruct (lookup_owned s (params_id req) (user req)).
  - do 5 (step Hrun; [by try step Hrun; simplify_eq|]).
    simplify_eq. settle. by apply consistent_after_cascade.
  - step Hrun; [by try step Hrun; simplify_eq|]. by simplify_eq.
Qed.

(** After any operation that did not answer 500, the most recent ledger row
    of every application still carries its live status. *)
Theorem ledger_consistent_preserved (op : Operation) :
  statusCode (perform op flt s).1 <> Some 500%nat ->
  ledger_consistent (perform op flt s).2.
Proof.
  unfold perform. cbn [fst snd]. destruct op as [uuid req|req|req]; cbn [handler].
  - intros H500.
    eapply createApplication_keeps_ledger; [apply surjective_pairing | exact H500].
  - intros H500.
    eapply updateApplication_keeps_ledger; [apply surjective_pairing | exact H500].
  - intros _. eapply deleteApplication_keeps_ledger, surjective_pairing.
Qed.

End Preservation.

Lemma ledger_consistent_preserved_witness :
  ledger_consistent
    (perform (CreateApplication "a1"
                (Sample.request Sample.alice ""
                   (Sample.newApplication None None None)))
             noFaults Sample.fresh).2.
Proof.
  apply ledger_consistent_preserved.
  - intros id a Hin. cbn [Sample.fresh job_applications] in Hin.
    by rewrite lookup_empty in Hin.
  - vm_compute. discriminate.
Defined.

(** ** The salary range *)

Lemma zero_maximum_passes (min : option Z) :
  salaryRangeInvalid min (Some 0) = false.
Proof.
  unfold salaryRangeInvalid. cbn [JS.truthyNumber]. by rewrite andb_false_r.
Qed.

Section SalaryRange.

Variables (flt : Faults) (s : Store).

(** C9, on the code: the range test of POST is
    [salaryMin && salaryMax && salaryMin > salaryMax], and 0 is falsy. A
    body with a positive minimum and the maximum 0 (which
    [isInt({ min: 0 })] accepts) passes it, and the row is stored with its
    minimum above its maximum. *)
Theorem createApplication_stores_minimum_above_zero_maximum
    (uuid : string) (req : Request) (cid : string) (m : Z)
    (r : Response) (c : Conn) :
  serve (createApplication uuid req) flt s = (r, c) ->
  post_validators req = true ->
  Body.companyId (body req) = Some cid ->
  JS.truthy (Some cid) = true ->
  is_Some (companies s !! cid) ->
  job_applications s !! default uuid (Body.id (body req)) = None ->
  Body.status (body req) <> Some None ->
  Body.salaryMin (body req) = Some m -> 0 < m ->
  Body.salaryMax (body req) = Some 0 ->
  (forall k, (k < 4)%nat -> flt k = false) ->
  statusCode r = Some 201%nat
  /\ exists a,
       job_applications (visible c) !! default uuid (Body.id (body req)) = Some a
       /\ JobApplication.salaryMin a = Some m
       /\ JobApplication.salaryMax a = Some 0
       /\ m > 0.
Proof.
  run_handler.
  intros Hrun Hval Hcid Htruthy [co Hco] Hfresh Hst Hmin Hm Hmax Hflt.
  rewrite Hval, Hcid, Htruthy in Hrun. norm Hrun.
  rewrite (Hflt 0%nat) in Hrun by lia. norm Hrun.
  rewrite Hco, Hmin, Hmax, zero_maximum_passes in Hrun. norm Hrun.
  rewrite (Hflt 1%nat), Hfresh in Hrun by lia. norm Hrun.
  rewrite (Hflt 2%nat) in Hrun by lia.
  destruct (JobApplication.status (applicationData req cid)) as [to|] eqn:Hto.
  2:{ unfold applicationData in Hto. cbn in Hto.
      destruct (Body.status (body req)) as [[?|]|]; simplify_eq/=. }
  norm Hrun. rewrite (Hflt 3%nat) in Hrun by lia. simplify_eq. settle.
  split; [done|]. eexists. split; [apply lookup_insert_eq|].
  unfold applicationData. cbn. split_and!; [done | done | lia].
Qed.

End SalaryRange.

Lemma createApplication_stores_minimum_above_zero_maximum_witness :
  let run := serve (createApplication "a1"
                      (Sample.request Sample.alice ""
                         (Sample.newApplication None (Some 50000) (Some 0))))
                   noFaults Sample.fresh in
  statusCode run.1 = Some 201%nat
  /\ exists a,
       job_applications (visible run.2) !! "a1"%string = Some a
       /\ JobApplication.salaryMin a = Some 50000
       /\ JobApplication.salaryMax a = Some 0
       /\ 50000 > 0.
Proof.
  intros run.
  refine (createApplication_stores_minimum_above_zero_maximum
            noFaults Sample.fresh "a1"
            (Sample.request Sample.alice ""
               (Sample.newApplication None (Some 50000) (Some 0)))
            Sample.acme 50000 run.1 run.2 (surjective_pairing _)
            _ _ _ _ _ _ _ _ _ _);
    try reflexivity.
  - vm_compute. eauto.
  - discriminate.
Defined.

(** The same slip on PUT: [req.body.salaryMax || application.salaryMax]
    tests the stored maximum when the body gives 0, and the 0 is then
    written. Alice's a1 (50000 to 80000) ends with the range 50000 to 0. *)
Lemma updateApplication_stores_zero_maximum :
  let run := serve (updateApplication
                      (Sample.request Sample.alice "a1"
                         (Body.mk None None None None None None (Some 0))))
                   noFaults Sample.tracked in
  statusCode run.1 = Some 200%nat
  /\ job_applications (visible run.2) !! "a1"%string
     = Some (JobApplication.mk Sample.alice Sample.acme (Some "Interested"%string)
               (Some 50000) (Some 0)).
Proof. vm_compute. split; reflexivity. Qed.

(** What the two range tests do establish. *)
Section SalaryRangeKept.

Lemma applicationData_salary (req : Request) (cid : string) :
  post_validators req = true ->
  salaryRangeInvalid (Body.salaryMin (body req)) (Body.salaryMax (body req)) = false ->
  salary_ordered_unless_zero (applicationData req cid).
Proof.
  unfold post_validators, salaryRangeInvalid, salary_ordered_unless_zero, applicationData.
  cbn [JobApplication.salaryMin JobApplication.salaryMax].
  intros Hval Hrange.
  destruct (Body.salaryMin (body req)) as [x|], (Body.salaryMax (body req)) as [y|];
    cbn in *; repeat (apply andb_true_iff in Hval as [Hval ?]);
    split_and!; intros; simplify_eq; lia.
Qed.

Lemma assign_salary (b : Body.t) (a : JobApplication.t) :
  isInt_min0 (Body.salaryMin b) = true ->
  isInt_min0 (Body.salaryMax b) = true ->
  salaryRangeInvalid (JS.orElse (Body.salaryMin b) (JobApplication.salaryMin a))
                     (JS.orElse (Body.salaryMax b) (JobApplication.salaryMax a))
  = false ->
  salary_ordered_unless_zero a ->
  salary_ordered_unless_zero (assign b a).
Proof.
  unfold salaryRangeInvalid, salary_ordered_unless_zero, assign, JS.orElse.
  cbn [JobApplication.salaryMin JobApplication.salaryMax].
  intros Hmin Hmax Hrange (Ha1 & Ha2 & Ha3).
  destruct (Body.salaryMin b) as [x|], (Body.salaryMax b) as [y|];
    cbn in Hmin, Hmax, Hrange |- *;
    (split_and!; [intros x' Hx | intros y' Hy | intros x' y' Hx Hy Hy0]);
    simplify_eq; eauto; try lia.
  - destruct (Z.eqb_spec x' 0); [lia|].
    destruct (Z.eqb_spec y' 0); [done|]. cbn in Hrange. lia.
  - pose proof (Ha2 _ Hy). destruct (Z.eqb_spec x' 0); [lia|].
    rewrite Hy in Hrange. cbn in Hrange. lia.
  - rewrite Hx in Hrange. destruct (Z.eqb_spec y' 0); [done|].
    cbn in Hrange. pose proof (Ha1 _ Hx). lia.
Qed.

Variables (flt : Faults) (s : Store).
Hypothesis Hs :
  forall id a, job_applications s !! id = Some a -> salary_ordered_unless_zero a.

Lemma createApplication_keeps_salary (uuid : string) (req : Request)
    (r : Response) (c : Conn) :
  serve (createApplication uuid req) flt s = (r, c) ->
  forall id a, job_applications (visible c) !! id = Some a ->
               salary_ordered_unless_zero a.
Proof.
  run_handler. intros Hrun.
  destruct (post_validators req) eqn:Hval; norm Hrun; [|by simplify_eq].
  destruct (Body.companyId (body req)) as [cid|]; [|by simplify_eq].
  destruct (JS.truthy (Some cid)); [|by simplify_eq].
  step Hrun; [by simplify_eq|].
  destruct (companies s !! cid); [|by simplify_eq].
  destruct (salaryRangeInvalid _ _) eqn:Hrange; [by simplify_eq|].
  assert (forall id a,
            <[default uuid (Body.id (body req)) := applicationData req cid]>
              (job_applications s) !! id = Some a ->
            salary_ordered_unless_zero a) as Hnew.
  { intros id a [[_ <-]|[_ Hin]]%lookup_insert_Some; [|by eapply Hs].
    by apply applicationData_salary. }
  step Hrun; [by simplify_eq|].
  destruct (job_applications s !! default uuid (Body.id (body req)));
    norm Hrun; [by simplify_eq|].
  step Hrun; [by simplify_eq|].
  destruct (JobApplication.status (applicationData req cid));
    norm Hrun; [|by simplify_eq].
  step Hrun; by simplify_eq.
Qed.

Lemma updateApplication_keeps_salary (req : Request) (r : Response) (c : Conn) :
  serve (updateApplication req) flt s = (r, c) ->
  forall id a, job_applications (visible c) !! id = Some a ->
               salary_ordered_unless_zero a.
Proof.
  run_handler. intros Hrun.
  destruct (put_validators req) eqn:Hval; norm Hrun; [|by simplify_eq].
  step Hrun; [by simplify_eq|].
  destruct (lookup_owned s (params_id req) (user req)) as [a0|] eqn:Hl;
    [|by simplify_eq].
  destruct (salaryRangeInvalid _ _) eqn:Hrange; [by simplify_eq|].
  assert (job_applications s !! params_id req = Some a0) as Ha.
  { unfold lookup_owned in Hl.
    destruct (job_applications s !! params_id req) as [a'|]; [|done].
    destruct (owned_by (user req) a'); by simplify_eq. }
  assert (forall id a,
            alter (assign (body req)) (params_id req) (job_applications s) !! id
            = Some a ->
            salary_ordered_unless_zero a) as Hnew.
  { intros id a Hin. destruct (decide (params_id req = id)) as [<-|Hne].
    - rewrite lookup_alter_eq, Ha in Hin. simplify_eq/=.
      unfold put_validators in Hval.
      repeat (apply andb_true_iff in Hval as [Hval ?]).
      apply assign_salary; [done..|by eapply Hs].
    - rewrite lookup_alter_ne in Hin by done. by eapply Hs. }
  step Hrun; [by simplify_eq|].
  destruct (JS.truthy (Body.statusValue (body req)) && _).
  - step Hrun; [by simplify_eq|].
    destruct (Body.statusValue (body req)); norm Hrun; [|by simplify_eq].
    step Hrun; by simplify_eq.
  - step Hrun; by simplify_eq.
Qed.

Lemma deleteApplication_keeps_salary (req : Request) (r : Response) (c : Conn) :
  serve (deleteApplication req) flt s = (r, c) ->
  forall id a, job_applications (visible c) !! id = Some a ->
               salary_ordered_unless_zero a.
Proof.
  run_handler. intros Hrun.
  step Hrun; [by simplify_eq|].
  step Hrun; [by try step Hrun; simplify_eq|].
  destruct (lookup_owned s (params_id req) (user req)).
  - do 5 (step Hrun; [by try step Hrun; simplify_eq|]).
    simplify_eq. settle. intros id a [_ Hin]%lookup_delete_Some. by eapply Hs.
  - step Hrun; [by try step Hrun; simplify_eq|]. by simplify_eq.
Qed.


End SalaryRangeKept.

Lemma sample_salaries_ordered (id : string) (a : JobApplication.t) :
  job_applications Sample.tracked !! id = Some a -> salary_ordered_unless_zero a.
Proof.
  cbn [Sample.tracked job_applications]. intros Hin.
  apply lookup_insert_Some in Hin as [[_ <-]|[_ Hin]];
    [|apply lookup_singleton_Some in Hin as [_ <-]];
    unfold salary_ordered_unless_zero; cbn;
    split_and!; intros; simplify_eq; lia.
Qed.


(** ** Isolation between users *)

Lemma lookup_owned_Some (s : Store) (id userId : string) (a : JobApplication.t) :
  lookup_owned s id userId = Some a <->
  job_applications s !! id = Some a /\ JobApplication.userId a = userId.
Proof.
  unfold lookup_owned, owned_by.
  destruct (job_applications s !! id) as [a'|]; [|by split; [|intros []]].
  case_bool_decide; split.
  - by intros [= <-].
  - by intros [[= <-] _].
  - done.
  - intros [[= <-] ?]. done.
Qed.

Section OthersUntouched.

Variables (userId : string) (s : Store) (id0 : string) (a0 : JobApplication.t).
Hypothesis Hmine : job_applications s !! id0 = Some a0.
Hypothesis Howner : JobApplication.userId a0 = userId.

Lemma untouched_same : others_untouched userId s s.
Proof. by intros id a Hin Hother. Qed.

Lemma untouched_update (f : JobApplication.t -> JobApplication.t) :
  others_untouched userId s
    {| companies := companies s;
       job_applications := alter f id0 (job_applications s);
       status_history := status_history s;
       application_keywords := application_keywords s;
       documents := documents s |}.
Proof.
  intros id a Hin Hother. cbn [job_applications status_history].
  split; [|done]. rewrite lookup_alter_ne; [done|]. intros <-. congruence.
Qed.

Lemma untouched_transition (f : JobApplication.t -> JobApplication.t)
    (from : option string) (to who : string) (note : option string) :
  others_untouched userId s
    {| companies := companies s;
       job_applications := alter f id0 (job_applications s);
       status_history :=
         status_history s ++ [ StatusHistory.mk id0 from to who note ];
       application_keywords := application_keywords s;
       documents := documents s |}.
Proof.
  intros id a Hin Hother. cbn [job_applications status_history].
  assert (id0 <> id) by (intros <-; congruence).
  split; [by rewrite lookup_alter_ne|].
  by apply referencing_snoc_other.
Qed.

Lemma untouched_cascade :
  others_untouched userId s
    {| companies := companies s;
       job_applications := delete id0 (job_applications s);
       status_history :=
         filter (fun h => StatusHistory.jobApplicationId h <> id0) (status_history s);
       application_keywords :=
         filter (fun k => ApplicationKeyword.jobApplicationId k <> id0)
                (application_keywords s);
       documents :=
         filter (fun d => Document.jobApplicationId d <> Some id0) (documents s) |}.
Proof.
  intros id a Hin Hother. cbn [job_applications status_history].
  assert (id0 <> id) by (intros <-; congruence).
  split; [by rewrite lookup_delete_ne|].
  by apply referencing_after_destroy.
Qed.

End OthersUntouched.

Lemma returns_own_plain (userId id : string) (s : Store) (a : JobApplication.t)
    (code : nat) (o : option ApplicationJson) :
  job_applications s !! id = Some a ->
  JobApplication.userId a = userId ->
  (forall v, o = Some v -> application_id v = id /\ included v = None) ->
  returns_only_own userId id s (Json code (ApplicationData o)).
Proof.
  intros Ha Hu Ho v Hv. cbn [returned] in Hv. destruct (Ho v Hv) as [Hid Hinc].
  split_and!; [done|by exists a|]. intros inc h Hsome. congruence.
Qed.

(** The response of the three routes is a function of what the requester
    owns: two databases that look the same to the requester give the same
    response, under the same rejections. *)
Section SameResponse.

Variables (req : Request) (flt : Faults) (s1 s2 : Store).
Hypothesis Hview : same_view (user req) s1 s2.

Lemma getApplication_same_response :
  (serve (getApplication req) flt s1).1 = (serve (getApplication req) flt s2).1.
Proof.
  destruct Hview as [Hco Hrows]. destruct (Hrows (params_id req)) as [Hl Hinc].
  run_handler. destruct (flt 0%nat); [done|].
  rewrite <- Hl, <- Hco.
  destruct (lookup_owned s1 (params_id req) (user req)); [|done].
  cbn [fst]. by rewrite Hinc.
Qed.

Lemma updateApplication_same_response :
  (serve (updateApplication req) flt s1).1 = (serve (updateApplication req) flt s2).1.
Proof.
  destruct Hview as [Hco Hrows]. destruct (Hrows (params_id req)) as [Hl _].
  run_handler. destruct (put_validators req); sim; [|done].
  destruct (flt 0%nat); [done|].
  rewrite <- Hl.
  destruct (lookup_owned s1 (params_id req) (user req)) as [a|] eqn:Hl1; [|done].
  symmetry in Hl.
  apply lookup_owned_Some in Hl1 as [Ha1 _], Hl as [Ha2 _].
  destruct (salaryRangeInvalid _ _); [done|]. sim.
  destruct (flt 1%nat); [done|].
  destruct (JS.truthy (Body.statusValue (body req)) && _); sim.
  - destruct (flt 2%nat); [done|].
    destruct (Body.statusValue (body req)); [|done]. sim.
    destruct (flt 3%nat); [done|].
    cbn [fst committed job_applications companies].
    by rewrite !lookup_alter_eq, Ha1, Ha2, Hco.
  - destruct (flt 2%nat); [done|].
    cbn [fst committed job_applications companies].
    by rewrite !lookup_alter_eq, Ha1, Ha2, Hco.
Qed.

Lemma deleteApplication_same_response :
  (serve (deleteApplication req) flt s1).1 = (serve (deleteApplication req) flt s2).1.
Proof.
  destruct Hview as [Hco Hrows]. destruct (Hrows (params_id req)) as [Hl _].
  run_handler. destruct (flt 0%nat); [done|]. sim.
  destruct (flt 1%nat); [sim; by destruct (flt 2%nat)|].
  rewrite <- Hl.
  destruct (lookup_owned s1 (params_id req) (user req)); sim.
  - destruct (flt 2%nat); [sim; by destruct (flt 3%nat)|]. sim.
    destruct (flt 3%nat); [sim; by destruct (flt 4%nat)|]. sim.
    destruct (flt 4%nat); [sim; by destruct (flt 5%nat)|]. sim.
    destruct (flt 5%nat); [sim; by destruct (flt 6%nat)|]. sim.
    destruct (flt 6%nat); [sim; by destruct (flt 7%nat)|]. done.
  - destruct (flt 2%nat); [sim; by destruct (flt 3%nat)|]. done.
Qed.

End SameResponse.

Section Isolation.

Variables (req : Request) (flt : Faults) (s : Store).

Let userId := user req.
Let id := params_id req.


End Isolation.

Lemma same_view_sample : same_view Sample.alice Sample.tracked Sample.bobRejected.
Proof.
  split; [reflexivity|]. intros id.
  destruct (decide (id = "a1"%string)) as [->|Hne1];
    [split; [reflexivity | intros _; vm_compute; reflexivity]|].
  destruct (decide (id = "a2"%string)) as [->|Hne2];
    [split; [reflexivity | by intros [a [=]]]|].
  unfold lookup_owned. cbn [Sample.tracked Sample.bobRejected job_applications].
  rewrite !lookup_insert_ne, !lookup_singleton_ne by done.
  split; [reflexivity | by intros [a [=]]].
Qed.


(** Bob's requests on Alice's a1 are answered 404 and change nothing. *)
Lemma foreign_requests_not_found :
  let intrusion := Sample.request Sample.bob "a1" (Sample.statusBody "Rejected") in
  Forall (fun route : Async Response =>
            (serve route noFaults Sample.tracked).1 = Json 404 NoData
            /\ visible (serve route noFaults Sample.tracked).2 = Sample.tracked)
         [ getApplication intrusion; updateApplication intrusion;
           deleteApplication intrusion ].
Proof. intros intrusion. repeat constructor. Qed.

(** ** The response rate *)

Lemma size_filter_map_to_list {A} (P : string * A -> Prop)
    `{!forall x, Decision (P x)} (m : gmap string A) :
  size (filter P m) = length (filter P (map_to_list m)).
Proof.
  rewrite <- length_map_to_list. apply Permutation_length, NoDup_Permutation.
  - apply NoDup_map_to_list.
  - apply NoDup_filter, NoDup_map_to_list.
  - intros [i x]. rewrite list_elem_of_filter, !elem_of_map_to_list.
    rewrite map_lookup_filter_Some. tauto.
Qed.

Lemma count_applied (userId : string) (s : Store) :
  Z.of_nat (size (filter (fun kv : string * JobApplication.t =>
                            where_applied userId kv.2 = true)
                         (job_applications s)))
  = appliedCount userId s.
Proof.
  unfold appliedCount. rewrite size_filter_map_to_list. do 2 f_equal.
  apply list_filter_iff. intros [i a]. cbn [snd].
  unfold where_applied, owned_by. rewrite andb_true_iff, bool_decide_eq_true.
  destruct (JobApplication.status a) as [st|].
  - rewrite negb_true_iff.
    destruct (String.eqb_spec st "Interested") as [->|Hne].
    + split; [by intros [_ [=]] | by intros (_ & _ & ?)].
    + split; [intros [? _]; split_and!; congruence | by intros [? _]].
  - split; [by intros [_ [=]] | by intros (_ & ? & _)].
Qed.

Lemma count_responded (userId : string) (s : Store) :
  Z.of_nat (size (filter (fun kv : string * JobApplication.t =>
                            where_responded userId kv.2 = true)
                         (job_applications s)))
  = responseCount userId s.
Proof.
  unfold responseCount. rewrite size_filter_map_to_list. do 2 f_equal.
  apply list_filter_iff. intros [i a]. cbn [snd].
  unfold where_responded, owned_by. rewrite andb_true_iff, bool_decide_eq_true.
  destruct (JobApplication.status a) as [st|].
  - rewrite includes_elem_of, list_elem_of_fmap. split.
    + intros [? ?]. split; [done|]. by exists st.
    + intros [? (y & [= ->] & ?)]. done.
  - rewrite list_elem_of_fmap. split.
    + by intros [_ [=]].
    + by intros [_ (y & [=] & _)].
Qed.

Lemma nearestTenths_is_nearest (m : positive) (e : Z) :
  is_nearest_tenth m e (nearestTenths m e).
Proof.
  unfold is_nearest_tenth, nearestTenths.
  destruct (Z.leb_spec 0 e) as [He|He].
  - rewrite Z.max_l, Z.max_r by lia. rewrite Z.pow_0_r. lia.
  - rewrite Z.max_r, Z.max_l by lia. rewrite Z.pow_0_r.
    assert (0 < 2 ^ (- e)) as Hd by (apply Z.pow_pos_nonneg; lia).
    set (d := 2 ^ (- e)) in *.
    pose proof (Z.div_mod (20 * Z.pos m + d) (2 * d) ltac:(lia)) as Hdiv.
    pose proof (Z.mod_pos_bound (20 * Z.pos m + d) (2 * d) ltac:(lia)) as Hmod.
    set (n := (20 * Z.pos m + d) / (2 * d)) in *. nia.
Qed.

Section Overview.

Variables (req : Request) (flt : Faults) (s : Store).

Let applied := appliedCount (user req) s.
Let responded := responseCount (user req) s.

(** The double [responseCount / appliedCount * 100]. *)
Let percentage : float :=
  PrimFloat.mul (PrimFloat.div (Number responded) (Number applied)) (Number 100).


End Overview.


(** With no application beyond "Interested" the rate is the number 0. *)
Lemma responseRate_of_none (responseCount : Z) :
  responseRate responseCount 0 = 0%float.
Proof. reflexivity. Qed.

(** 23 responses to 80 applications are 28.75 percent; the double
    [23 / 80 * 100] lies just below, and [toFixed(1)] prints 28.7. *)
Lemma responseRate_23_of_80 :
  toFixed1 (PrimFloat.mul (PrimFloat.div (Number 23) (Number 80)) (Number 100))
  = Digits false 287
  /\ responseRate 23 80 = 0x1.cb33333333333p+4%float.
Proof. split; vm_compute; reflexivity. Qed.

(** Up to 400 applications, the printed rate is a nearest tenth of the
    exact percentage as well (checked by evaluation on every pair of
    counts). *)
Lemma responseRate_nearest_to_exact (r a : Z) :
  0 < a <= 400 -> 0 <= r <= a -> prints_nearest_tenth r a = true.
Proof.
  intros Ha Hr.
  assert (forallb (fun a => forallb (fun r => prints_nearest_tenth r a)
                                    (seqZ 0 (a + 1)))
                  (seqZ 1 400) = true) as Hall by (vm_compute; reflexivity).
  rewrite forallb_forall in Hall.
  specialize (Hall a). rewrite forallb_forall in Hall.
  apply Hall; apply list_elem_of_In, elem_of_seqZ; lia.
Qed.

Lemma responseRate_nearest_to_exact_witness : prints_nearest_tenth 23 80 = true.
Proof. apply responseRate_nearest_to_exact; lia. Defined.

(** ** What a request can leave behind *)

Section Outcomes.

Variables (flt : Faults) (s : Store).

(** POST leaves the old state, or the new row alone (and then answers
    500), or the new row with its initial ledger row. *)
Lemma createApplication_outcomes (uuid : string) (req : Request)
    (r : Response) (c : Conn) :
  serve (createApplication uuid req) flt s = (r, c) ->
  let id := default uuid (Body.id (body req)) in
  (visible c = s /\ statusCode r <> Some 201%nat)
  \/ exists cid co,
       Body.companyId (body req) = Some cid
       /\ companies s !! cid = Some co
       /\ job_applications s !! id = None
       /\ ((visible c = inserted id (applicationData req cid) s
            /\ statusCode r = Some 500%nat)
           \/ exists st,
                JobApplication.status (applicationData req cid) = Some st
                /\ visible c
                   = recorded (StatusHistory.mk id None st "User" None)
                              (inserted id (applicationData req cid) s)
                /\ (statusCode r = Some 500%nat
                    \/ r = Json 201
                             (ApplicationData
                                (Some (mkApplicationJson id (applicationData req cid)
                                         (Some co) None))))).
Proof.
  run_handler. intros Hrun.
  destruct (post_validators req); norm Hrun; [|left; by simplify_eq].
  destruct (Body.companyId (body req)) as [cid|]; [|left; by simplify_eq].
  destruct (JS.truthy (Some cid)); [|left; by simplify_eq].
  step Hrun; [left; by simplify_eq|].
  destruct (companies s !! cid) as [co|] eqn:Hco; [|left; by simplify_eq].
  destruct (salaryRangeInvalid _ _); [left; by simplify_eq|].
  step Hrun; [left; by simplify_eq|].
  destruct (job_applications s !! default uuid (Body.id (body req))) eqn:Hfresh;
    norm Hrun; [left; by simplify_eq|].
  right. exists cid, co. split_and!; [done..|].
  step Hrun; [left; by simplify_eq|].
  destruct (JobApplication.status (applicationData req cid)) as [to|] eqn:Hto;
    norm Hrun; [|left; by simplify_eq].
  right. exists to. split; [done|].
  step Hrun; [by simplify_eq; split; [|left]|].
  simplify_eq. settle. split; [done|]. right.
  rewrite lookup_insert_eq. cbn [applicationData JobApplication.companyId].
  by rewrite Hco.
Qed.

(** PUT leaves the old state, or the row with the body assigned, or that
    and one ledger row for the transition. Without a 500 the ledger row is
    missing only when the status stays what it was. *)
Lemma updateApplication_outcomes (req : Request) (r : Response) (c : Conn) :
  serve (updateApplication req) flt s = (r, c) ->
  (visible c = s /\ statusCode r <> Some 200%nat)
  \/ exists a,
       lookup_owned s (params_id req) (user req) = Some a
       /\ ((visible c = assigned (params_id req) (body req) s
            /\ (statusCode r = Some 500%nat
                \/ JobApplication.status (assign (body req) a)
                   = JobApplication.status a))
           \/ exists new,
                Body.status (body req) = Some (Some new)
                /\ JobApplication.status a <> Some new
                /\ visible c
                   = recorded (transition_row req a new)
                              (assigned (params_id req) (body req) s)).
Proof.
  run_handler. intros Hrun.
  destruct (put_validators req) eqn:Hval; norm Hrun; [|left; by simplify_eq].
  step Hrun; [left; by simplify_eq|].
  destruct (lookup_owned s (params_id req) (user req)) as [a|] eqn:Hl;
    [|left; by simplify_eq].
  destruct (salaryRangeInvalid _ _); [left; by simplify_eq|].
  step Hrun; [left; by simplify_eq|].
  right. exists a. split; [done|].
  destruct (JS.truthy (Body.statusValue (body req))
            && negb (bool_decide (Body.statusValue (body req)
                                  = JobApplication.status a))) eqn:Hc.
  - apply andb_true_iff in Hc as [Htruthy Hne].
    apply negb_true_iff, bool_decide_eq_false in Hne.
    destruct (Body.statusValue (body req)) as [to|] eqn:Hto; [|done].
    assert (Body.status (body req) = Some (Some to)) as Hst.
    { unfold Body.statusValue in Hto. destruct (Body.status (body req)); by subst. }
    step Hrun; [left; simplify_eq; split; [done | by left]|].
    right. exists to. split_and!; [done | congruence |].
    step Hrun; by simplify_eq.
  - left.
    assert (JobApplication.status (assign (body req) a) = JobApplication.status a)
      as Hsame.
    { unfold assign. cbn [JobApplication.status].
      unfold put_validators in Hval. apply andb_true_iff in Hval as [_ Hin].
      unfold Body.statusValue in Hc.
      destruct (Body.status (body req)) as [[new|]|]; [|done..].
      cbn in Hin. apply status_value_truthy in Hin. rewrite Hin in Hc.
      cbn in Hc. apply negb_false_iff, bool_decide_eq_true in Hc. done. }
    step Hrun; simplify_eq; (split; [done | by right]).
Qed.

(** DELETE leaves the old state or the cascade, nothing in between. *)
Lemma deleteApplication_outcomes (req : Request) (r : Response) (c : Conn) :
  serve (deleteApplication req) flt s = (r, c) ->
  visible c = s
  \/ (is_Some (lookup_owned s (params_id req) (user req))
      /\ visible c = cascaded (params_id req) s).
Proof.
  run_handler. intros Hrun.
  step Hrun; [left; by simplify_eq|].
  step Hrun; [left; by try step Hrun; simplify_eq|].
  destruct (lookup_owned s (params_id req) (user req)) eqn:Hl.
  - do 5 (step Hrun; [left; by try step Hrun; simplify_eq|]).
    simplify_eq. right. split; [by eexists | done].
  - step Hrun; [left; by try step Hrun; simplify_eq|]. left. by simplify_eq.
Qed.

End Outcomes.

(** ** Referential integrity *)

Section Integrity.

Variable s : Store.
Hypothesis Hint : referential_integrity s.

Lemma integrity_inserted (id : string) (a : JobApplication.t) :
  referential_integrity (inserted id a s).
Proof.
  destruct Hint as (Hh & Hk & Hd).
  assert (forall i, is_Some (job_applications s !! i) ->
                    is_Some (<[id := a]> (job_applications s) !! i)) as Hmono.
  { intros i Hi. destruct (decide (id = i)) as [<-|Hne].
    - rewrite lookup_insert_eq. by eexists.
    - by rewrite lookup_insert_ne. }
  split_and!; cbn [inserted job_applications status_history application_keywords
                   documents]; eauto.
Qed.

Lemma integrity_assigned (id : string) (b : Body.t) :
  referential_integrity (assigned id b s).
Proof.
  destruct Hint as (Hh & Hk & Hd).
  assert (forall i, is_Some (job_applications s !! i) ->
                    is_Some (alter (assign b) id (job_applications s) !! i)) as Hmono.
  { intros i [a Hi]. destruct (decide (id = i)) as [<-|Hne].
    - rewrite lookup_alter_eq, Hi. by eexists.
    - rewrite lookup_alter_ne, Hi by done. by eexists. }
  split_and!; cbn [assigned job_applications status_history application_keywords
                   documents]; eauto.
Qed.

Lemma integrity_recorded (h : StatusHistory.t) :
  is_Some (job_applications s !! StatusHistory.jobApplicationId h) ->
  referential_integrity (recorded h s).
Proof.
  destruct Hint as (Hh & Hk & Hd). intros Hnew.
  split_and!; cbn [recorded job_applications status_history application_keywords
                   documents]; eauto.
  intros h' Hin. apply elem_of_app in Hin as [Hin|Hin]; [by apply Hh|].
  apply list_elem_of_singleton in Hin. by subst.
Qed.

Lemma integrity_cascaded (id : string) :
  referential_integrity (cascaded id s).
Proof.
  destruct Hint as (Hh & Hk & Hd).
  assert (forall i, i <> id -> is_Some (job_applications s !! i) ->
                    is_Some (delete id (job_applications s) !! i)) as Hkeep.
  { intros i Hne Hi. by rewrite lookup_delete_ne. }
  split_and!; cbn [cascaded job_applications status_history application_keywords
                   documents].
  - intros h Hin. apply list_elem_of_filter in Hin as [Hne Hin]. eauto.
  - intros k Hin. apply list_elem_of_filter in Hin as [Hne Hin]. eauto.
  - intros d i Hin Hlink. apply list_elem_of_filter in Hin as [Hne Hin].
    apply Hkeep; [congruence | eauto].
Qed.

(** An id that no application has yet is referenced by no row. *)
Lemma fresh_id_unreferenced (id : string) :
  job_applications s !! id = None ->
  Forall (fun h => StatusHistory.jobApplicationId h <> id) (status_history s)
  /\ Forall (fun k => ApplicationKeyword.jobApplicationId k <> id)
            (application_keywords s)
  /\ Forall (fun d => Document.jobApplicationId d <> Some id) (documents s).
Proof.
  destruct Hint as (Hh & Hk & Hd). intros Hfresh.
  split_and!; apply Forall_forall; intros x Hin Heq.
  - apply Hh in Hin as [a Ha]. congruence.
  - apply Hk in Hin as [a Ha]. congruence.
  - apply (Hd x id) in Hin as [a Ha]; congruence.
Qed.

End Integrity.

Lemma lookup_owned_is_Some (s : Store) (id userId : string) :
  is_Some (lookup_owned s id userId) -> is_Some (job_applications s !! id).
Proof.
  unfold lookup_owned. destruct (job_applications s !! id); [by eexists|].
  by intros [? ?].
Qed.

Lemma perform_keeps_integrity (op : Operation) (flt : Faults) (s : Store) :
  referential_integrity s -> referential_integrity (perform op flt s).2.
Proof.
  intros Hint. unfold perform. cbn [fst snd].
  destruct op as [uuid req|req|req]; cbn [handler].
  - destruct (createApplication_outcomes flt s uuid req _ _ (surjective_pairing _))
      as [[-> _]|(cid & co & _ & _ & _ & [[-> _]|(st & _ & -> & _)])]; [done|..].
    + by apply integrity_inserted.
    + apply integrity_recorded; [by apply integrity_inserted|].
      cbn [inserted job_applications StatusHistory.jobApplicationId].
      rewrite lookup_insert_eq. by eexists.
  - destruct (updateApplication_outcomes flt s req _ _ (surjective_pairing _))
      as [[-> _]|(a & Hl & [[-> _]|(new & _ & _ & ->)])]; [done|..].
    + by apply integrity_assigned.
    + apply integrity_recorded; [by apply integrity_assigned|].
      cbn [assigned job_applications transition_row StatusHistory.jobApplicationId].
      assert (is_Some (job_applications s !! params_id req)) as [a' Ha']
        by (eapply lookup_owned_is_Some; by eexists).
      rewrite lookup_alter_eq, Ha'. by eexists.
  - destruct (deleteApplication_outcomes flt s req _ _ (surjective_pairing _))
      as [->|[_ ->]]; [done|].
    by apply integrity_cascaded.
Qed.

(** Whatever the requests answer and whichever statements reject, no
    sequence of creations, updates and deletions leaves a ledger row, a
    keyword link or a linked document without its application. *)
Theorem referential_integrity_preserved (ops : list (Operation * Faults))
    (s : Store) :
  referential_integrity s -> referential_integrity (replay ops s).
Proof.
  revert s. induction ops as [|[op flt] rest IH]; intros s Hint; [done|].
  cbn [replay]. by apply IH, perform_keeps_integrity.
Qed.

Lemma sample_integrity : referential_integrity Sample.tracked.
Proof.
  split_and!.
  - intros h Hin. cbn [Sample.tracked status_history] in Hin.
    each_member Hin; vm_compute; by eexists.
  - intros k Hin. cbn [Sample.tracked application_keywords] in Hin.
    each_member Hin; vm_compute; by eexists.
  - intros d id Hin Hlink. cbn [Sample.tracked documents] in Hin.
    each_member Hin; cbn in Hlink; simplify_eq; vm_compute; by eexists.
Qed.

Lemma referential_integrity_preserved_witness :
  referential_integrity
    (replay
       [ (UpdateApplication
            (Sample.request Sample.alice "a1" (Sample.statusBody "Applied")),
          failAt 2);
         (DeleteApplication (Sample.request Sample.bob "a2" Sample.emptyBody),
          noFaults) ]
       Sample.tracked).
Proof. apply referential_integrity_preserved, sample_integrity. Defined.

(** ** The ledger as a chain *)

Lemma filter_all {A} (P : A -> Prop) `{!forall x, Decision (P x)} (l : list A) :
  Forall P l -> filter P l = l.
Proof.
  induction 1 as [|x l' Hx _ IH]; [done|].
  by rewrite filter_cons_True, IH.
Qed.

Lemma filter_none {A} (P : A -> Prop) `{!forall x, Decision (P x)} (l : list A) :
  Forall (fun x => ~ P x) l -> filter P l = [].
Proof.
  induction 1 as [|x l' Hx _ IH]; [done|].
  by rewrite filter_cons_False.
Qed.

Lemma chained_snoc (previous : option string) (l : list StatusHistory.t)
    (h : StatusHistory.t) :
  chained previous l ->
  StatusHistory.fromStatus h
  = match last l with
    | Some x => Some (StatusHistory.toStatus x)
    | None => previous
    end ->
  chained previous (l ++ [h]).
Proof.
  revert previous. induction l as [|x l' IH]; intros previous Hl Hh.
  - cbn in *. done.
  - destruct Hl as [Hx Hl']. cbn [app chained]. split; [done|].
    apply IH; [done|]. rewrite last_cons in Hh. by destruct (last l').
Qed.

Lemma referencing_none_after_destroy (id : string) (l : list StatusHistory.t) :
  filter (fun h => StatusHistory.jobApplicationId h = id)
         (filter (fun h => StatusHistory.jobApplicationId h <> id) l) = [].
Proof.
  apply filter_none, Forall_forall. intros h Hin.
  by apply list_elem_of_filter in Hin as [Hne _].
Qed.

Section Chain.

Variable s : Store.
Hypothesis Hwf : ledger_wellformed s.

Lemma chained_created (id : string) (a : JobApplication.t) (st : string) :
  job_applications s !! id = None ->
  ledger_chained
    (recorded (StatusHistory.mk id None st "User" None) (inserted id a s)).
Proof.
  destruct Hwf as (Hcons & Hint & Hch). intros Hfresh id'.
  cbn [recorded inserted status_history].
  destruct (decide (id' = id)) as [->|Hne].
  - rewrite filter_app, filter_cons_True, filter_nil by done.
    rewrite filter_none; [done|].
    by apply (fresh_id_unreferenced s Hint id).
  - rewrite referencing_snoc_other by (cbn; congruence). apply Hch.
Qed.

Lemma chained_transition (req : Request) (a : JobApplication.t) (new : string) :
  lookup_owned s (params_id req) (user req) = Some a ->
  ledger_chained
    (recorded (transition_row req a new) (assigned (params_id req) (body req) s)).
Proof.
  destruct Hwf as (Hcons & Hint & Hch). intros Hl id'.
  cbn [recorded assigned status_history].
  destruct (decide (id' = params_id req)) as [->|Hne].
  - rewrite filter_app, filter_cons_True, filter_nil by done.
    apply chained_snoc; [apply Hch|].
    apply lookup_owned_Some in Hl as [Ha _].
    destruct (Hcons _ _ Ha) as (h & Hlast & Hst). unfold latest in Hlast.
    rewrite Hlast. done.
  - rewrite referencing_snoc_other by (cbn; congruence). apply Hch.
Qed.

Lemma chained_cascaded (id : string) : ledger_chained (cascaded id s).
Proof.
  destruct Hwf as (Hcons & Hint & Hch). intros id'. cbn [cascaded status_history].
  destruct (decide (id' = id)) as [->|Hne].
  - by rewrite referencing_none_after_destroy.
  - rewrite referencing_after_destroy by done. apply Hch.
Qed.

Lemma perform_keeps_chain (op : Operation) (flt : Faults) :
  statusCode (perform op flt s).1 <> Some 500%nat ->
  ledger_chained (perform op flt s).2.
Proof.
  pose proof Hwf as (Hcons & Hint & Hch).
  unfold perform. cbn [fst snd]. destruct op as [uuid req|req|req]; cbn [handler].
  - destruct (createApplication_outcomes flt s uuid req _ _ (surjective_pairing _))
      as [[-> _]|(cid & co & _ & _ & Hfresh
                  & [[_ H500]|(st & _ & -> & _)])]; [done|done|].
    intros _. by apply chained_created.
  - destruct (updateApplication_outcomes flt s req _ _ (surjective_pairing _))
      as [[-> _]|(a & Hl & [[-> _]|(new & _ & _ & ->)])]; [done|done|].
    intros _. by apply chained_transition.
  - destruct (deleteApplication_outcomes flt s req _ _ (surjective_pairing _))
      as [->|[_ ->]]; [done|].
    intros _. apply chained_cascaded.
Qed.

End Chain.

Lemma perform_keeps_wellformed (op : Operation) (flt : Faults) (s : Store) :
  ledger_wellformed s ->
  statusCode (perform op flt s).1 <> Some 500%nat ->
  ledger_wellformed (perform op flt s).2.
Proof.
  intros Hwf H500. pose proof Hwf as (Hcons & Hint & Hch). split_and!.
  - unfold perform in *. cbn [fst snd] in *.
    destruct op as [uuid req|req|req]; cbn [handler] in *.
    + eapply createApplication_keeps_ledger; [done | apply surjective_pairing | done].
    + eapply updateApplication_keeps_ledger; [done | apply surjective_pairing | done].
    + eapply deleteApplication_keeps_ledger; [done | apply surjective_pairing].
  - by apply perform_keeps_integrity.
  - by apply perform_keeps_chain.
Qed.

(** From a well-formed ledger, a sequence of creations, updates and
    deletions none of which answered 500 leaves a well-formed ledger:
    every application has ledger rows; the first of them starts from null,
    each next one starts from the status the one before led to, and the
    last one leads to the live status of the application. *)
Theorem ledger_wellformed_preserved (ops : list (Operation * Faults)) (s : Store) :
  ledger_wellformed s ->
  never_500 ops s ->
  ledger_wellformed (replay ops s).
Proof.
  revert s. induction ops as [|[op flt] rest IH]; intros s Hwf Hok; [done|].
  destruct Hok as [H500 Hrest]. cbn [replay].
  apply IH; [by apply perform_keeps_wellformed | done].
Qed.

Lemma fresh_wellformed : ledger_wellformed Sample.fresh.
Proof.
  split_and!.
  - intros id a Hin. cbn [Sample.fresh job_applications] in Hin.
    by rewrite lookup_empty in Hin.
  - split_and!; cbn [Sample.fresh status_history application_keywords documents];
      intros ? *; by rewrite elem_of_nil.
  - intros id. done.
Qed.

Lemma ledger_wellformed_preserved_witness :
  ledger_wellformed
    (replay
       [ (CreateApplication "a1"
            (Sample.request Sample.alice ""
               (Sample.newApplication None None None)), noFaults);
         (UpdateApplication
            (Sample.request Sample.alice "a1" (Sample.statusBody "Applied")),
          noFaults);
         (UpdateApplication
            (Sample.request Sample.alice "a1" (Sample.statusBody "Rejected")),
          noFaults) ]
       Sample.fresh).
Proof.
  apply ledger_wellformed_preserved; [apply fresh_wellformed|].
  vm_compute. split_and!; try done; discriminate.
Defined.

(** ** Creation, and deletion after it *)

(** A POST that answers 201 found the company, drew an id that no
    application had, and stored exactly two rows: the application, owned by
    the requester and with "Interested" as its status when the body names
    none, and its initial ledger row, from null to that status and changed
    by "User". The response carries that application with its company. *)
Theorem createApplication_created (uuid : string) (req : Request)
    (flt : Faults) (s : Store) :
  let id := default uuid (Body.id (body req)) in
  let run := perform (CreateApplication uuid req) flt s in
  statusCode run.1 = Some 201%nat ->
  exists cid co st,
    Body.companyId (body req) = Some cid
    /\ companies s !! cid = Some co
    /\ job_applications s !! id = None
    /\ st = default "Interested"%string (Body.statusValue (body req))
    /\ run.2
       = recorded (StatusHistory.mk id None st "User" None)
           (inserted id
              (JobApplication.mk (user req) cid (Some st)
                 (Body.salaryMin (body req)) (Body.salaryMax (body req))) s)
    /\ returned run.1
       = Some (mkApplicationJson id
                 (JobApplication.mk (user req) cid (Some st)
                    (Body.salaryMin (body req)) (Body.salaryMax (body req)))
                 (Some co) None).
Proof.
  intros id run H201. subst id run. unfold perform in *. cbn [fst snd handler] in *.
  destruct (createApplication_outcomes flt s uuid req _ _ (surjective_pairing _))
    as [[_ Hno]|(cid & co & Hcid & Hco & Hfresh
                 & [[_ H500]|(st & Hst & Hc & [H500|Hr])])]; [congruence..|].
  exists cid, co, st.
  assert (st = default "Interested"%string (Body.statusValue (body req))
          /\ applicationData req cid
             = JobApplication.mk (user req) cid (Some st)
                 (Body.salaryMin (body req)) (Body.salaryMax (body req)))
    as [Hdef Hrow].
  { unfold applicationData in *. cbn [JobApplication.status] in Hst.
    unfold Body.statusValue. destruct (Body.status (body req)) as [[v|]|];
      cbn in Hst |- *; simplify_eq; done. }
  rewrite Hc, Hr, Hrow. done.
Qed.

Lemma createApplication_created_witness :
  let run :=
    perform (CreateApplication "a3"
               (Sample.request Sample.alice ""
                  (Sample.newApplication None (Some 40000) None)))
            noFaults Sample.tracked in
  exists cid co st,
    Some Sample.acme = Some cid
    /\ companies Sample.tracked !! cid = Some co
    /\ job_applications Sample.tracked !! "a3"%string = None
    /\ st = "Interested"%string
    /\ run.2
       = recorded (StatusHistory.mk "a3" None st "User" None)
           (inserted "a3"
              (JobApplication.mk Sample.alice cid (Some st) (Some 40000) None)
              Sample.tracked)
    /\ returned run.1
       = Some (mkApplicationJson "a3"
                 (JobApplication.mk Sample.alice cid (Some st) (Some 40000) None)
                 (Some co) None).
Proof.
  apply (createApplication_created "a3"
           (Sample.request Sample.alice ""
              (Sample.newApplication None (Some 40000) None))
           noFaults Sample.tracked).
  vm_compute. reflexivity.
Defined.

(** DELETE with no rejected statement, on an application of the
    requester. *)
Lemma deleteApplication_succeeds (req : Request) (flt : Faults) (s : Store) :
  is_Some (lookup_owned s (params_id req) (user req)) ->
  (forall k, (k < 7)%nat -> flt k = false) ->
  perform (DeleteApplication req) flt s
  = (Json 200 NoData, cascaded (params_id req) s).
Proof.
  intros [a Hl] Hflt. unfold perform. cbn [handler]. run_handler.
  rewrite (Hflt 0%nat) by lia. sim. rewrite (Hflt 1%nat) by lia. sim.
  rewrite Hl. sim.
  rewrite (Hflt 2%nat) by lia. sim. rewrite (Hflt 3%nat) by lia. sim.
  rewrite (Hflt 4%nat) by lia. sim. rewrite (Hflt 5%nat) by lia. sim.
  rewrite (Hflt 6%nat) by lia. sim. reflexivity.
Qed.

Lemma cascaded_created (id : string) (a : JobApplication.t) (h : StatusHistory.t)
    (s : Store) :
  referential_integrity s ->
  job_applications s !! id = None ->
  StatusHistory.jobApplicationId h = id ->
  cascaded id (recorded h (inserted id a s)) = s.
Proof.
  intros Hint Hfresh Hh.
  destruct (fresh_id_unreferenced s Hint id Hfresh) as (Hh' & Hk & Hd).
  destruct s as [co apps hist kws docs].
  unfold cascaded, recorded, inserted.
  cbn [companies job_applications status_history application_keywords documents]
    in *.
  f_equal.
  - by apply delete_insert_id.
  - rewrite filter_app, filter_cons_False, filter_nil, app_nil_r
      by (intros ?; done).
    by apply filter_all.
  - by apply filter_all.
  - by apply filter_all.
Qed.

(** Deleting an application right after its creation restores the
    database: in a database where every child row has its application, a
    POST that answered 201 followed by the requester's DELETE of the new
    id, with no rejected statement, leaves every table as it was before
    the POST. *)
Theorem deleteApplication_undoes_createApplication (uuid : string)
    (req del : Request) (flt flt' : Faults) (s : Store) :
  referential_integrity s ->
  statusCode (perform (CreateApplication uuid req) flt s).1 = Some 201%nat ->
  user del = user req ->
  params_id del = default uuid (Body.id (body req)) ->
  (forall k, (k < 7)%nat -> flt' k = false) ->
  perform (DeleteApplication del) flt'
          (perform (CreateApplication uuid req) flt s).2
  = (Json 200 NoData, s).
Proof.
  intros Hint H201 Huser Hid Hflt.
  change (perform (CreateApplication uuid req) flt s).2
    with (visible (serve (createApplication uuid req) flt s).2).
  change (statusCode (serve (createApplication uuid req) flt s).1 = Some 201%nat)
    in H201.
  destruct (createApplication_outcomes flt s uuid req _ _ (surjective_pairing _))
    as [[_ Hno]|(cid & co & Hcid & Hco & Hfresh
                 & [[_ H500]|(st & Hst & Hc & [H500|Hr])])]; [congruence..|].
  rewrite Hc. rewrite deleteApplication_succeeds; [|rewrite Hid, Huser|done].
  - rewrite Hid. f_equal. by apply cascaded_created.
  - unfold lookup_owned, owned_by. cbn [recorded inserted job_applications].
    rewrite lookup_insert_eq. cbn [applicationData JobApplication.userId].
    rewrite bool_decide_eq_true_2 by done. by eexists.
Qed.

Lemma deleteApplication_undoes_createApplication_witness :
  perform (DeleteApplication (Sample.request Sample.alice "a3" Sample.emptyBody))
          noFaults
          (perform (CreateApplication "a3"
                      (Sample.request Sample.alice ""
                         (Sample.newApplication None None None)))
                   noFaults Sample.tracked).2
  = (Json 200 NoData, Sample.tracked).
Proof.
  apply deleteApplication_undoes_createApplication;
    [apply sample_integrity | vm_compute; reflexivity | reflexivity..| done].
Defined.

(** ** Repeating an update *)

Lemma assign_idempotent (b : Body.t) (a : JobApplication.t) :
  assign b (assign b a) = assign b a.
Proof.
  unfold assign. cbn.
  destruct (Body.userId b), (Body.companyId b), (Body.status b),
    (Body.salaryMin b), (Body.salaryMax b); reflexivity.
Qed.

(** The range check of PUT passes on the row it has just written. *)
Lemma range_valid_after_assign (b : Body.t) (a : JobApplication.t) :
  salaryRangeInvalid (JS.orElse (Body.salaryMin b) (JobApplication.salaryMin a))
                     (JS.orElse (Body.salaryMax b) (JobApplication.salaryMax a))
  = false ->
  salaryRangeInvalid
    (JS.orElse (Body.salaryMin b) (JobApplication.salaryMin (assign b a)))
    (JS.orElse (Body.salaryMax b) (JobApplication.salaryMax (assign b a)))
  = false.
Proof.
  unfold assign, salaryRangeInvalid, JS.orElse, JS.truthyNumber.
  cbn [JobApplication.salaryMin JobApplication.salaryMax].
  destruct (Body.salaryMin b) as [x|], (Body.salaryMax b) as [y|];
    try destruct (Z.eqb_spec x 0); try destruct (Z.eqb_spec y 0);
    cbn [negb andb]; subst; try done;
    destruct (JobApplication.salaryMin a) as [x'|],
             (JobApplication.salaryMax a) as [y'|];
    try destruct (Z.eqb_spec x' 0); try destruct (Z.eqb_spec y' 0);
    cbn [negb andb]; subst; try done;
    rewrite ?andb_false_r; try done;
    repeat match goal with
           | |- context [?u =? 0] => destruct (Z.eqb_spec u 0); try lia
           end; cbn [negb andb]; done.
Qed.

Lemma assigned_fixed (id : string) (b : Body.t) (a : JobApplication.t) (s : Store) :
  job_applications s !! id = Some a ->
  assign b a = a ->
  assigned id b s = s.
Proof.
  intros Ha Hfix. destruct s as [co apps hist kws docs].
  unfold assigned. cbn [companies job_applications status_history
                        application_keywords documents] in *.
  f_equal. apply map_eq. intros i. destruct (decide (id = i)) as [<-|Hne].
  - by rewrite lookup_alter_eq, Ha; cbn; rewrite Hfix.
  - by rewrite lookup_alter_ne.
Qed.

(** A PUT that answered 200: what it found and what it answered. *)
Lemma updateApplication_200_inv (req : Request) (flt : Faults) (s : Store)
    (r : Response) (c : Conn) :
  serve (updateApplication req) flt s = (r, c) ->
  statusCode r = Some 200%nat ->
  exists a,
    put_validators req = true
    /\ lookup_owned s (params_id req) (user req) = Some a
    /\ salaryRangeInvalid
         (JS.orElse (Body.salaryMin (body req)) (JobApplication.salaryMin a))
         (JS.orElse (Body.salaryMax (body req)) (JobApplication.salaryMax a))
       = false
    /\ r = Json 200
             (ApplicationData
                (Some (mkApplicationJson (params_id req) (assign (body req) a)
                         (companies s
                            !! JobApplication.companyId (assign (body req) a))
                         None)))
    /\ (visible c = assigned (params_id req) (body req) s
        \/ exists new,
             visible c = recorded (transition_row req a new)
                                  (assigned (params_id req) (body req) s)).
Proof.
  run_handler. intros Hrun H200.
  destruct (put_validators req) eqn:Hval; norm Hrun; [|by simplify_eq].
  step Hrun; [by simplify_eq|].
  destruct (lookup_owned s (params_id req) (user req)) as [a|] eqn:Hl;
    [|by simplify_eq].
  destruct (salaryRangeInvalid _ _) eqn:Hrange; [by simplify_eq|].
  step Hrun; [by simplify_eq|].
  pose proof Hl as Hl'. apply lookup_owned_Some in Hl' as [Ha _].
  exists a. split_and!; [done..| |].
  - destruct (JS.truthy (Body.statusValue (body req))
              && negb (bool_decide (Body.statusValue (body req)
                                    = JobApplication.status a)));
      [destruct (Body.statusValue (body req)); norm Hrun|];
      repeat (step Hrun; [by simplify_eq|]); simplify_eq; try done;
      cbn [job_applications companies]; by rewrite lookup_alter_eq, Ha.
  - destruct (JS.truthy (Body.statusValue (body req))
              && negb (bool_decide (Body.statusValue (body req)
                                    = JobApplication.status a)));
      [destruct (Body.statusValue (body req)) as [new|]; norm Hrun|];
      repeat (step Hrun; [by simplify_eq|]); simplify_eq; try done;
      [right; by exists new | by left].
Qed.

(** PUT with no rejected statement on a row that the body leaves as it
    is: nothing is written to the ledger, and the row is answered. *)
Lemma updateApplication_fixed (req : Request) (flt : Faults) (s : Store)
    (a : JobApplication.t) :
  put_validators req = true ->
  lookup_owned s (params_id req) (user req) = Some a ->
  assign (body req) a = a ->
  salaryRangeInvalid
    (JS.orElse (Body.salaryMin (body req)) (JobApplication.salaryMin a))
    (JS.orElse (Body.salaryMax (body req)) (JobApplication.salaryMax a))
  = false ->
  (forall k, (k < 3)%nat -> flt k = false) ->
  perform (UpdateApplication req) flt s
  = (Json 200
       (ApplicationData
          (Some (mkApplicationJson (params_id req) a
                   (companies s !! JobApplication.companyId a) None))), s).
Proof.
  intros Hval Hl Hfix Hrange Hflt.
  pose proof Hl as Hl'. apply lookup_owned_Some in Hl' as [Ha _].
  assert (JS.truthy (Body.statusValue (body req))
          && negb (bool_decide (Body.statusValue (body req)
                                = JobApplication.status a)) = false) as Hc.
  { rewrite <- Hfix. unfold assign, Body.statusValue.
    cbn [JobApplication.status].
    destruct (Body.status (body req)) as [v|]; cbn [default]; [|done].
    rewrite bool_decide_eq_true_2 by done. apply andb_false_r. }
  unfold perform. cbn [handler]. run_handler.
  rewrite Hval. sim. rewrite (Hflt 0%nat) by lia. sim. rewrite Hl, Hrange. sim.
  rewrite (Hflt 1%nat) by lia. sim. rewrite Hc. sim.
  rewrite (Hflt 2%nat) by lia. sim.
  cbn [job_applications companies].
  rewrite lookup_alter_eq, Ha. cbn [fmap option_fmap option_map]. rewrite Hfix.
  f_equal. by apply assigned_fixed with a.
Qed.

(** PUT is idempotent: when a PUT that does not hand the application to
    another user has answered 200, the same PUT again, with no rejected
    statement, answers the same and changes nothing; in particular it
    writes no second ledger row. *)
Theorem updateApplication_idempotent (req : Request) (flt flt' : Faults)
    (s : Store) :
  default (user req) (Body.userId (body req)) = user req ->
  statusCode (perform (UpdateApplication req) flt s).1 = Some 200%nat ->
  (forall k, (k < 3)%nat -> flt' k = false) ->
  perform (UpdateApplication req) flt' (perform (UpdateApplication req) flt s).2
  = perform (UpdateApplication req) flt s.
Proof.
  intros Hown H200 Hflt.
  destruct (updateApplication_200_inv req flt s _ _ (surjective_pairing _) H200)
    as (a & Hval & Hl & Hrange & Hr & Hc).
  change (perform (UpdateApplication req) flt s)
    with ((serve (updateApplication req) flt s).1,
          visible (serve (updateApplication req) flt s).2).
  cbn [fst snd]. rewrite Hr.
  pose proof Hl as Hl'. apply lookup_owned_Some in Hl' as [Ha Hu].
  set (s1 := visible (serve (updateApplication req) flt s).2) in *.
  assert (job_applications s1 = alter (assign (body req)) (params_id req)
                                      (job_applications s)
          /\ companies s1 = companies s) as [Happs Hco].
  { destruct Hc as [->|[new ->]]; done. }
  assert (lookup_owned s1 (params_id req) (user req)
          = Some (assign (body req) a)) as Hl1.
  { unfold lookup_owned, owned_by. rewrite Happs, lookup_alter_eq, Ha.
    cbn [fmap option_fmap option_map].
    rewrite bool_decide_eq_true_2; [done|].
    unfold assign. cbn [JobApplication.userId]. by rewrite Hu. }
  rewrite (updateApplication_fixed req flt' s1 (assign (body req) a));
    [by rewrite Hco | done | done | apply assign_idempotent
    | by apply range_valid_after_assign | done].
Qed.

Lemma updateApplication_idempotent_witness :
  let put :=
    UpdateApplication (Sample.request Sample.alice "a1" (Sample.statusBody "Applied")) in
  perform put noFaults (perform put noFaults Sample.tracked).2
  = perform put noFaults Sample.tracked.
Proof.
  intros put. apply updateApplication_idempotent;
    [reflexivity | vm_compute; reflexivity | done].
Defined.

(** ** The counts of the overview *)

Lemma length_filter_mono {A} (P Q : A -> Prop) `{!forall x, Decision (P x)}
    `{!forall x, Decision (Q x)} (l : list A) :
  (forall x, P x -> Q x) ->
  (length (filter P l) <= length (filter Q l))%nat.
Proof.
  intros Himp. induction l as [|x l' IH]; [done|].
  rewrite !filter_cons. destruct (decide (P x)) as [Hp|Hp].
  - rewrite decide_True by auto. cbn [length]. lia.
  - destruct (decide (Q x)); cbn [length]; lia.
Qed.

Lemma count_owned (userId : string) (s : Store) :
  Z.of_nat (size (filter (fun kv : string * JobApplication.t =>
                            owned_by userId kv.2 = true)
                         (job_applications s)))
  = totalCount userId s.
Proof.
  unfold totalCount. rewrite size_filter_map_to_list. do 2 f_equal.
  apply list_filter_iff. intros [i a]. cbn [snd].
  unfold owned_by. by rewrite bool_decide_eq_true.
Qed.

(** The overview answers the number of the requester's applications as
    [totalApplications]; and of these, the ones counted as responses are
    among the ones counted as applied, so that the rate is computed from a
    numerator that never exceeds its denominator. *)
Theorem getOverviewStats_counts (req : Request) (flt : Faults) (s : Store)
    (r : Response) (c : Conn) :
  serve (getOverviewStats req) flt s = (r, c) ->
  statusCode r = Some 200%nat ->
  r = Json 200
        (OverviewData (totalCount (user req) s)
           (responseRate (responseCount (user req) s)
                         (appliedCount (user req) s)))
  /\ 0 <= responseCount (user req) s
     <= appliedCount (user req) s
  /\ appliedCount (user req) s <= totalCount (user req) s.
Proof.
  intros Hrun H200. split.
  - revert Hrun. run_handler. intros Hrun.
    do 6 (step Hrun; [by simplify_eq|]).
    simplify_eq. by rewrite count_owned, count_applied, count_responded.
  - unfold responseCount, appliedCount, totalCount. split; [split; [lia|]|].
    + apply inj_le, length_filter_mono. intros [i a]. cbn [snd].
      intros [Hu Hst]. split; [done|].
      apply list_elem_of_fmap in Hst as (st & -> & Hin).
      split; [done|]. intros [= ->]. unfold responseStatuses in Hin.
      each_member Hin; discriminate.
    + apply inj_le, length_filter_mono. intros [i a]. cbn [snd]. by intros [Hu _].
Qed.

Lemma getOverviewStats_counts_witness :
  let run := serve (getOverviewStats
                      (Sample.request Sample.bob "" Sample.emptyBody))
                   noFaults Sample.tracked in
  run.1 = Json 200
            (OverviewData (totalCount Sample.bob Sample.tracked)
               (responseRate (responseCount Sample.bob Sample.tracked)
                             (appliedCount Sample.bob Sample.tracked)))
  /\ 0 <= responseCount Sample.bob Sample.tracked
     <= appliedCount Sample.bob Sample.tracked
  /\ appliedCount Sample.bob Sample.tracked <= totalCount Sample.bob Sample.tracked.
Proof.
  intros run.
  apply (getOverviewStats_counts (Sample.request Sample.bob "" Sample.emptyBody)
           noFaults Sample.tracked run.1 run.2 (surjective_pairing _)).
  vm_compute. reflexivity.
Defined.

(** ** Handing an application over *)

(** PUT assigns every column the body names, [userId] included: the owner
    of an application can hand it to another user. With a valid body that
    names another user and no rejected statement, the PUT answers 200,
    the application then belongs to the user named, and the former owner
    no longer finds it: GET answers 404. *)
Theorem updateApplication_reassigns_owner (req : Request) (flt : Faults)
    (s : Store) (a : JobApplication.t) (other : string) :
  lookup_owned s (params_id req) (user req) = Some a ->
  Body.userId (body req) = Some other ->
  other <> user req ->
  put_validators req = true ->
  salaryRangeInvalid
    (JS.orElse (Body.salaryMin (body req)) (JobApplication.salaryMin a))
    (JS.orElse (Body.salaryMax (body req)) (JobApplication.salaryMax a))
  = false ->
  (forall k, (k < 4)%nat -> flt k = false) ->
  let run := perform (UpdateApplication req) flt s in
  statusCode run.1 = Some 200%nat
  /\ JobApplication.userId <$> job_applications run.2 !! params_id req
     = Some other
  /\ is_Some (lookup_owned run.2 (params_id req) other)
  /\ (serve (getApplication req) noFaults run.2).1 = Json 404 NoData.
Proof.
  intros Hl Hother Hne Hval Hrange Hflt run. subst run.
  pose proof Hl as Hl'. apply lookup_owned_Some in Hl' as [Ha _].
  assert (exists r s',
            perform (UpdateApplication req) flt s = (r, s')
            /\ statusCode r = Some 200%nat
            /\ job_applications s'
               = alter (assign (body req)) (params_id req) (job_applications s))
    as (r & s' & -> & H200 & Happs).
  { unfold perform. cbn [handler]. run_handler.
    rewrite Hval. sim. rewrite (Hflt 0%nat) by lia. sim. rewrite Hl, Hrange. sim.
    rewrite (Hflt 1%nat) by lia. sim.
    destruct (JS.truthy (Body.statusValue (body req))
              && negb (bool_decide (Body.statusValue (body req)
                                    = JobApplication.status a))) eqn:Hc.
    - apply andb_true_iff in Hc as [Htruthy _].
      destruct (Body.statusValue (body req)) as [to|]; [|done]. sim.
      rewrite (Hflt 2%nat) by lia. sim. rewrite (Hflt 3%nat) by lia. sim.
      by eexists _, _.
    - sim. rewrite (Hflt 2%nat) by lia. sim. by eexists _, _. }
  cbn [fst snd].
  assert (job_applications s' !! params_id req = Some (assign (body req) a))
    as Hnew by (by rewrite Happs, lookup_alter_eq, Ha).
  assert (JobApplication.userId (assign (body req) a) = other) as Huser
    by (unfold assign; cbn [JobApplication.userId]; by rewrite Hother).
  split_and!.
  - done.
  - rewrite Hnew. cbn [fmap option_fmap option_map]. by rewrite Huser.
  - unfold lookup_owned, owned_by. rewrite Hnew, Huser.
    rewrite bool_decide_eq_true_2 by done. by eexists.
  - run_handler. unfold noFaults. sim.
    unfold lookup_owned, owned_by. rewrite Hnew, Huser.
    by rewrite bool_decide_eq_false_2 by done.
Qed.

Lemma updateApplication_reassigns_owner_witness :
  let req :=
    Sample.request Sample.alice "a1"
      (Body.mk None (Some Sample.bob) None None None None None) in
  let run := perform (UpdateApplication req) noFaults Sample.tracked in
  statusCode run.1 = Some 200%nat
  /\ JobApplication.userId <$> job_applications run.2 !! "a1"%string
     = Some Sample.bob
  /\ is_Some (lookup_owned run.2 "a1" Sample.bob)
  /\ (serve (getApplication req) noFaults run.2).1 = Json 404 NoData.
Proof.
  intros req.
  apply (updateApplication_reassigns_owner req noFaults Sample.tracked
           (JobApplication.mk Sample.alice Sample.acme (Some "Interested"%string)
              (Some 50000) (Some 80000))
           Sample.bob);
    [vm_compute; reflexivity | reflexivity | discriminate | reflexivity
    | reflexivity | done].
Defined.

(** ** The salary range as text *)

(** [getSalaryRange] always returns a string: its four conditions leave
    no case out. It says "Not specified" when both bounds are null or 0,
    and a bound of 0 beside a real one is passed over like a missing one:
    a minimum of 0 with a maximum gives "Up to ...". *)
Theorem getSalaryRange_defined (toLocaleString : Z -> string)
    (salaryCurrency : string) (this : JobApplication.t) :
  is_Some (getSalaryRange toLocaleString salaryCurrency this)
  /\ (JS.truthyNumber (JobApplication.salaryMin this) = false ->
      JS.truthyNumber (JobApplication.salaryMax this) = false ->
      getSalaryRange toLocaleString salaryCurrency this
      = Some "Not specified"%string)
  /\ (forall max,
        JS.truthyNumber (JobApplication.salaryMin this) = false ->
        JobApplication.salaryMax this = Some max -> max <> 0 ->
        getSalaryRange toLocaleString salaryCurrency this
        = Some (String.append "Up to "
                  (String.append salaryCurrency
                     (String.append " " (toLocaleString max))))).
Proof.
  unfold getSalaryRange. split_and!.
  - destruct (JS.truthyNumber (JobApplication.salaryMin this)),
      (JS.truthyNumber (JobApplication.salaryMax this)); by eexists.
  - by intros -> ->.
  - intros max -> Hmax Hne. rewrite Hmax. cbn [JS.truthyNumber default].
    destruct (Z.eqb_spec max 0); done.
Qed.

(** ** The counts of the overview across requests *)

Section Tally.

Variable where_ : JobApplication.t -> bool.

Lemma tally_insert (m : gmap string JobApplication.t) (id : string)
    (a : JobApplication.t) :
  m !! id = None ->
  tally where_ (<[id := a]> m) = tally where_ m + Z.b2z (where_ a).
Proof.
  intros Hfresh. unfold tally. destruct (where_ a) eqn:Ha.
  - rewrite map_filter_insert_True by done.
    rewrite map_size_insert_None by (by apply map_lookup_filter_None; left).
    cbn [Z.b2z]. lia.
  - rewrite map_filter_insert_False by (cbn; congruence).
    rewrite delete_id by done. cbn [Z.b2z]. lia.
Qed.

Lemma tally_delete (m : gmap string JobApplication.t) (id : string)
    (a : JobApplication.t) :
  m !! id = Some a ->
  tally where_ m = tally where_ (delete id m) + Z.b2z (where_ a).
Proof.
  intros Hfound.
  rewrite <- (insert_delete_id m id a) at 1 by done.
  rewrite tally_insert by apply lookup_delete_eq. done.
Qed.

End Tally.

Lemma counts_tally (u : string) (s : Store) :
  totalCount u s = tally (owned_by u) (job_applications s)
  /\ appliedCount u s = tally (where_applied u) (job_applications s)
  /\ responseCount u s = tally (where_responded u) (job_applications s).
Proof.
  unfold tally. by rewrite count_owned, count_applied, count_responded.
Qed.

(** A DELETE that answered 200. *)
Lemma deleteApplication_200_inv (req : Request) (flt : Faults) (s : Store)
    (r : Response) (c : Conn) :
  serve (deleteApplication req) flt s = (r, c) ->
  statusCode r = Some 200%nat ->
  exists a,
    lookup_owned s (params_id req) (user req) = Some a
    /\ visible c = cascaded (params_id req) s.
Proof.
  run_handler. intros Hrun H200.
  step Hrun; [by simplify_eq|].
  step Hrun; [by try step Hrun; simplify_eq|].
  destruct (lookup_owned s (params_id req) (user req)) as [a|] eqn:Hl.
  - do 5 (step Hrun; [by try step Hrun; simplify_eq|]).
    simplify_eq. by exists a.
  - step Hrun; [by try step Hrun; simplify_eq|]. by simplify_eq.
Qed.

(** The three counts of the overview follow the requests. A POST that
    answered 201 adds one to the requester's total, to the applied count
    when the new status is not "Interested", and to the response count
    when it is a response status, and leaves the counts of every other
    user alone; a DELETE that answered 200 takes the same away again for
    the row it removed. *)
Theorem overview_counts_follow (flt : Faults) (s : Store) (u : string) :
  (forall uuid req,
     let run := perform (CreateApplication uuid req) flt s in
     statusCode run.1 = Some 201%nat ->
     exists v,
       returned run.1 = Some v
       /\ JobApplication.userId (application v) = user req
       /\ totalCount u run.2
          = totalCount u s + Z.b2z (owned_by u (application v))
       /\ appliedCount u run.2
          = appliedCount u s + Z.b2z (where_applied u (application v))
       /\ responseCount u run.2
          = responseCount u s + Z.b2z (where_responded u (application v)))
  /\ (forall req,
        let run := perform (DeleteApplication req) flt s in
        statusCode run.1 = Some 200%nat ->
        exists a,
          lookup_owned s (params_id req) (user req) = Some a
          /\ totalCount u s = totalCount u run.2 + Z.b2z (owned_by u a)
          /\ appliedCount u s = appliedCount u run.2 + Z.b2z (where_applied u a)
          /\ responseCount u s
             = responseCount u run.2 + Z.b2z (where_responded u a)).
Proof.
  split.
  - intros uuid req run H201. subst run. unfold perform in *.
    cbn [fst snd handler] in *.
    destruct (createApplication_outcomes flt s uuid req _ _ (surjective_pairing _))
      as [[_ Hno]|(cid & co & Hcid & Hco & Hfresh
                   & [[_ H500]|(st & Hst & Hc & [H500|Hr])])]; [congruence..|].
    rewrite Hr, Hc. eexists. split; [reflexivity|].
    cbn [application]. split; [done|].
    destruct (counts_tally u s) as (-> & -> & ->).
    destruct (counts_tally u
                (recorded (StatusHistory.mk (default uuid (Body.id (body req))) None
                             st "User" None)
                   (inserted (default uuid (Body.id (body req)))
                      (applicationData req cid) s))) as (-> & -> & ->).
    cbn [recorded inserted job_applications].
    by rewrite !tally_insert by done.
  - intros req run H200. subst run. unfold perform in *.
    cbn [fst snd handler] in *.
    destruct (deleteApplication_200_inv req flt s _ _ (surjective_pairing _) H200)
      as (a & Hl & ->).
    exists a. split; [done|]. apply lookup_owned_Some in Hl as [Ha _].
    destruct (counts_tally u s) as (-> & -> & ->).
    destruct (counts_tally u (cascaded (params_id req) s)) as (-> & -> & ->).
    cbn [cascaded job_applications].
    by rewrite <- !tally_delete by done.
Qed.

(** ** The list route *)

Lemma list_validators_bounds (req : ListRequest) :
  list_validators req = true ->
  1 <= default 1 (Query.page (req_query req))
  /\ 1 <= default 20 (Query.limit (req_query req)) <= 100.
Proof.
  unfold list_validators, isInt_min, isInt_min_max. intros H.
  destruct (Query.page (req_query req)), (Query.limit (req_query req));
    cbn [default]; cbn beta iota in H;
    repeat match goal with
           | H : _ && _ = true |- _ => apply andb_true_iff in H as [? ?]
           end;
    repeat match goal with
           | H : (_ <=? _) = true |- _ => apply Z.leb_le in H
           end; unfold Datatypes.id; lia.
Qed.

Lemma elem_of_take_drop {A} (x : A) (n m : nat) (l : list A) :
  x ∈ take n (drop m l) -> x ∈ l.
Proof.
  intros Hin. apply elem_of_take in Hin as (i & Hi & _).
  rewrite lookup_drop in Hi. by eapply list_elem_of_lookup_2.
Qed.

Lemma NoDup_take_drop_fst {A B} (n m : nat) (l : list (A * B)) :
  NoDup l.*1 -> NoDup (take n (drop m l)).*1.
Proof.
  intros Hnd. rewrite fmap_take, fmap_drop.
  apply (sublist_NoDup _ (l.*1)); [exact Hnd|].
  etrans; [apply sublist_take | apply sublist_drop].
Qed.

Lemma elem_of_matching (where_ : string -> JobApplication.t -> bool) (s : Store)
    (id : string) (a : JobApplication.t) :
  (id, a) ∈ matching where_ s
  <-> job_applications s !! id = Some a /\ where_ id a = true.
Proof.
  unfold matching. rewrite list_elem_of_filter, elem_of_map_to_list. cbn. tauto.
Qed.

Lemma NoDup_matching_ids (where_ : string -> JobApplication.t -> bool) (s : Store) :
  NoDup (matching where_ s).*1.
Proof.
  unfold matching. eapply NoDup_fmap_1 with (f := id).
  rewrite list_fmap_id.
  assert (forall l : list (string * JobApplication.t),
            NoDup l.*1 ->
            NoDup (filter (fun kv => where_ kv.1 kv.2 = true) l).*1) as Hfilter.
  { induction l as [|kv l IH]; [done|]. rewrite fmap_cons, NoDup_cons.
    intros [Hnotin Hnd]. rewrite filter_cons. case_decide.
    - rewrite fmap_cons, NoDup_cons. split; [|by apply IH].
      intros Hin. apply Hnotin. apply list_elem_of_fmap in Hin as (kv' & -> & Hin).
      apply list_elem_of_filter in Hin as [_ Hin].
      apply list_elem_of_fmap. by exists kv'.
    - by apply IH. }
  apply Hfilter, NoDup_fst_map_to_list.
Qed.

Section ListRoute.

Variables (req : ListRequest) (flt : Faults) (s : Store).

Let page := default 1 (Query.page (req_query req)).
Let limit := default 20 (Query.limit (req_query req)).

(** The page of the ordered rows that the request asks for. *)
Let slice : list (string * JobApplication.t) :=
  take (Z.to_nat limit)
       (drop (Z.to_nat ((page - 1) * limit))
             (orderBy req (matching (whereConditions req) s))).

(** What the route answers, case by case. *)
Lemma listApplications_cases (r : option ListResponse) (c : Conn) :
  respond (listApplications req) flt s = (r, c) ->
  visible c = s
  /\ (r = Some (ListJson 400 None) /\ list_validators req = false
      \/ r = Some (ListJson 500 None) /\ flt 0%nat = true
      \/ list_validators req = true /\ flt 0%nat = false
         /\ r = Some (ListJson 200
                        (Some (with_company s <$> slice,
                               {| currentPage := page;
                                  totalPages :=
                                    Math_ceil
                                      (PrimFloat.div
                                         (Number
                                            (Z.of_nat
                                               (length (matching (whereConditions req) s))))
                                         (Number limit));
                                  totalItems :=
                                    Z.of_nat (length (matching (whereConditions req) s));
                                  itemsPerPage := limit;
                                  hasNextPage :=
                                    PrimFloat.ltb (Number page)
                                      (Math_ceil
                                         (PrimFloat.div
                                            (Number
                                               (Z.of_nat
                                                  (length
                                                     (matching (whereConditions req) s))))
                                            (Number limit)));
                                  hasPrevPage := page >? 1 |})))).
Proof.
  subst slice page limit. run_list. intros Hrun.
  destruct (list_validators req) eqn:Hval; norm Hrun.
  - step Hrun; simplify_eq; (split; [done|]); [right; left | right; right]; done.
  - simplify_eq. split; [done|]. by left.
Qed.

(** The list route reads and does not write. Every row of a page is a row
    of the table that belongs to the requester, has the status asked for
    when the query names one, and comes with the company it references; no
    row comes twice; a page has at most [limit] rows, which is at most
    100; and [totalItems] counts the requester's rows that match. The
    route answers 200 when the query is valid and the database answers. *)
Theorem listApplications_own_page (r : option ListResponse) (c : Conn) :
  (forall l, orderBy req l ≡ₚ l) ->
  respond (listApplications req) flt s = (r, c) ->
  visible c = s
  /\ (list_validators req = true -> flt 0%nat = false ->
      exists rows p, r = Some (ListJson 200 (Some (rows, p))))
  /\ forall rows p,
       r = Some (ListJson 200 (Some (rows, p))) ->
       (forall v, v ∈ rows ->
          job_applications s !! application_id v = Some (application v)
          /\ JobApplication.userId (application v) = list_user req
          /\ (forall st, Query.status (req_query req) = Some st -> st <> ""%string ->
                         JobApplication.status (application v) = Some st)
          /\ company v = companies s !! JobApplication.companyId (application v))
       /\ NoDup (application_id <$> rows)
       /\ (length rows <= Z.to_nat (itemsPerPage p))%nat
       /\ 1 <= itemsPerPage p <= 100
       /\ totalItems p
          = Z.of_nat (length (matching (whereConditions req) s)).
Proof.
  intros Hperm Hrun. apply listApplications_cases in Hrun as [Hsame Hr].
  split; [done|]. split.
  { intros Hval Hflt. destruct Hr as [[_ ?]|[[_ ?]|(_ & _ & ->)]]; [congruence..|].
    by eexists _, _. }
  intros rows p ->. destruct Hr as [[[=] _]|[[[=] _]|(Hval & _ & [= -> ->])]].
  apply list_validators_bounds in Hval as [Hpage Hlimit]. fold limit in Hlimit.
  cbn [itemsPerPage totalItems]. split_and!; [|  | |lia..|done].
  - intros v Hv. apply list_elem_of_fmap in Hv as ([id a] & -> & Hin).
    subst slice. apply elem_of_take_drop in Hin. rewrite Hperm in Hin.
    apply elem_of_matching in Hin as [Ha Hwhere].
    unfold whereConditions, owned_by in Hwhere.
    apply andb_true_iff in Hwhere as [Hwhere _].
    apply andb_true_iff in Hwhere as [Howned Hstatus].
    apply bool_decide_eq_true in Howned.
    cbn [with_company application_id application company fst snd].
    split_and!; [done..| |done].
    intros st Hst Hne. rewrite Hst in Hstatus. cbn [JS.truthy] in Hstatus.
    destruct (String.eqb_spec st ""); [done|]. cbn [negb] in Hstatus.
    by apply bool_decide_eq_true in Hstatus.
  - rewrite <- list_fmap_compose.
    replace (application_id ∘ with_company s) with (@fst string JobApplication.t)
      by done.
    subst slice. eapply NoDup_take_drop_fst.
    eapply NoDup_Permutation_proper; [apply fmap_Permutation, Hperm|].
    apply NoDup_matching_ids.
  - rewrite length_fmap. subst slice. rewrite length_take. lia.
Qed.

End ListRoute.

Lemma list_validators_at_page (req : ListRequest) (p : Z) :
  list_validators req = true -> 1 <= p -> list_validators (at_page req p) = true.
Proof.
  unfold list_validators, at_page. cbn. intros H Hp.
  repeat (apply andb_true_iff in H as [H ?]).
  repeat (apply andb_true_iff; split); try done. by apply Z.leb_le.
Qed.

(** The rows of page [p] when the database answers. *)
Lemma listApplications_listed (req : ListRequest) (s : Store) (p : Z) :
  list_validators req = true ->
  1 <= p ->
  listed (respond (listApplications (at_page req p)) noFaults s).1
  = with_company s
      <$> take (Z.to_nat (default 20 (Query.limit (req_query req))))
               (drop (Z.to_nat ((p - 1) * default 20 (Query.limit (req_query req))))
                     (orderBy req (matching (whereConditions req) s))).
Proof.
  intros Hval Hp.
  destruct (listApplications_cases (at_page req p) noFaults s _ _
              (surjective_pairing _))
    as [_ [[_ Hno]|[[_ Hno]|(_ & _ & ->)]]].
  - by rewrite list_validators_at_page in Hno.
  - done.
  - reflexivity.
Qed.

Lemma pages_take {A} (L : nat) (O : list A) (n : nat) :
  mjoin ((fun i => take L (drop (i * L) O)) <$> seq 0 n) = take (n * L) O.
Proof.
  induction n as [|n IH]; [done|].
  rewrite seq_S, fmap_app, join_app, IH. cbn [fmap list_fmap mjoin list_join].
  rewrite app_nil_r, take_take_drop. f_equal. lia.
Qed.


Lemma listApplications_own_page_witness :
  let req := SampleQuery.request Sample.bob (Some "Applied"%string) None None in
  let run := respond (listApplications req) noFaults Sample.tracked in
  visible run.2 = Sample.tracked
  /\ exists rows p, run.1 = Some (ListJson 200 (Some (rows, p))).
Proof.
  intros req run.
  destruct (listApplications_own_page req noFaults Sample.tracked run.1 run.2)
    as (Hsame & H200 & _); [done | apply surjective_pairing |].
  split; [exact Hsame | by apply H200].
Defined.


(** ** The numbers of the pagination *)

Lemma same_double_eq (x y : float) : same_double x y = true -> x = y.
Proof.
  unfold same_double. intros H. apply Prim2SF_inj.
  destruct (Prim2SF x) as [sx|sx| |sx mx ex], (Prim2SF y) as [sy|sy| |sy my ey];
    try done.
  - apply Bool.eqb_prop in H. by subst.
  - apply Bool.eqb_prop in H. by subst.
  - apply andb_true_iff in H as [H He]. apply andb_true_iff in H as [Hs Hm].
    apply Bool.eqb_prop in Hs. apply Pos.eqb_eq in Hm. apply Z.eqb_eq in He.
    by subst.
Qed.

(** Checked by evaluation on every pair. *)
Lemma totalPages_exact_small :
  forallb (fun limit => forallb (totalPages_exact limit) (seqZ 0 301))
          (seqZ 1 100) = true.
Proof. vm_cast_no_check (eq_refl true). Qed.

Lemma less_exact_small :
  forallb (fun a => forallb (less_exact a) (seqZ 0 301)) (seqZ 1 100) = true.
Proof. vm_cast_no_check (eq_refl true). Qed.

Lemma small_pairs (P : Z -> Z -> bool) (a0 a1 b0 b1 : Z) :
  forallb (fun a => forallb (P a) (seqZ b0 b1)) (seqZ a0 a1) = true ->
  forall a b, a0 <= a < a0 + a1 -> b0 <= b < b0 + b1 -> P a b = true.
Proof.
  intros Hall a b Ha Hb. rewrite forallb_forall in Hall.
  specialize (Hall a). rewrite forallb_forall in Hall.
  apply Hall; apply list_elem_of_In, elem_of_seqZ; lia.
Qed.

(** The pagination block tells the truth, up to 300 matching rows and
    page 100: [totalPages], computed on doubles, is the number of pages
    that hold the matching rows; [hasNextPage] holds exactly when rows
    remain after the page; [hasPrevPage] holds on every page but the
    first. *)
Theorem listApplications_pagination (req : ListRequest) (flt : Faults)
    (s : Store) (rows : list ApplicationJson) (p : Pagination) (c : Conn) :
  respond (listApplications req) flt s = (Some (ListJson 200 (Some (rows, p))), c) ->
  totalItems p <= 300 ->
  currentPage p <= 100 ->
  currentPage p = default 1 (Query.page (req_query req))
  /\ itemsPerPage p = default 20 (Query.limit (req_query req))
  /\ totalPages p
     = Number ((totalItems p + itemsPerPage p - 1) / itemsPerPage p)
  /\ hasNextPage p = (currentPage p * itemsPerPage p <? totalItems p)
  /\ hasPrevPage p = (1 <? currentPage p).
Proof.
  intros Hrun. apply listApplications_cases in Hrun
    as [_ [[[=] _]|[[[=] _]|(Hval & _ & [= -> ->])]]].
  apply list_validators_bounds in Hval as [Hpage Hlimit].
  cbn [totalItems currentPage itemsPerPage totalPages hasNextPage hasPrevPage].
  set (page := default 1 (Query.page (req_query req))) in *.
  set (limit := default 20 (Query.limit (req_query req))) in *.
  set (count := Z.of_nat (length (matching (whereConditions req) s))).
  intros Hcount Hp. assert (0 <= count) as Hcount0 by lia.
  assert (Math_ceil (PrimFloat.div (Number count) (Number limit))
          = Number ((count + limit - 1) / limit)) as Hceil.
  { apply same_double_eq.
    apply (small_pairs totalPages_exact 1 100 0 301 totalPages_exact_small); lia. }
  pose proof (Z.div_mod (count + limit - 1) limit ltac:(lia)) as Hdiv.
  pose proof (Z.mod_pos_bound (count + limit - 1) limit ltac:(lia)) as Hmod.
  set (k := (count + limit - 1) / limit) in *.
  assert (0 <= k <= 300) as Hk by nia.
  split_and!; [done | done | exact Hceil | | apply Z.gtb_ltb].
  rewrite Hceil.
  pose proof (small_pairs less_exact 1 100 0 301 less_exact_small page k
                ltac:(lia) ltac:(lia)) as Hless.
  unfold less_exact in Hless. apply Bool.eqb_prop in Hless. rewrite Hless.
  destruct (Z.ltb_spec page k), (Z.ltb_spec (page * limit) count); try done; nia.
Qed.

Lemma listApplications_pagination_witness :
  let req := SampleQuery.request Sample.alice None (Some 1) (Some 1) in
  let run := respond (listApplications req) noFaults Sample.tracked in
  let p := {| currentPage := 1; totalPages := Number 1; totalItems := 1;
              itemsPerPage := 1; hasNextPage := false; hasPrevPage := false |} in
  run = (Some (ListJson 200 (Some (listed run.1, p))), run.2)
  /\ totalPages p = Number ((totalItems p + itemsPerPage p - 1) / itemsPerPage p)
  /\ hasNextPage p = (currentPage p * itemsPerPage p <? totalItems p)
  /\ hasPrevPage p = (1 <? currentPage p).
Proof.
  intros req run p.
  assert (run = (Some (ListJson 200 (Some (listed run.1, p))), run.2)) as Hrun
    by (vm_compute; reflexivity).
  split; [exact Hrun|].
  destruct (listApplications_pagination req noFaults Sample.tracked _ p _ Hrun)
    as (_ & _ & Hpages & Hnext & Hprev); [vm_compute; discriminate..|].
  split_and!; [exact Hpages | exact Hnext | exact Hprev].
Defined.

(** ** The auth middleware *)

Lemma substring_all (s : string) : String.substring 0 (String.length s) s = s.
Proof. induction s as [|c s IH]; [done|]. cbn. by rewrite IH. Qed.

Lemma startsWith_split (prefix s : string) :
  startsWith s prefix = true ->
  s = String.append prefix (substring_from (String.length prefix) s).
Proof.
  unfold startsWith, substring_from. revert s.
  induction prefix as [|a p IH]; intros s Hs.
  - cbn [String.length String.append]. by rewrite Nat.sub_0_r, substring_all.
  - destruct s as [|b s']; [done|]. cbn [String.prefix] in Hs.
    destruct (Ascii.ascii_dec a b) as [<-|]; [|done].
    cbn. unfold String.append. fold String.append. f_equal. by apply IH.
Qed.

Lemma startsWith_append (prefix token : string) :
  startsWith (String.append prefix token) prefix = true
  /\ substring_from (String.length prefix) (String.append prefix token) = token.
Proof.
  unfold startsWith, substring_from.
  induction prefix as [|a p [IH1 IH2]].
  - cbn [String.length String.append]. split; [by destruct token|].
    by rewrite Nat.sub_0_r, substring_all.
  - cbn. unfold String.append. fold String.append. cbn.
    destruct (Ascii.ascii_dec a a); done.
Qed.

Section Auth.

Variables (verify : string -> Verified) (users : gmap string User.t).

(** The middleware lets a request through exactly when its header is
    "Bearer " followed by a token that verifies to the id of a user who
    exists and is active, and the lookup of the user did not fail; the
    request then carries that user's id. In every other case it answers
    401 or 500 itself: a deleted or deactivated user is turned away with
    401 even with a token that verifies. *)
Theorem auth_next_iff (rejects : bool) (authHeader : option string)
    (u : ReqUser.t) :
  (auth verify users rejects authHeader = Next u
   <-> exists token user,
         authHeader = Some (String.append "Bearer " token)
         /\ verify token = Payload (Some (ReqUser.userId u))
         /\ rejects = false
         /\ users !! ReqUser.userId u = Some user
         /\ User.isActive user = true
         /\ u = ReqUser.mk (ReqUser.userId u) (User.email user)
                  (User.firstName user) (User.lastName user))
  /\ (forall code message,
        auth verify users rejects authHeader = Denied code message ->
        code = 401%nat \/ code = 500%nat)
  /\ (forall token id,
        authHeader = Some (String.append "Bearer " token) ->
        verify token = Payload (Some id) ->
        rejects = false ->
        (users !! id = None \/ User.isActive <$> users !! id = Some false) ->
        exists message,
          auth verify users rejects authHeader = Denied 401 message).
Proof.
  assert (forall name code message,
            auth_catch name = Denied code message ->
            code = 401%nat \/ code = 500%nat) as Hcatch.
  { unfold auth_catch. intros name code message.
    repeat case_match; intros [= <- <-]; auto. }
  split_and!.
  - split.
    + unfold auth. destruct authHeader as [header|]; [|done].
      destruct (negb (JS.truthy (Some header)) || negb (startsWith header "Bearer "))
        eqn:Hhead; [done|].
      apply orb_false_iff in Hhead as [_ Hprefix].
      apply negb_false_iff in Hprefix. apply startsWith_split in Hprefix.
      cbn [String.length] in Hprefix.
      destruct (verify (substring_from 7 header)) as [[id|]|name] eqn:Hv;
        [| by destruct rejects; unfold auth_catch; repeat case_match
         | by unfold auth_catch; repeat case_match].
      destruct rejects; [by unfold auth_catch; repeat case_match|].
      cbn [mbind option_bind]. destruct (users !! id) as [user|] eqn:Hu; [|done].
      cbn [fmap option_fmap option_map].
      destruct (User.isActive user) eqn:Hact; [|done].
      cbn [negb]. intros [= <-]. cbn [ReqUser.userId].
      exists (substring_from 7 header), user. by rewrite <- Hprefix.
    + intros (token & user & -> & Hv & -> & Hu & Hact & ->).
      cbn [ReqUser.userId] in *. unfold auth.
      destruct (startsWith_append "Bearer " token) as [Hp Hs].
      cbn [String.length] in Hs. rewrite Hp, Hs, Hv.
      cbn [JS.truthy negb orb mbind option_bind].
      rewrite Hu. cbn [fmap option_fmap option_map]. by rewrite Hact.
  - intros code message. unfold auth.
    repeat case_match; try (intros [= <- <-]; auto); try done; apply Hcatch.
  - intros token id -> Hv -> Hu. unfold auth.
    destruct (startsWith_append "Bearer " token) as [Hp Hs].
    cbn [String.length] in Hs. rewrite Hp, Hs, Hv.
    cbn [JS.truthy negb orb mbind option_bind].
    destruct (users !! id) as [user|]; cbn [fmap option_fmap option_map] in *.
    + destruct Hu as [[=]|[= ->]]. by eexists.
    + by eexists.
Qed.

End Auth.

Lemma auth_next_iff_witness :
  auth SampleAuth.verify SampleAuth.users false (Some "Bearer t-alice"%string)
  = Next (ReqUser.mk Sample.alice "alice@example.org" "Alice" "A")
  /\ exists message,
       auth SampleAuth.verify SampleAuth.users false (Some "Bearer t-bob"%string)
       = Denied 401 message.
Proof.
  split.
  - apply (auth_next_iff SampleAuth.verify SampleAuth.users).
    exists "t-alice"%string, (User.mk "alice@example.org" "Alice" "A" true).
    split_and!; reflexivity.
  - apply (proj2 (proj2 (auth_next_iff SampleAuth.verify SampleAuth.users false
                           (Some "Bearer t-bob"%string)
                           (ReqUser.mk "" "" "" "")))
             "t-bob"%string Sample.bob); [reflexivity..|].
    right. vm_compute. reflexivity.
Defined.

(** ** The document routes *)

Module DocumentProperties.
Import DocumentRoutes.

(** No upload creates a document. Without a file the route answers 400
    and touches nothing. With a file the creation is rejected, whatever
    the file, the body and the database, because the route leaves the
    columns [filePath], [fileName] and [fileSize] without a value; the
    route then removes the uploaded file and answers 500, or answers
    nothing when the removal throws. The table is the same in every
    case. *)
Theorem upload_never_creates (validName : string -> bool) (uuid : string)
    (rejects unlinkThrows : bool) (req : UploadRequest) (st : State) :
  let run := upload validName uuid rejects unlinkThrows req st in
  table run.2 = table st
  /\ (forall r, run.1 = Some r -> code r = 400%nat \/ code r = 500%nat)
  /\ (file req = None -> run = (Some (Json 400 []), st))
  /\ (forall f, file req = Some f ->
        (unlinkThrows = false ->
         run.1 = Some (Json 500 []) /\ files run.2 = files st ∖ {[ path f ]})
        /\ (unlinkThrows = true ->
            (path f ∈ files st -> run = (None, st))
            /\ ((path f ∉ files st) -> run = (Some (Json 500 []), st)))).
Proof.
  intros run. subst run. unfold upload, Document_create.
  cbn [Values.userId Values.name Values.type Values.filePath Values.fileName
       Values.fileSize Values.mimeType].
  destruct (file req) as [f|];
    [|split_and!; [done | intros r [= <-]; by left | done..]].
  unfold existsSync, unlinkSync.
  destruct (decide (path f ∈ files st)) as [Hin|Hnotin].
  - rewrite bool_decide_eq_true_2 by done. destruct unlinkThrows.
    + split_and!; [done..|]. intros f' [= <-]. split; [done|]. by intros _.
    + split_and!; [done | intros r [= <-]; by right | done |].
      intros f' [= <-]. split; [done|]. done.
  - rewrite bool_decide_eq_false_2 by done.
    split_and!; [done | intros r [= <-]; by right | done |].
    intros f' [= <-]. split.
    + intros _. split; [done|]. cbn [snd files]. apply set_eq. intros x.
      rewrite elem_of_difference, elem_of_singleton.
      split; [intros ?; split; [done | congruence] | tauto].
    + intros _. split; [done|]. done.
Qed.

Lemma deactivate_inactive (d : Stored) :
  Document.isActive (document (deactivate d)) = false
  /\ Document.userId (document (deactivate d)) = Document.userId (document d)
  /\ id (deactivate d) = id d
  /\ deactivate (deactivate d) = deactivate d.
Proof. done. Qed.

Lemma findOne_Some (id_ userId : string) (st : State) (d : Stored) :
  Document_findOne id_ userId st = Some d ->
  d ∈ table st /\ id d = id_ /\ Document.userId (document d) = userId.
Proof.
  unfold Document_findOne. intros Hhead. apply head_Some_elem_of in Hhead.
  apply list_elem_of_filter in Hhead. tauto.
Qed.

(** The lists of the active documents after the row [id_] is
    deactivated. *)
Lemma active_after_deactivate (id_ userId : string) (l : list Stored) :
  filter (fun d => Document.userId (document d) = userId
                   /\ Document.isActive (document d) = true)
         ((fun d => if bool_decide (id d = id_) then deactivate d else d) <$> l)
  = filter (fun d => id d <> id_)
           (filter (fun d => Document.userId (document d) = userId
                             /\ Document.isActive (document d) = true) l).
Proof.
  induction l as [|d l IH]; [done|]. rewrite fmap_cons.
  destruct (decide (id d = id_)) as [Heq|Hne].
  - rewrite bool_decide_eq_true_2 by done.
    rewrite filter_cons_False by (intros [_ [=]]).
    rewrite IH. rewrite (filter_cons _ d). case_decide; [|done].
    by rewrite filter_cons_False by (intros ?; done).
  - rewrite bool_decide_eq_false_2 by done.
    rewrite !(filter_cons _ d). case_decide.
    + by rewrite filter_cons_True, IH by done.
    + exact IH.
Qed.

(** Deletion is a soft delete, and the file stays. DELETE never removes a
    row or a file. When it answers 200, the document belonged to the
    requester and is gone from the requester's list, which is otherwise
    the same, and the lists of all other users are the same; the same
    DELETE again answers 200 again and changes nothing. When it answers
    anything else, nothing has changed. *)
Theorem deleteDocument_soft (flt : Faults) (unlinkThrows : bool)
    (req : DeleteRequest) (st : State) :
  keyed st ->
  let run := deleteDocument flt unlinkThrows req st in
  files run.2 = files st
  /\ id <$> table run.2 = id <$> table st
  /\ (code run.1 <> 200%nat -> run.2 = st)
  /\ (code run.1 = 200%nat ->
      (exists d, d ∈ table st /\ id d = delete_id req
                 /\ Document.userId (document d) = delete_user req)
      /\ listed (listDocuments noFaults (delete_user req) run.2)
         = filter (fun d => id d <> delete_id req)
                  (listed (listDocuments noFaults (delete_user req) st))
      /\ (forall u, u <> delete_user req ->
            listDocuments noFaults u run.2 = listDocuments noFaults u st)
      /\ deleteDocument noFaults unlinkThrows req run.2 = (Json 200 [], run.2)).
Proof.
  intros Hkeyed run. subst run. unfold deleteDocument, Document_deactivate.
  destruct (flt 0%nat); [by split_and!|].
  destruct (Document_findOne (delete_id req) (delete_user req) st) as [d|] eqn:Hfind;
    [|by split_and!].
  destruct (flt 1%nat); [by split_and!|].
  apply findOne_Some in Hfind as Hd. destruct Hd as (Hin & Hid & Huser).
  cbn [fst snd code Document_deactivate files table]. rewrite Hid.
  assert (id <$> ((fun d0 => if bool_decide (id d0 = delete_id req)
                             then deactivate d0 else d0) <$> table st)
          = id <$> table st) as Hids.
  { rewrite <- list_fmap_compose. apply list_fmap_ext. intros i x _. cbn.
    by case_bool_decide. }
  split_and!; [done | exact Hids | done |]. intros _. split_and!.
  - by exists d.
  - unfold listDocuments, noFaults. cbn [listed table].
    rewrite active_after_deactivate. by rewrite filter_reverse.
  - intros u Hu. unfold listDocuments, noFaults. cbn [table]. do 2 f_equal.
    rewrite active_after_deactivate. apply filter_all, Forall_forall.
    intros x Hx Heq. apply list_elem_of_filter in Hx as [[Hxu _] Hx].
    assert (x = d) as ->; [|congruence].
    unfold keyed in Hkeyed.
    apply list_elem_of_lookup in Hx as [i Hi]. apply list_elem_of_lookup in Hin as [j Hj].
    assert (i = j) as ->; [|congruence].
    eapply NoDup_lookup; [exact Hkeyed | |]; rewrite list_lookup_fmap.
    + by rewrite Hi.
    + rewrite Hj. cbn. congruence.
  - unfold noFaults.
    assert (Document_findOne (delete_id req) (delete_user req)
              {| table := (fun d0 => if bool_decide (id d0 = delete_id req)
                                     then deactivate d0 else d0) <$> table st;
                 files := files st |} = Some (deactivate d)) as ->.
    { unfold Document_findOne in *. cbn [table].
      revert Hfind. clear. induction (table st) as [|x l IH]; [done|].
      rewrite fmap_cons. rewrite !filter_cons. case_decide as Hx.
      - intros [= ->]. rewrite bool_decide_eq_true_2 by tauto.
        by rewrite decide_True by (cbn; tauto).
      - intros Hl. case_bool_decide as Hxid.
        + rewrite decide_False by (cbn; tauto). by apply IH.
        + rewrite decide_False by done. by apply IH. }
    cbn [id deactivate Document_deactivate table files]. rewrite Hid.
    do 2 f_equal. rewrite <- list_fmap_compose. apply list_fmap_ext.
    intros i x _. cbn [compose].
    destruct (decide (id x = delete_id req)) as [Hx|Hx].
    + rewrite (bool_decide_eq_true_2 (id x = delete_id req)) by done.
      cbn [id deactivate]. by rewrite bool_decide_eq_true_2 by done.
    + rewrite (bool_decide_eq_false_2 (id x = delete_id req)) by done.
      by rewrite bool_decide_eq_false_2 by done.
Qed.

Lemma deleteDocument_soft_witness :
  let req := mkDeleteRequest Sample.alice "d1" in
  let run := deleteDocument noFaults false req SampleDocuments.state in
  files run.2 = files SampleDocuments.state
  /\ listed (listDocuments noFaults Sample.alice run.2) = []
  /\ deleteDocument noFaults false req run.2 = (Json 200 [], run.2).
Proof.
  intros req run. subst run.
  destruct (deleteDocument_soft noFaults false req SampleDocuments.state)
    as (Hfiles & _ & _ & H200).
  - unfold keyed. by_lookup.
  - destruct H200 as (_ & Hlist & _ & Hagain); [reflexivity|].
    split_and!; [exact Hfiles | etrans; [exact Hlist | reflexivity] | exact Hagain].
Defined.

End DocumentProperties.

(** ** Skill gaps *)

Module GapScore.
Import KeywordMatch.

Lemma forallb_elem {A} (f : A -> bool) (l : list A) (x : A) :
  forallb f l = true -> x ∈ l -> f x = true.
Proof.
  intros Hall Hin. rewrite forallb_forall in Hall.
  by apply Hall, list_elem_of_In.
Qed.

Lemma existsb_same_double (g : float) (l : list float) :
  existsb (same_double g) l = true -> g ∈ l.
Proof.
  intros H. apply existsb_exists in H as (x & Hin & Hx).
  apply same_double_eq in Hx as ->. by apply list_elem_of_In.
Qed.

(** The first chain of conditions reads the flag, the user's level and
    the years only; the adjustment reads the two levels only. *)
Lemma experienceGap_reads (this : t) :
  experienceGap_expected this
  = experienceGap_expected
      (mk (isRequired this) true None (yearsRequired this) (userSkillLevel this)
          (userYearsExperience this) 0%float).
Proof. by destruct this. Qed.

Lemma rounded_reads (this : t) (g : float) :
  rounded this g
  = rounded (mk false false (skillLevel this) None (userSkillLevel this) None 0%float)
            g.
Proof. by destruct this. Qed.

(** Checked by evaluation on every combination of values. *)
Lemma experienceGap_expected_all :
  forallb (fun req =>
     forallb (fun usl =>
        forallb (fun y =>
           forallb (fun uy =>
              experienceGap_expected (mk req true None y usl uy 0%float))
                   yearsColumn)
                yearsColumn)
             userSkillLevelColumn)
          [ true; false ] = true.
Proof. vm_cast_no_check (eq_refl true). Qed.

Lemma levels_expected_all :
  forallb (fun sl => forallb (levels_expected sl) userSkillLevelColumn)
          skillLevelColumn = true.
Proof. vm_cast_no_check (eq_refl true). Qed.

(** Whatever the years: a required skill that the user has not at all is
    a gap, of 4.8 points at least and 7 at most; a skill that is neither
    required nor preferred scores 0; and a skill that is only preferred,
    with no years asked for and no level specified, which are the
    defaults of both columns, counts as a strength of every user, the one
    whose level is "None" included, with a score of -0.2. *)
Theorem calculateGapScore_any_years (this : t) :
  skillLevel this ∈ skillLevelColumn ->
  (isRequired this = true -> userSkillLevel this = Some "None"%string ->
   isSkillGap (calculateGapScore this) = true
   /\ PrimFloat.leb 0x1.3333333333333p+2%float (gapScore (calculateGapScore this))
      = true
   /\ PrimFloat.leb (gapScore (calculateGapScore this)) 7%float = true)
  /\ (isRequired this = false -> isPreferred this = false ->
      gapScore (calculateGapScore this) = 0%float)
  /\ (isRequired this = false -> isPreferred this = true ->
      JS.truthyNumber (yearsRequired this) = false ->
      skillLevel this = None \/ skillLevel this = Some "Not Specified"%string ->
      userSkillLevel this ∈ (Some <$> userSkillLevelValues) ->
      isStrength (calculateGapScore this) = true
      /\ (userSkillLevel this = Some "None"%string ->
          gapScore (calculateGapScore this) = (-0x1.999999999999ap-3)%float)).
Proof.
  destruct this as [req pref sl y usl uy g0].
  cbn [isRequired isPreferred skillLevel yearsRequired userSkillLevel
       userYearsExperience].
  intros Hsl. split_and!.
  - intros -> ->. unfold skillLevelColumn, skillLevelValues in Hsl.
    cbn [fmap list_fmap] in Hsl.
    each_member Hsl; destruct pref; vm_compute; done.
  - intros -> ->. reflexivity.
  - intros -> -> Hy Hlevel Husl.
    assert (y = None \/ y = Some 0) as Hy0.
    { destruct y as [n|]; [|by left]. cbn in Hy.
      apply negb_false_iff, Z.eqb_eq in Hy. right. by subst. }
    unfold userSkillLevelValues in Husl. cbn [fmap list_fmap] in Husl.
    destruct Hlevel as [->| ->], Hy0 as [->| ->];
      each_member Husl; (split; [vm_compute; reflexivity|]);
      intros; simplify_eq; vm_compute; reflexivity.
Qed.

Lemma calculateGapScore_any_years_witness :
  let this :=
    calculateGapScore
      (mk false true (Some "Not Specified"%string) None (Some "None"%string)
          (Some 0) 0%float) in
  isStrength this = true /\ gapScore this = (-0x1.999999999999ap-3)%float.
Proof.
  intros this.
  destruct (calculateGapScore_any_years
              (mk false true (Some "Not Specified"%string) None
                  (Some "None"%string) (Some 0) 0%float))
    as (_ & _ & Hquirk).
  - by_lookup.
  - destruct Hquirk as [Hs Hg]; [reflexivity.. | by right | by_lookup |].
    split; [exact Hs | by apply Hg].
Defined.

(** With levels of the two enumerations and up to 50 years on either
    side, the score lies between -1.5 and 7, within the column
    DECIMAL(3, 2); and a user who has the years and the level asked for,
    or more of either, is never shown a gap, unless the skill is required
    and the user's level is "None". *)
Theorem calculateGapScore_bounded (this : t) :
  skillLevel this ∈ skillLevelColumn ->
  userSkillLevel this ∈ userSkillLevelColumn ->
  yearsRequired this ∈ yearsColumn ->
  userYearsExperience this ∈ yearsColumn ->
  in_range (gapScore (calculateGapScore this)) = true
  /\ (meetsRequirement this = true ->
      requiredAndMissing this = false ->
      isSkillGap (calculateGapScore this) = false).
Proof.
  intros Hsl Husl Hy Huy.
  pose proof (forallb_elem _ _ _
                (forallb_elem _ _ _ levels_expected_all Hsl) Husl) as Hlevels.
  assert (experienceGap_expected this = true) as Hgap.
  { rewrite experienceGap_reads.
    assert (isRequired this ∈ [true; false]) as Hreq
      by (destruct (isRequired this); by_lookup).
    exact (forallb_elem _ _ _
             (forallb_elem _ _ _
                (forallb_elem _ _ _
                   (forallb_elem _ _ _ experienceGap_expected_all Hreq) Husl)
                Hy) Huy). }
  unfold levels_expected in Hlevels.
  apply andb_true_iff in Hlevels as [Hlevels Hmeets].
  apply andb_true_iff in Hlevels as [Hrange Hrange5].
  unfold calculateGapScore, isSkillGap.
  destruct (negb (isRequired this) && negb (isPreferred this)) eqn:Hflags.
  { cbn [with_gapScore gapScore]. split; [by vm_compute | intros; by vm_compute]. }
  cbn [with_gapScore gapScore]. fold (rounded this (experienceGap this)).
  rewrite rounded_reads. unfold experienceGap_expected in Hgap.
  unfold meetsRequirement. destruct (requiredAndMissing this) eqn:Hmissing.
  - apply same_double_eq in Hgap. rewrite Hgap.
    unfold requiredAndMissing in Hmissing.
    apply andb_true_iff in Hmissing as [_ Hnone].
    rewrite Hnone in Hrange5. split; [exact Hrange5 | done].
  - destruct (meetsYears this) eqn:Hyears.
    + apply existsb_same_double in Hgap. split.
      * apply (forallb_elem _ _ _ Hrange).
        repeat (apply elem_of_cons in Hgap as [Hgap|Hgap];
                [rewrite Hgap, !elem_of_cons; auto 12|]).
        by apply elem_of_nil in Hgap.
      * intros Hmeet _. apply andb_true_iff in Hmeet as [Hlevel _].
        rewrite Hlevel in Hmeets.
        apply negb_true_iff. by apply (forallb_elem _ _ _ Hmeets).
    + apply existsb_same_double in Hgap. split.
      * apply (forallb_elem _ _ _ Hrange).
        repeat (apply elem_of_cons in Hgap as [Hgap|Hgap];
                [rewrite Hgap, !elem_of_cons; auto 12|]).
        by apply elem_of_nil in Hgap.
      * intros Hmeet. by apply andb_true_iff in Hmeet as [_ ?].
Qed.

Lemma calculateGapScore_bounded_witness :
  let this :=
    mk true false (Some "Advanced"%string) (Some 3) (Some "Expert"%string)
       (Some 5) 0%float in
  in_range (gapScore (calculateGapScore this)) = true
  /\ isSkillGap (calculateGapScore this) = false.
Proof.
  intros this.
  destruct (calculateGapScore_bounded this) as [Hrange Hmeets];
    [by_lookup..|].
  split; [exact Hrange | by apply Hmeets].
Defined.

End GapScore.

(** ** Keywords *)

Module KeywordProperties.
Import Keyword.

Section Synonyms.

Variable toLowerCase : string -> string.

Lemma with_synonyms_same (this : t) : with_synonyms this (synonyms this) = this.
Proof. by destruct this. Qed.

(** Adding a synonym that the update stores puts its lower-case form in
    the list, at the end and once: the synonyms that were there keep their
    places, and a list without repetitions stays one. Adding it again
    changes nothing and issues no update. Removing it again gives back the
    keyword as it was, when the synonym was new; and whatever the list, a
    synonym that was removed is in it no more, while every other one
    stays. *)
Theorem synonyms_add_remove (this : t) (synonym : string) :
  let l := toLowerCase synonym in
  (forall this',
     addSynonym toLowerCase false this synonym = Some this' ->
     l ∈ synonyms this'
     /\ (exists rest, synonyms this' = synonyms this ++ rest)
     /\ (NoDup (synonyms this) -> NoDup (synonyms this'))
     /\ (forall rejects,
           addSynonym toLowerCase rejects this' synonym = Some this')
     /\ ((l ∉ synonyms this) ->
         removeSynonym toLowerCase false this' synonym = Some this))
  /\ (forall this',
        removeSynonym toLowerCase false this synonym = Some this' ->
        (l ∉ synonyms this')
        /\ forall x, x <> l -> (x ∈ synonyms this' <-> x ∈ synonyms this)).
Proof.
  intros l. subst l. split.
  - intros this'. unfold addSynonym.
    destruct (JS.includes (synonyms this) (toLowerCase synonym)) eqn:Hin;
      cbn [negb]; intros [= <-].
    + pose proof Hin as Hin'. apply includes_elem_of in Hin'.
      split_and!; [done | exists []; by rewrite app_nil_r | done | |done].
      intros rejects. by rewrite Hin.
    + assert (toLowerCase synonym ∉ synonyms this) as Hnotin.
      { intros Hin'. apply includes_elem_of in Hin'. congruence. }
      cbn [with_synonyms synonyms]. split_and!.
      * apply elem_of_app. right. by apply list_elem_of_singleton.
      * by eexists.
      * intros Hnd. apply NoDup_app. split_and!; [done | | apply NoDup_singleton].
        intros x Hx Hx'. apply list_elem_of_singleton in Hx'. by subst.
      * intros rejects.
        assert (JS.includes (synonyms this ++ [toLowerCase synonym])
                            (toLowerCase synonym) = true) as ->; [|done].
        apply includes_elem_of, elem_of_app. right.
        by apply list_elem_of_singleton.
      * intros _. unfold removeSynonym. cbn [with_synonyms synonyms].
        rewrite filter_app, filter_cons_False, filter_nil, app_nil_r
          by (intros ?; done).
        rewrite filter_all; [|by apply Forall_forall; intros x Hx ->].
        by destruct this.
  - intros this'. unfold removeSynonym. intros [= <-].
    cbn [with_synonyms synonyms]. split.
    + intros Hin. by apply list_elem_of_filter in Hin as [? _].
    + intros x Hx. rewrite list_elem_of_filter. tauto.
Qed.

End Synonyms.

Section Frequencies.

Variable toLowerCase : string -> string.
Variable validWord : string -> bool.

(** One call of [createOrUpdate] that resolves. *)
Lemma createOrUpdate_resolved (flt : Faults) (issued issued' : nat)
    (table table' : Table) (w category : string) :
  createOrUpdate toLowerCase validWord flt issued table w category
  = Some (table', issued') ->
  (forall x, frequency_of table' x
             = frequency_of table x + (if decide (toLowerCase w = x) then 1 else 0))
  /\ (forall x row, table !! x = Some row ->
        exists row', table' !! x = Some row'
                     /\ Keyword.category row' = Keyword.category row
                     /\ synonyms row' = synonyms row).
Proof.
  unfold createOrUpdate, frequency_of. destruct (flt issued); [done|].
  destruct (table !! toLowerCase w) as [keyword|] eqn:Hfound.
  - destruct (flt (S issued)); [done|]. intros [= <- <-]. split.
    + intros x. destruct (decide (toLowerCase w = x)) as [<-|Hne].
      * by rewrite lookup_insert_eq, Hfound.
      * rewrite lookup_insert_ne by done. destruct (table !! x); lia.
    + intros x row Hx. destruct (decide (toLowerCase w = x)) as [<-|Hne].
      * rewrite lookup_insert_eq. simplify_eq. by eexists.
      * rewrite lookup_insert_ne by done. by eexists.
  - destruct (validWord _ && JS.includes _ _); [|done]. intros [= <- <-]. split.
    + intros x. destruct (decide (toLowerCase w = x)) as [<-|Hne].
      * by rewrite lookup_insert_eq, Hfound.
      * rewrite lookup_insert_ne by done. destruct (table !! x); lia.
    + intros x row Hx. destruct (decide (toLowerCase w = x)) as [<-|Hne].
      * congruence.
      * rewrite lookup_insert_ne by done. by eexists.
Qed.

Lemma occurrences_cons (w : string) (d : Data) (keywords : list Data) :
  occurrences toLowerCase w (d :: keywords)
  = (if decide (toLowerCase (word d) = w) then 1 else 0)
    + occurrences toLowerCase w keywords.
Proof.
  unfold occurrences. rewrite filter_cons.
  destruct (decide (toLowerCase (word d) = w)); cbn [length]; lia.
Qed.

Lemma counted_nil (table : Table) : counted toLowerCase table table [].
Proof.
  split; [intros w; unfold occurrences; cbn; lia|].
  intros x row Hx. by eexists.
Qed.

Lemma counted_step (table table' table'' : Table) (d : Data)
    (keywords : list Data) :
  (forall x, frequency_of table' x
             = frequency_of table x
               + (if decide (toLowerCase (word d) = x) then 1 else 0)) ->
  (forall x row, table !! x = Some row ->
     exists row', table' !! x = Some row'
                  /\ Keyword.category row' = Keyword.category row
                  /\ synonyms row' = synonyms row) ->
  counted toLowerCase table' table'' keywords ->
  counted toLowerCase table table'' (d :: keywords).
Proof.
  intros Hfreq Hrows [Hfreq' Hrows']. split.
  - intros w. rewrite Hfreq', Hfreq, occurrences_cons. lia.
  - intros x row Hx. destruct (Hrows x row Hx) as (row' & Hx' & Hc & Hs).
    destruct (Hrows' x row' Hx') as (row'' & Hx'' & Hc' & Hs').
    exists row''. split_and!; congruence.
Qed.

Lemma bulkCreateKeywords_from_counted (flt : Faults) (keywords : list Data) :
  forall (issued : nat) (table : Table) (results : list string),
    match bulkCreateKeywords_from toLowerCase validWord flt issued table results
            keywords with
    | Done results' table' =>
        results' = results ++ (toLowerCase ∘ word <$> keywords)
        /\ counted toLowerCase table table' keywords
    | Failed table' =>
        exists done_ rest,
          keywords = done_ ++ rest /\ rest <> [] /\ counted toLowerCase table table' done_
    end.
Proof.
  induction keywords as [|d keywords IH]; intros issued table results.
  - cbn. rewrite app_nil_r. split; [done | apply counted_nil].
  - cbn [bulkCreateKeywords_from].
    destruct (createOrUpdate _ _ _ _ _ _ _) as [[table' issued']|] eqn:Hcall.
    + apply createOrUpdate_resolved in Hcall as [Hfreq Hrows].
      specialize (IH issued' table' (results ++ [toLowerCase (word d)])).
      destruct (bulkCreateKeywords_from _ _ _ _ _ _ _) as [results'' table''|table''].
      * destruct IH as [-> Hcounted]. split.
        -- by rewrite <- app_assoc.
        -- by eapply counted_step.
      * destruct IH as (done_ & rest & -> & Hrest & Hcounted).
        exists (d :: done_), rest. split_and!; [done..|].
        by eapply counted_step.
    + exists [], (d :: keywords). split_and!; [done..|]. apply counted_nil.
Qed.


End Frequencies.

Lemma synonyms_add_remove_witness :
  let this := Keyword.mk "Framework" 4 [ "reactjs"%string ] in
  let added := Keyword.mk "Framework" 4 [ "reactjs"; "react.js" ]%string in
  addSynonym SampleKeyword.toLowerCase false this "React.JS" = Some added
  /\ removeSynonym SampleKeyword.toLowerCase false added "REACT.js" = Some this.
Proof.
  intros this added.
  assert (addSynonym SampleKeyword.toLowerCase false this "React.JS" = Some added)
    as Hadd by reflexivity.
  split; [exact Hadd|].
  destruct (synonyms_add_remove SampleKeyword.toLowerCase this "React.JS")
    as [Hadded _].
  destruct (Hadded added Hadd) as (_ & _ & _ & _ & Hback).
  rewrite <- Hback; [reflexivity|]. vm_compute. intros Hin.
  apply list_elem_of_singleton in Hin. discriminate.
Defined.

End KeywordProperties.

(** ** The status of the application form *)

(** PUT with no rejected statement, on a body whose status differs from
    the current one. *)
Lemma updateApplication_transition (req : Request) (flt : Faults) (s : Store)
    (a : JobApplication.t) (new : string) :
  put_validators req = true ->
  lookup_owned s (params_id req) (user req) = Some a ->
  salaryRangeInvalid
    (JS.orElse (Body.salaryMin (body req)) (JobApplication.salaryMin a))
    (JS.orElse (Body.salaryMax (body req)) (JobApplication.salaryMax a))
  = false ->
  Body.status (body req) = Some (Some new) ->
  JobApplication.status a <> Some new ->
  (forall k, (k < 4)%nat -> flt k = false) ->
  perform (UpdateApplication req) flt s
  = (Json 200
       (ApplicationData
          (Some (mkApplicationJson (params_id req) (assign (body req) a)
                   (companies s !! JobApplication.companyId (assign (body req) a))
                   None))),
     recorded (transition_row req a new) (assigned (params_id req) (body req) s)).
Proof.
  intros Hval Hl Hrange Hst Hne Hflt.
  pose proof Hl as Hl'. apply lookup_owned_Some in Hl' as [Ha _].
  assert (Body.statusValue (body req) = Some new) as Hnew
    by (unfold Body.statusValue; by rewrite Hst).
  assert (JS.truthy (Some new) = true) as Htruthy.
  { unfold put_validators in Hval. rewrite Hst in Hval.
    apply andb_true_iff in Hval as [_ Hin]. by apply status_value_truthy. }
  unfold perform. cbn [handler]. run_handler.
  rewrite Hval. sim. rewrite (Hflt 0%nat) by lia. sim. rewrite Hl, Hrange. sim.
  rewrite (Hflt 1%nat) by lia. sim. rewrite Hnew, Htruthy.
  rewrite bool_decide_eq_false_2 by congruence. sim.
  rewrite (Hflt 2%nat) by lia. sim. rewrite (Hflt 3%nat) by lia. sim.
  cbn [job_applications companies].
  rewrite lookup_alter_eq, Ha. reflexivity.
Qed.

Module StatusFormProperties.
Import StatusForm.

(** Every value of the form's status field is submitted as a status of
    the backend's enumeration and is shown again as itself. The other way
    round only nine of the fourteen statuses survive: an application in
    one of the five statuses that the form has no value for is shown as
    "applied" and submitted as "Applied". *)
Theorem status_round_trip :
  (forall f, f ∈ formStatuses ->
             JS.includes statusValues (submittedStatus f) = true
             /\ shownStatus (Some (submittedStatus f)) = f)
  /\ (forall b, b ∈ statusValues ->
                submittedStatus (shownStatus (Some b))
                = if JS.includes unknownToForm b then "Applied"%string else b)
  /\ submittedStatus (shownStatus None) = "Applied"%string.
Proof.
  split_and!.
  - intros f Hf. unfold formStatuses in Hf. each_member Hf; by vm_compute.
  - intros b Hb. unfold statusValues in Hb. each_member Hb; by vm_compute.
  - reflexivity.
Qed.

(** Saving the edit form of an application whose status the form has no
    value for, without touching the status field, moves the application
    to "Applied": the PUT answers 200, stores the new status and appends
    the ledger row from the old status to "Applied". *)
Theorem edit_form_resets_unknown_status (req : Request) (flt : Faults)
    (s : Store) (a : JobApplication.t) (st : string) :
  lookup_owned s (params_id req) (user req) = Some a ->
  JobApplication.status a = Some st ->
  st ∈ unknownToForm ->
  Body.status (body req)
  = Some (Some (submittedStatus (shownStatus (JobApplication.status a)))) ->
  otherFieldsValid req = true ->
  isInt_min0 (Body.salaryMin (body req)) = true ->
  isInt_min0 (Body.salaryMax (body req)) = true ->
  salaryRangeInvalid
    (JS.orElse (Body.salaryMin (body req)) (JobApplication.salaryMin a))
    (JS.orElse (Body.salaryMax (body req)) (JobApplication.salaryMax a))
  = false ->
  (forall k, (k < 4)%nat -> flt k = false) ->
  let run := perform (UpdateApplication req) flt s in
  statusCode run.1 = Some 200%nat
  /\ JobApplication.status <$> job_applications run.2 !! params_id req
     = Some (Some "Applied"%string)
  /\ status_history run.2
     = status_history s
       ++ [ StatusHistory.mk (params_id req) (Some st) "Applied" "User"
              (if JS.truthy (Body.statusNotes (body req))
               then Body.statusNotes (body req) else None) ].
Proof.
  intros Hl Hst Hunknown Hbody Hother Hmin Hmax Hrange Hflt run. subst run.
  assert (submittedStatus (shownStatus (JobApplication.status a))
          = "Applied"%string) as Hsub.
  { rewrite Hst. unfold unknownToForm in Hunknown.
    each_member Hunknown; by vm_compute. }
  rewrite Hsub in Hbody.
  assert (JobApplication.status a <> Some "Applied"%string) as Hne.
  { rewrite Hst. unfold unknownToForm in Hunknown.
    each_member Hunknown; discriminate. }
  rewrite (updateApplication_transition req flt s a "Applied");
    [| unfold put_validators; rewrite Hother, Hmin, Hmax, Hbody; reflexivity
     | done..].
  cbn [fst snd statusCode recorded assigned job_applications status_history].
  pose proof Hl as Hl'. apply lookup_owned_Some in Hl' as [Ha _].
  split_and!; [done | |].
  - rewrite lookup_alter_eq, Ha. cbn [fmap option_fmap option_map].
    unfold assign. cbn [JobApplication.status]. by rewrite Hbody.
  - unfold transition_row. by rewrite Hst.
Qed.

Lemma edit_form_resets_unknown_status_witness :
  let held :=
    {| companies := companies Sample.tracked;
       job_applications :=
         {[ "a1"%string :=
              JobApplication.mk Sample.alice Sample.acme (Some "On Hold"%string)
                None None ]};
       status_history :=
         [ StatusHistory.mk "a1" None "Interested" "User" None;
           StatusHistory.mk "a1" (Some "Interested"%string) "On Hold" "User" None ];
       application_keywords := [];
       documents := [] |} in
  let req :=
    Sample.request Sample.alice "a1"
      (Sample.statusBody
         (StatusForm.submittedStatus (StatusForm.shownStatus (Some "On Hold"%string)))) in
  let run := perform (UpdateApplication req) noFaults held in
  statusCode run.1 = Some 200%nat
  /\ JobApplication.status <$> job_applications run.2 !! "a1"%string
     = Some (Some "Applied"%string)
  /\ status_history run.2
     = status_history held
       ++ [ StatusHistory.mk "a1" (Some "On Hold"%string) "Applied" "User" None ].
Proof.
  intros held req.
  apply (edit_form_resets_unknown_status req noFaults held
           (JobApplication.mk Sample.alice Sample.acme (Some "On Hold"%string)
              None None)
           "On Hold"%string);
    [vm_compute; reflexivity | reflexivity | by_lookup | reflexivity.. | done].
Defined.

End StatusFormProperties.
